(** * Teeception indexer core: projections over chain events

    A shallow embedding of the Go packages [pkg/indexer] (agent, token and
    agent-usage projections) and of the part of [pkg/ui_service] that
    serialises an [AgentInfo], together with the properties the written
    specification states about them.

    Conventions of the embedding:
    - a [uint64] is a [Z] in [0, 2^64); arithmetic that can wrap is written
      with [u64];
    - a [[32]byte] array is the [Z] in [0, 2^256) it spells big-endian;
    - a [*felt.Felt] is the canonical representative in [Z] of the field
      element, so [felt.Bytes] is the inclusion into [[32]byte];
    - a [*big.Int] that may be nil is an [option Z];
    - [time.Time] is the number of nanoseconds since the zero instant;
    - the wall clock read by a call is an explicit argument [now];
    - [slog] output is returned next to the new state as a list of records. *)

From Stdlib Require Import ZArith Lia.
From stdpp Require Import gmap strings list fin_maps pretty.

Local Open Scope Z_scope.

(** ** Machine integers, addresses, log records *)

Definition u64 (z : Z) : Z := z mod 2 ^ 64.

Definition is_u64 (z : Z) : Prop := 0 <= z < 2 ^ 64.

Abbreviation Bytes32 := Z.

Abbreviation Felt := Z.

(** [felt.Felt.Bytes]: the 32 big-endian bytes of the canonical value. *)
Definition Felt_Bytes (f : Felt) : Bytes32 := f.

(** [felt.Felt.Cmp]. *)
Definition Felt_Cmp (a b : Felt) : comparison := Z.compare a b.

(** [new(felt.Felt)]: the zero element. *)
Definition Felt_zero : Felt := 0.

Inductive LogLevel : Type := LevelWarn | LevelError.

Record LogRecord : Type := mkLog { log_level : LogLevel; log_msg : string }.

Definition slog_Warn (msg : string) : LogRecord := mkLog LevelWarn msg.
Definition slog_Error (msg : string) : LogRecord := mkLog LevelError msg.

(** ** The expirable LRU used as correlation buffer

    [expirable.LRU] of hashicorp/golang-lru (an external library) is
    modelled by its eviction list, most recently added entry first.  [Add]
    renews an existing key in place at the front, otherwise pushes a new
    entry and drops the oldest one when the capacity is exceeded; [Peek]
    hides an entry whose deadline has passed; [Remove] deletes a key;
    [deleteExpired] is what the library's background sweeper does. *)

Module LRU.

Section WithValue.
Context {V : Type}.

Record Entry : Type := mkEntry { Key : string; Value : V; ExpiresAt : Z }.

Record t : Type := mk { size : Z; ttl : Z; evictList : list Entry }.

(** ten years, in nanoseconds: what [NewLRU] puts in place of a time to
    live that is not positive *)
Definition noEvictionTTL : Z := 24 * 365 * 10 * 3600 * 1000000000.

Definition NewLRU (size ttl : Z) : t :=
  mk (if size <? 0 then 0 else size) (if ttl <=? 0 then noEvictionTTL else ttl) [].

Definition has_key (k : string) (e : Entry) : bool := bool_decide (Key e = k).

Definition find (k : string) (l : list Entry) : option Entry :=
  List.find (has_key k) l.

Definition remove_key (k : string) (l : list Entry) : list Entry :=
  List.filter (fun e => negb (has_key k e)) l.

(** remove the entry at the back of the eviction list *)
Definition removeOldest (l : list Entry) : list Entry := removelast l.

Definition Add (now : Z) (k : string) (v : V) (c : t) : t :=
  let ent := mkEntry k v (now + ttl c) in
  match find k (evictList c) with
  | Some _ => mk (size c) (ttl c) (ent :: remove_key k (evictList c))
  | None =>
      let l := ent :: evictList c in
      if (0 <? size c) && (size c <? Z.of_nat (length l))
      then mk (size c) (ttl c) (removeOldest l)
      else mk (size c) (ttl c) l
  end.

Definition Peek (now : Z) (k : string) (c : t) : option V :=
  match find k (evictList c) with
  | Some ent => if ExpiresAt ent <? now then None else Some (Value ent)
  | None => None
  end.

Definition Remove (k : string) (c : t) : t :=
  mk (size c) (ttl c) (remove_key k (evictList c)).

Definition deleteExpired (now : Z) (c : t) : t :=
  mk (size c) (ttl c)
     (List.filter (fun e => negb (ExpiresAt e <? now)) (evictList c)).

End WithValue.

Arguments Entry : clear implicits.
Arguments t : clear implicits.

End LRU.

(** ** Agent usage projection: [agent_usage_indexer_db.go] *)

Record AgentUsageLatestPrompt : Type := mkLatestPrompt {
  PromptID : Z;
  TweetID : Z;
  Prompt : string;
  IsSuccess : bool;
  DrainedTo : Felt
}.

Record AgentUsage : Type := mkAgentUsage {
  BreakAttempts : Z;
  LatestPrompts : list AgentUsageLatestPrompt;
  IsDrained : bool
}.

Record PromptPaidEvent : Type := mkPromptPaid {
  PromptPaid_PromptID : Z;
  PromptPaid_TweetID : Z;
  PromptPaid_Prompt : string
}.

Record PromptConsumedEvent : Type := mkPromptConsumed {
  PromptConsumed_PromptID : Z;
  PromptConsumed_DrainedTo : Felt
}.

Record AgentUsageIndexerDatabaseInMemoryPromptCacheData : Type := mkCacheData {
  Cache_TweetID : Z;
  Cache_Prompt : string
}.

Abbreviation PromptCacheData := AgentUsageIndexerDatabaseInMemoryPromptCacheData.

Record AgentUsageIndexerDatabaseInMemory : Type := mkUsageDb {
  usages : gmap Z AgentUsage;
  maxPrompts : Z;
  promptCache : LRU.t PromptCacheData;
  lastIndexedBlock : Z
}.

Abbreviation UsageDb := AgentUsageIndexerDatabaseInMemory.

Definition agentUsageIndexerPromptCacheSize : Z := 10000.

(** 30 minutes, in nanoseconds *)
Definition agentUsageIndexerPromptCacheTTL : Z := 30 * 60 * 1000000000.

Definition NewAgentUsageIndexerDatabaseInMemory (initialBlock maxPrompts : Z) : UsageDb :=
  mkUsageDb ∅ maxPrompts
    (LRU.NewLRU agentUsageIndexerPromptCacheSize agentUsageIndexerPromptCacheTTL)
    initialBlock.

Definition GetAgentUsage (db : UsageDb) (addr : Bytes32) : option AgentUsage :=
  usages db !! addr.

Definition GetAgentExists (db : UsageDb) (addr : Bytes32) : bool :=
  bool_decide (is_Some (usages db !! addr)).

Definition getOrCreateAgentUsage (db : UsageDb) (addr : Bytes32) : AgentUsage :=
  match usages db !! addr with
  | Some usage => usage
  | None => mkAgentUsage 0 [] false
  end.

Definition StoreAgent (db : UsageDb) (addr : Bytes32) : UsageDb :=
  let usage := getOrCreateAgentUsage db addr in
  mkUsageDb (<[addr := usage]> (usages db)) (maxPrompts db) (promptCache db)
    (lastIndexedBlock db).

(** The [n] low bytes of [z], most significant first, as raw characters:
    what [%s] prints for a byte array. *)
Fixpoint bytes_be (n : nat) (z : Z) : string :=
  match n with
  | O => EmptyString
  | S n' =>
      String (Ascii.ascii_of_N (Z.to_N ((z / 256 ^ Z.of_nat n') mod 256)))
             (bytes_be n' z)
  end.

(** [fmt.Sprintf("%s-%d", addr, promptID)] *)
Definition promptCacheKey (addr : Bytes32) (promptID : Z) : string :=
  bytes_be 32 addr +:+ "-" +:+ pretty (Z.to_N promptID).

Definition StorePromptPaidData (now : Z) (db : UsageDb) (addr : Bytes32)
    (promptPaidEvent : PromptPaidEvent) : UsageDb :=
  mkUsageDb (usages db) (maxPrompts db)
    (LRU.Add now
       (promptCacheKey addr (PromptPaid_PromptID promptPaidEvent))
       (mkCacheData (PromptPaid_TweetID promptPaidEvent)
                    (PromptPaid_Prompt promptPaidEvent))
       (promptCache db))
    (lastIndexedBlock db).

Definition StorePromptConsumedData (now : Z) (db : UsageDb) (addr : Bytes32)
    (promptConsumedEvent : PromptConsumedEvent) : UsageDb * list LogRecord :=
  let usage := getOrCreateAgentUsage db addr in
  let breakAttempts := u64 (BreakAttempts usage + 1) in
  let '(succeeded, drainAddress) :=
    if bool_decide (Felt_Bytes (PromptConsumed_DrainedTo promptConsumedEvent) = addr)
    then (false, Felt_zero)
    else (true, PromptConsumed_DrainedTo promptConsumedEvent) in
  let promptCacheKey :=
    promptCacheKey addr (PromptConsumed_PromptID promptConsumedEvent) in
  let '(promptCacheData, cache, logs) :=
    match LRU.Peek now promptCacheKey (promptCache db) with
    | None =>
        (mkCacheData 0 EmptyString, promptCache db,
         [slog_Error "prompt not found in cache"])
    | Some data => (data, LRU.Remove promptCacheKey (promptCache db), [])
    end in
  let isDrained := if succeeded then true else IsDrained usage in
  let latestPrompts :=
    LatestPrompts usage ++
    [mkLatestPrompt (PromptConsumed_PromptID promptConsumedEvent)
       (Cache_TweetID promptCacheData) (Cache_Prompt promptCacheData)
       succeeded drainAddress] in
  let latestPrompts :=
    if maxPrompts db <? Z.of_nat (length latestPrompts)
    then drop 1 latestPrompts
    else latestPrompts in
  (mkUsageDb
     (<[addr := mkAgentUsage breakAttempts latestPrompts isDrained]> (usages db))
     (maxPrompts db) cache (lastIndexedBlock db),
   logs).

Definition UsageDb_GetLastIndexedBlock (db : UsageDb) : Z := lastIndexedBlock db.

Definition UsageDb_SetLastIndexedBlock (db : UsageDb) (block : Z) : UsageDb :=
  mkUsageDb (usages db) (maxPrompts db) (promptCache db) block.

(** What happens to the usage database: the writer methods the usage
    indexer calls, and the prompt cache's background sweeper passing. *)
Inductive UsageOp : Type :=
| OpStoreAgent (addr : Bytes32)
| OpStorePromptPaidData (now : Z) (addr : Bytes32) (ev : PromptPaidEvent)
| OpStorePromptConsumedData (now : Z) (addr : Bytes32) (ev : PromptConsumedEvent)
| OpSetLastIndexedBlock (block : Z)
| OpSweepPromptCache (now : Z).

Definition applyUsageOp (db : UsageDb) (op : UsageOp) : UsageDb :=
  match op with
  | OpStoreAgent addr => StoreAgent db addr
  | OpStorePromptPaidData now addr ev => StorePromptPaidData now db addr ev
  | OpStorePromptConsumedData now addr ev =>
      fst (StorePromptConsumedData now db addr ev)
  | OpSetLastIndexedBlock block => UsageDb_SetLastIndexedBlock db block
  | OpSweepPromptCache now =>
      mkUsageDb (usages db) (maxPrompts db)
        (LRU.deleteExpired now (promptCache db)) (lastIndexedBlock db)
  end.

Definition runUsageOps (db : UsageDb) (ops : list UsageOp) : UsageDb :=
  fold_left applyUsageOp ops db.

(** the addresses for which an operation creates a usage entry *)
Definition createsUsageFor (op : UsageOp) : option Bytes32 :=
  match op with
  | OpStoreAgent addr => Some addr
  | OpStorePromptConsumedData _ addr _ => Some addr
  | OpStorePromptPaidData _ _ _ => None
  | OpSetLastIndexedBlock _ => None
  | OpSweepPromptCache _ => None
  end.

(** ** Chain events *)

Inductive EventType : Type :=
| EventAgentRegistered
| EventPromptPaid
| EventPromptConsumed
| EventTokenAdded
| EventTokenRemoved
| EventTransfer
| EventTeeUnencumbered.

(** [Event], with the fields of [Raw] (an [rpc.EmittedEvent]) the indexers read. *)
Record Event : Type := mkEvent {
  Type_ : EventType;
  Raw_FromAddress : Felt;
  Raw_Keys : list Felt;
  Raw_Data : list Felt
}.

Record AgentRegisteredEvent : Type := mkAgentRegistered {
  AgentRegistered_Agent : Felt;
  AgentRegistered_Creator : Felt;
  AgentRegistered_Name : string;
  AgentRegistered_SystemPrompt : string;
  AgentRegistered_PromptPrice : Z;
  AgentRegistered_TokenAddress : Felt;
  AgentRegistered_EndTime : Z
}.

Record TokenAddedEvent : Type := mkTokenAdded {
  TokenAdded_Token : Felt;
  TokenAdded_MinPromptPrice : Z;
  TokenAdded_MinInitialBalance : Z
}.

Record TokenRemovedEvent : Type := mkTokenRemoved {
  TokenRemoved_Token : Felt
}.

(** The payload decoders of [events.go], whose code is not among the files
    embedded here: they are an interface the indexers are written against. *)
Class EventDecoder : Type := {
  ToAgentRegisteredEvent : Event -> option AgentRegisteredEvent;
  ToTokenAddedEvent : Event -> option TokenAddedEvent;
  ToTokenRemovedEvent : Event -> option TokenRemovedEvent
}.

(** ** Outcomes of Go calls *)

Inductive outcome (A : Type) : Type :=
| Returns (a : A)
| Panics.

Arguments Returns {A} a.
Arguments Panics {A}.

Definition error : Type := string.

(** ** Agent projection: [agent_indexer.go] *)

Record AgentInfo : Type := mkAgentInfo {
  Address : option Felt;
  Creator : option Felt;
  Name : string;
  SystemPrompt : string;
  PromptPrice : option Z;
  TokenAddress : option Felt;
  EndTime : Z
}.

(** the zero value [AgentInfo{}] *)
Definition AgentInfo_zero : AgentInfo :=
  mkAgentInfo None None EmptyString EmptyString None None 0.

(** The Go interface [AgentIndexerDatabase]. *)
Class AgentIndexerDatabase (DB : Type) : Type := {
  GetAgentInfo : DB -> Bytes32 -> AgentInfo * bool;
  GetAddressesByCreator : DB -> Bytes32 -> list Bytes32;
  GetLastIndexedBlock : DB -> Z;
  SetAgentInfo : DB -> Bytes32 -> AgentInfo -> DB;
  SetLastIndexedBlock : DB -> Z -> DB
}.

(** *** RPC access *)

Record FunctionCall : Type := mkFunctionCall {
  ContractAddress : Felt;
  EntryPointSelector : Felt;
  Calldata : list Felt
}.

(** an [rpc.RpcProvider]: the answer of the node to [Call] at a block tag *)
Definition RpcProvider : Type := FunctionCall -> string -> list Felt + error.

(** one [provider.Call] as it went out: the call and its block tag *)
Record RpcCall : Type := mkRpcCall {
  call_function : FunctionCall;
  call_blockTag : string
}.

(** Modelled from the spec: [ProviderWrapper.Do] of pkg/wallet/starknet,
    whose code is not among the files embedded here.  The wrapper rotates
    over its providers: the closure is run on each provider in turn until one run
    returns no error; the error of the last run is returned otherwise.
    Every closure of [fetchAgentInfo] is a single [provider.Call], so [Do]
    is specialised to that: it returns the calls that went out, the last
    response assigned by the closure and the error of [Do]. *)
Fixpoint ProviderWrapper_Do (providers : list RpcProvider) (fc : FunctionCall)
    (tag : string) : list RpcCall * list Felt * option error :=
  match providers with
  | [] => ([], [], Some "no provider available")
  | provider :: rest =>
      match provider fc tag with
      | inl resp => ([mkRpcCall fc tag], resp, None)
      | inr err =>
          match rest with
          | [] => ([mkRpcCall fc tag], [], Some err)
          | _ :: _ =>
              let '(calls, resp, e) := ProviderWrapper_Do rest fc tag in
              (mkRpcCall fc tag :: calls, resp, e)
          end
      end
  end.

(** The two functions of starknet.go the indexer uses. *)
Class StarknetUtils : Type := {
  GetSelectorFromNameFelt : string -> Felt;
  ByteArrFeltToString : list Felt -> string + error
}.

Record AgentIndexer (DB : Type) : Type := mkAgentIndexer {
  db : DB;
  registryAddress : Felt;
  client : list RpcProvider
}.

Arguments mkAgentIndexer {DB} _ _ _.
Arguments db {DB} _.
Arguments registryAddress {DB} _.
Arguments client {DB} _.

Record AgentsByCreatorResult : Type := mkAgentsByCreatorResult {
  Agents : list AgentInfo;
  AgentCount : Z;
  LastBlock : Z
}.

Section AgentIndexerCode.
Context {DB : Type} {Hdb : AgentIndexerDatabase DB} {decode : EventDecoder}
        {starknet : StarknetUtils}.

Definition isAgentRegisteredSelector : Felt :=
  GetSelectorFromNameFelt "is_agent_registered".
Definition getSystemPromptSelector : Felt :=
  GetSelectorFromNameFelt "get_system_prompt".
Definition getNameSelector : Felt := GetSelectorFromNameFelt "get_name".

Definition onAgentRegistered (i : AgentIndexer DB) (ev : Event)
  : AgentIndexer DB * list LogRecord :=
  match Felt_Cmp (Raw_FromAddress ev) (registryAddress i) with
  | Eq =>
      match ToAgentRegisteredEvent ev with
      | None => (i, [slog_Error "failed to parse agent registered event"])
      | Some agentRegisteredEv =>
          (mkAgentIndexer
             (SetAgentInfo (db i)
                (Felt_Bytes (AgentRegistered_Agent agentRegisteredEv))
                (mkAgentInfo
                   (Some (AgentRegistered_Agent agentRegisteredEv))
                   (Some (AgentRegistered_Creator agentRegisteredEv))
                   (AgentRegistered_Name agentRegisteredEv)
                   (AgentRegistered_SystemPrompt agentRegisteredEv)
                   (Some (AgentRegistered_PromptPrice agentRegisteredEv))
                   (Some (AgentRegistered_TokenAddress agentRegisteredEv))
                   (AgentRegistered_EndTime agentRegisteredEv)))
             (registryAddress i) (client i),
           [])
      end
  | _ =>
      (i, [slog_Warn "received agent registered event from non-registry address"])
  end.

(** one batch of [run]: every event of the batch, then the watermark *)
Definition AgentIndexer_applyBatch (i : AgentIndexer DB) (events : list Event)
    (toBlock : Z) : AgentIndexer DB * list LogRecord :=
  let '(i, logs) :=
    fold_left (fun '(i, logs) ev =>
                 let '(i', l) := onAgentRegistered i ev in (i', logs ++ l))
              events (i, []) in
  (mkAgentIndexer (SetLastIndexedBlock (db i) toBlock) (registryAddress i)
     (client i), logs).

Definition AgentIndexer_GetAgentInfo (i : AgentIndexer DB) (addr : Felt)
  : AgentInfo * bool :=
  GetAgentInfo (db i) (Felt_Bytes addr).

(** [agents[start:end]] for [start <= end <= len(agents)] *)
Definition slice {A : Type} (l : list A) (start end_ : Z) : list A :=
  take (Z.to_nat (end_ - start)) (drop (Z.to_nat start) l).

Definition GetAgentsByCreator (i : AgentIndexer DB) (creator : Felt)
    (start limit : Z) : outcome (option AgentsByCreatorResult) * list LogRecord :=
  let agents := GetAddressesByCreator (db i) (Felt_Bytes creator) in
  if Z.of_nat (length agents) <=? start then (Returns None, [])
  else
    let end_ := u64 (start + limit) in
    let end_ := if Z.of_nat (length agents) <? end_
                then Z.of_nat (length agents) else end_ in
    (* [make([]AgentInfo, end-start)] and [agents[start:end]] panic when the
       sum above wrapped below [start] *)
    if end_ <? start then (Panics, [])
    else
      let fetched := map (GetAgentInfo (db i)) (slice agents start end_) in
      (Returns (Some (mkAgentsByCreatorResult
                        (map fst fetched)
                        (Z.of_nat (length agents))
                        (GetLastIndexedBlock (db i)))),
       flat_map (fun r : AgentInfo * bool =>
                   if snd r then [] else [slog_Error "agent not found"])
                fetched).

Definition fetchAgentInfo (i : AgentIndexer DB) (addr : Felt)
  : list RpcCall * outcome (AgentInfo * option error) :=
  let '(calls1, isAgentRegisteredResp, err) :=
    ProviderWrapper_Do (client i)
      (mkFunctionCall (registryAddress i) isAgentRegisteredSelector [addr])
      "latest" in
  match err with
  | Some err =>
      (calls1, Returns (AgentInfo_zero,
                        Some ("is_agent_registered call failed: " +:+ err)))
  | None =>
  match isAgentRegisteredResp with
  | [] => (calls1, Panics)
  | registered :: _ =>
  match Felt_Cmp registered 1 with
  | Lt | Gt => (calls1, Returns (AgentInfo_zero, Some "agent not registered"))
  | Eq =>
  let '(calls2, nameResp, err) :=
    ProviderWrapper_Do (client i) (mkFunctionCall addr getNameSelector [])
      "latest" in
  match err with
  | Some err =>
      (calls1 ++ calls2,
       Returns (AgentInfo_zero, Some ("get_name call failed: " +:+ err)))
  | None =>
  match ByteArrFeltToString nameResp with
  | inr err =>
      (calls1 ++ calls2,
       Returns (AgentInfo_zero, Some ("parse get_name failed: " +:+ err)))
  | inl name =>
  let '(calls3, getSystemPromptResp, err) :=
    ProviderWrapper_Do (client i)
      (mkFunctionCall addr getSystemPromptSelector []) "latest" in
  match err with
  | Some err =>
      (calls1 ++ calls2 ++ calls3,
       Returns (AgentInfo_zero, Some ("system_prompt call failed: " +:+ err)))
  | None =>
  match ByteArrFeltToString getSystemPromptResp with
  | inr err =>
      (calls1 ++ calls2 ++ calls3,
       Returns (AgentInfo_zero, Some ("parse system_prompt failed: " +:+ err)))
  | inl systemPrompt =>
      (calls1 ++ calls2 ++ calls3,
       Returns (mkAgentInfo (Some addr) None name systemPrompt None None 0,
                None))
  end end end end end end end.

Definition GetOrFetchAgentInfo (i : AgentIndexer DB) (addr : Felt) (block : Z)
  : list RpcCall * outcome (AgentInfo * option error) :=
  let '(info, ok) := GetAgentInfo (db i) (Felt_Bytes addr) in
  if negb ok then
    if block <=? GetLastIndexedBlock (db i)
    then ([], Returns (AgentInfo_zero, Some "agent not found"))
    else
      match fetchAgentInfo i addr with
      | (calls, Returns (info, Some err)) =>
          (calls, Returns (AgentInfo_zero, Some err))
      | (calls, Returns (info, None)) => (calls, Returns (info, None))
      | (calls, Panics) => (calls, Panics)
      end
  else ([], Returns (info, None)).

(** the three reads of [fetchAgentInfo] *)
Definition isAgentRegisteredCall (i : AgentIndexer DB) (addr : Felt) : FunctionCall :=
  mkFunctionCall (registryAddress i) isAgentRegisteredSelector [addr].

Definition getNameCall (addr : Felt) : FunctionCall :=
  mkFunctionCall addr getNameSelector [].

Definition getSystemPromptCall (addr : Felt) : FunctionCall :=
  mkFunctionCall addr getSystemPromptSelector [].

(** a fetched-but-not-indexed agent: only the address, the name and the
    system prompt are populated *)
Definition partialAgentInfo (addr : Felt) (name systemPrompt : string) : AgentInfo :=
  mkAgentInfo (Some addr) None name systemPrompt None None 0.

Definition AgentIndexer_GetLastIndexedBlock (i : AgentIndexer DB) : Z :=
  GetLastIndexedBlock (db i).

End AgentIndexerCode.

(** Modelled from the spec: [AgentIndexerDatabaseInMemory] of
    agent_indexer_db.go, whose code is not among the files embedded here.
    The spec has an agent created on [AgentRegistered] and immutable thereafter, and
    a creator index that lists a creator's agents in registration order. *)
Record AgentIndexerDatabaseInMemory : Type := mkAgentDb {
  agents : gmap Z AgentInfo;
  agentsByCreator : gmap Z (list Bytes32);
  agentDb_lastIndexedBlock : Z
}.

Abbreviation AgentDb := AgentIndexerDatabaseInMemory.

Definition NewAgentIndexerDatabaseInMemory (initialBlock : Z) : AgentDb :=
  mkAgentDb ∅ ∅ initialBlock.

Definition AgentDb_GetAgentInfo (d : AgentDb) (addr : Bytes32) : AgentInfo * bool :=
  match agents d !! addr with
  | Some info => (info, true)
  | None => (AgentInfo_zero, false)
  end.

Definition AgentDb_GetAddressesByCreator (d : AgentDb) (creator : Bytes32)
  : list Bytes32 :=
  default [] (agentsByCreator d !! creator).

Definition AgentDb_SetAgentInfo (d : AgentDb) (addr : Bytes32) (info : AgentInfo)
  : AgentDb :=
  match agents d !! addr with
  | Some _ => d
  | None =>
      mkAgentDb (<[addr := info]> (agents d))
        (match Creator info with
         | Some creator =>
             <[Felt_Bytes creator :=
                 AgentDb_GetAddressesByCreator d (Felt_Bytes creator) ++ [addr]]>
               (agentsByCreator d)
         | None => agentsByCreator d
         end)
        (agentDb_lastIndexedBlock d)
  end.

#[export] Instance AgentIndexerDatabaseInMemory_db : AgentIndexerDatabase AgentDb := {
  GetAgentInfo := AgentDb_GetAgentInfo;
  GetAddressesByCreator := AgentDb_GetAddressesByCreator;
  GetLastIndexedBlock := agentDb_lastIndexedBlock;
  SetAgentInfo := AgentDb_SetAgentInfo;
  SetLastIndexedBlock := fun d block => mkAgentDb (agents d) (agentsByCreator d) block
}.

(** ** Token projection: the token indexer *)

Record TokenInfo : Type := mkTokenInfo {
  MinPromptPrice : option Z;
  MinInitialBalance : option Z;
  Rate : option Z;
  RateTime : Z
}.

(** [time.Time.IsZero] *)
Definition Time_IsZero (t : Z) : bool := t =? 0.

(** The Go interface [TokenIndexerDatabase]: [GetTokenInfo] returns a
    pointer, which may be nil, and the found flag; [GetTokens] returns a
    map of such pointers; [SetTokenInfo] takes a pointer, which
    [onTokenRemoved] passes as nil. *)
Class TokenIndexerDatabase (DB : Type) : Type := {
  GetTokenInfo : DB -> Bytes32 -> option TokenInfo * bool;
  GetTokens : DB -> gmap Z (option TokenInfo);
  SetTokenInfo : DB -> Bytes32 -> option TokenInfo -> DB;
  Token_GetLastIndexedBlock : DB -> Z;
  Token_SetLastIndexedBlock : DB -> Z -> DB
}.

Record TokenIndexer (DB : Type) : Type := mkTokenIndexer {
  token_db : DB;
  token_registryAddress : Felt
}.

Arguments mkTokenIndexer {DB} _ _.
Arguments token_db {DB} _.
Arguments token_registryAddress {DB} _.

Section TokenIndexerCode.
Context {DB : Type} {Hdb : TokenIndexerDatabase DB} {decode : EventDecoder}.

Definition onTokenAdded (i : TokenIndexer DB) (ev : Event)
  : TokenIndexer DB * list LogRecord :=
  match Felt_Cmp (Raw_FromAddress ev) (token_registryAddress i) with
  | Eq =>
      match ToTokenAddedEvent ev with
      | None => (i, [slog_Error "failed to parse token added event"])
      | Some tokenAddedEv =>
          (mkTokenIndexer
             (SetTokenInfo (token_db i)
                (Felt_Bytes (TokenAdded_Token tokenAddedEv))
                (Some (mkTokenInfo
                         (Some (TokenAdded_MinPromptPrice tokenAddedEv))
                         (Some (TokenAdded_MinInitialBalance tokenAddedEv))
                         None 0)))
             (token_registryAddress i),
           [])
      end
  | _ =>
      (i, [slog_Warn "ignoring token added event from non-registry address"])
  end.

Definition onTokenRemoved (i : TokenIndexer DB) (ev : Event)
  : TokenIndexer DB * list LogRecord :=
  match Felt_Cmp (Raw_FromAddress ev) (token_registryAddress i) with
  | Eq =>
      match ToTokenRemovedEvent ev with
      | None => (i, [slog_Error "failed to parse token removed event"])
      | Some tokenRemovedEv =>
          (mkTokenIndexer
             (SetTokenInfo (token_db i)
                (Felt_Bytes (TokenRemoved_Token tokenRemovedEv)) None)
             (token_registryAddress i),
           [])
      end
  | _ =>
      (i, [slog_Warn "ignoring token removed event from non-registry address"])
  end.

(** the [switch ev.Type] of [run] *)
Definition TokenIndexer_applyEvent (i : TokenIndexer DB) (ev : Event)
  : TokenIndexer DB * list LogRecord :=
  match Type_ ev with
  | EventTokenAdded => onTokenAdded i ev
  | EventTokenRemoved => onTokenRemoved i ev
  | _ => (i, [])
  end.

(** one pass of the loop body of [updatePricesTask] for a token whose rate
    the price feed returned *)
Definition storeRate (now : Z) (i : TokenIndexer DB) (token : Bytes32)
    (info : TokenInfo) (price : Z) : TokenIndexer DB :=
  mkTokenIndexer
    (SetTokenInfo (token_db i) token
       (Some (mkTokenInfo (MinPromptPrice info) (MinInitialBalance info)
                          (Some price) now)))
    (token_registryAddress i).

Definition GetTokenMinPromptPrice (i : TokenIndexer DB) (token : Felt)
  : outcome (option Z * bool) :=
  let '(tokenInfo, ok) := GetTokenInfo (token_db i) (Felt_Bytes token) in
  if negb ok then Returns (None, false)
  else match tokenInfo with
       | None => Panics
       | Some tokenInfo => Returns (MinPromptPrice tokenInfo, true)
       end.

Definition GetTokenRate (i : TokenIndexer DB) (token : Felt)
  : outcome (option Z * bool) :=
  let '(tokenInfo, ok) := GetTokenInfo (token_db i) (Felt_Bytes token) in
  if negb ok then Returns (None, false)
  else match tokenInfo with
       | None => Panics
       | Some tokenInfo =>
           if Time_IsZero (RateTime tokenInfo) then Returns (None, false)
           else Returns (Rate tokenInfo, true)
       end.

End TokenIndexerCode.

(** Modelled from the spec: [TokenIndexerDatabaseInMemory] of
    token_indexer_db.go, whose code is not among the files embedded here.
    A non-nil info is stored as given.  For the nil info of a removal the spec
    says: the entry is set to a sentinel with [minPromptPrice = 0] and the
    last-known rate is preserved; the sentinel written here keeps every
    other field of the entry it replaces, and is all zero when there was no
    entry. *)
Record TokenIndexerDatabaseInMemory : Type := mkTokenDb {
  tokens : gmap Z TokenInfo;
  tokenDb_lastIndexedBlock : Z
}.

Abbreviation TokenDb := TokenIndexerDatabaseInMemory.

Definition NewTokenIndexerDatabaseInMemory (initialBlock : Z) : TokenDb :=
  mkTokenDb ∅ initialBlock.

Definition TokenDb_GetTokenInfo (d : TokenDb) (token : Bytes32)
  : option TokenInfo * bool :=
  match tokens d !! token with
  | Some info => (Some info, true)
  | None => (None, false)
  end.

Definition removedSentinel (old : option TokenInfo) : TokenInfo :=
  match old with
  | Some info =>
      mkTokenInfo (Some 0) (MinInitialBalance info) (Rate info) (RateTime info)
  | None => mkTokenInfo (Some 0) None None 0
  end.

Definition TokenDb_SetTokenInfo (d : TokenDb) (token : Bytes32)
    (info : option TokenInfo) : TokenDb :=
  match info with
  | Some info => mkTokenDb (<[token := info]> (tokens d)) (tokenDb_lastIndexedBlock d)
  | None =>
      mkTokenDb (<[token := removedSentinel (tokens d !! token)]> (tokens d))
        (tokenDb_lastIndexedBlock d)
  end.

#[export] Instance TokenIndexerDatabaseInMemory_db : TokenIndexerDatabase TokenDb := {
  GetTokenInfo := TokenDb_GetTokenInfo;
  GetTokens := fun d => Some <$> tokens d;
  SetTokenInfo := TokenDb_SetTokenInfo;
  Token_GetLastIndexedBlock := tokenDb_lastIndexedBlock;
  Token_SetLastIndexedBlock := fun d block => mkTokenDb (tokens d) block
}.

(** ** The part of [ui_service] that serialises an agent's prompt price *)

(** [String] of [big.Int]: a nil receiver prints as the text <nil> *)
Definition big_Int_String (x : option Z) : string :=
  match x with
  | None => "<nil>"
  | Some z => pretty z
  end.

(** the [PromptPrice] field of the [AgentData] that
    [agentDataFromAgentInfo] builds *)
Definition agentData_PromptPrice (info : AgentInfo) : string :=
  big_Int_String (PromptPrice info).

(** ** The two projections side by side *)

Record Projections : Type := mkProjections {
  agentIndexer : AgentIndexer AgentDb;
  usageDb : UsageDb
}.

Inductive SystemOp : Type :=
| SysAgentRegistered (ev : Event)
| SysUsage (op : UsageOp).

Definition applySystemOp {decode : EventDecoder} (s : Projections) (op : SystemOp)
  : Projections :=
  match op with
  | SysAgentRegistered ev =>
      mkProjections (fst (onAgentRegistered (agentIndexer s) ev)) (usageDb s)
  | SysUsage op => mkProjections (agentIndexer s) (applyUsageOp (usageDb s) op)
  end.

Definition runSystem {decode : EventDecoder} (s : Projections) (ops : list SystemOp)
  : Projections :=
  fold_left applySystemOp ops s.

(** an [AgentRegistered] for [addr], emitted by the registry, is among [ops] *)
Definition registrationObserved {decode : EventDecoder} (registry : Felt)
    (addr : Bytes32) (ops : list SystemOp) : Prop :=
  exists ev agentRegisteredEv,
    In (SysAgentRegistered ev) ops /\
    Raw_FromAddress ev = registry /\
    ToAgentRegisteredEvent ev = Some agentRegisteredEv /\
    Felt_Bytes (AgentRegistered_Agent agentRegisteredEv) = addr.

(** "Registration precedes usage" *)
Definition registrationPrecedesUsage {decode : EventDecoder} (registry : Felt)
    (ops : list SystemOp) (s : Projections) : Prop :=
  forall addr : Bytes32,
    is_Some (GetAgentUsage (usageDb s) addr) ->
    snd (AgentIndexer_GetAgentInfo (agentIndexer s) addr) = true \/
    registrationObserved registry addr ops.

(** ** Vocabulary of the statements *)


(** the data a consumption finds in the prompt cache, empty on a miss *)
Definition cachedPromptData (now : Z) (db : UsageDb) (addr : Bytes32)
    (ev : PromptConsumedEvent) : PromptCacheData :=
  default (mkCacheData 0 EmptyString)
    (LRU.Peek now (promptCacheKey addr (PromptConsumed_PromptID ev))
       (promptCache db)).

(** the entry a consumption appends to [LatestPrompts] *)
Definition consumedEntry (now : Z) (db : UsageDb) (addr : Bytes32)
    (ev : PromptConsumedEvent) : AgentUsageLatestPrompt :=
  let succeeded :=
    negb (bool_decide (Felt_Bytes (PromptConsumed_DrainedTo ev) = addr)) in
  mkLatestPrompt (PromptConsumed_PromptID ev)
    (Cache_TweetID (cachedPromptData now db addr ev))
    (Cache_Prompt (cachedPromptData now db addr ev))
    succeeded
    (if succeeded then PromptConsumed_DrainedTo ev else Felt_zero).

(** Reachable states of the usage database keep at most [maxPrompts]
    prompts per agent. *)
Definition promptsBounded (db : UsageDb) : Prop :=
  forall addr usage,
    usages db !! addr = Some usage ->
    Z.of_nat (length (LatestPrompts usage)) <= maxPrompts db.


Definition is_bytes32 (z : Z) : Prop := 0 <= z < 2 ^ 256.

(** the prompt whose cache entry an operation writes or takes *)
Definition opPrompt (op : UsageOp) : option (Bytes32 * Z) :=
  match op with
  | OpStorePromptPaidData _ addr ev => Some (addr, PromptPaid_PromptID ev)
  | OpStorePromptConsumedData _ addr ev => Some (addr, PromptConsumed_PromptID ev)
  | _ => None
  end.

Definition isPaid (op : UsageOp) : bool :=
  match op with
  | OpStorePromptPaidData _ _ _ => true
  | _ => false
  end.

Definition paidCount (ops : list UsageOp) : nat := length (List.filter isPaid ops).

(** [op] leaves alone the cache entry of prompt [p] of agent [addr] that is
    due at [deadline]: it is about another prompt, or a sweep before the
    deadline has passed *)
Definition leavesAlone (addr : Bytes32) (p deadline : Z) (op : UsageOp) : Prop :=
  match op with
  | OpSweepPromptCache now => now <= deadline
  | _ =>
      match opPrompt op with
      | Some (a, q) => is_bytes32 a /\ 0 <= q /\ (a, q) <> (addr, p)
      | None => True
      end
  end.

(** the operation carries a 32-byte address and a non-negative prompt id *)
Definition wfOp (op : UsageOp) : Prop :=
  match opPrompt op with
  | Some (a, q) => is_bytes32 a /\ 0 <= q
  | None => True
  end.

(** the usage operations among the operations on the two projections *)
Definition usageOpsOf (ops : list SystemOp) : list UsageOp :=
  flat_map (fun op => match op with SysUsage u => [u] | _ => [] end) ops.

(** ** Concrete data for the runs below *)

Module Example.

Definition registry : Felt := 4096.
Definition agentA1 : Felt := 161.
Definition creatorC1 : Felt := 193.
Definition tokenT1 : Felt := 209.
Definition spoofer : Felt := 57005.

(** characters carried one per felt *)
Definition feltsToString (l : list Felt) : string :=
  fold_right (fun z s => String (Ascii.ascii_of_N (Z.to_N z)) s) EmptyString l.

(** a plain payload layout: addresses in the keys, numbers then the
    characters of the name in the data *)
#[export] Instance decoder : EventDecoder := {
  ToAgentRegisteredEvent ev :=
    match Type_ ev, Raw_Keys ev, Raw_Data ev with
    | EventAgentRegistered, [agent; creator], price :: token :: endTime :: name =>
        Some (mkAgentRegistered agent creator (feltsToString name) EmptyString
                price token endTime)
    | _, _, _ => None
    end;
  ToTokenAddedEvent ev :=
    match Type_ ev, Raw_Keys ev, Raw_Data ev with
    | EventTokenAdded, [token], [minPromptPrice; minInitialBalance] =>
        Some (mkTokenAdded token minPromptPrice minInitialBalance)
    | _, _, _ => None
    end;
  ToTokenRemovedEvent ev :=
    match Type_ ev, Raw_Keys ev with
    | EventTokenRemoved, [token] => Some (mkTokenRemoved token)
    | _, _ => None
    end
}.

#[export] Instance utils : StarknetUtils := {
  GetSelectorFromNameFelt name := Z.of_nat (String.length name);
  ByteArrFeltToString resp :=
    match resp with
    | [] => inr "empty byte array"
    | _ :: chars => inl (feltsToString chars)
    end
}.

(** a node that knows the agent [agentA1], named "alice" *)
Definition node : RpcProvider :=
  fun fc tag =>
    if bool_decide (tag = "latest") then
      if EntryPointSelector fc =? 19 then
        inl [if bool_decide (Calldata fc = [agentA1]) then 1 else 0]
      else if EntryPointSelector fc =? 8 then inl [5; 97; 108; 105; 99; 101]
      else if EntryPointSelector fc =? 17 then inl [2; 104; 105]
      else inr "entry point not found"
    else inr "unknown block".

(** a node that is down *)
Definition deadNode : RpcProvider := fun _ _ => inr "connection refused".

Definition agentRegistered (from : Felt) : Event :=
  mkEvent EventAgentRegistered from [agentA1; creatorC1]
    [100; tokenT1; 2000; 97; 108; 105; 99; 101].

Definition tokenAdded (from : Felt) : Event :=
  mkEvent EventTokenAdded from [tokenT1] [10; 1000].

Definition tokenRemoved (from : Felt) : Event :=
  mkEvent EventTokenRemoved from [tokenT1] [].

Definition agentIndexer0 : AgentIndexer AgentDb :=
  mkAgentIndexer (NewAgentIndexerDatabaseInMemory 9) registry [deadNode; node].

Definition tokenIndexer0 : TokenIndexer TokenDb :=
  mkTokenIndexer (NewTokenIndexerDatabaseInMemory 9) registry.

Definition usageDb0 : UsageDb := NewAgentUsageIndexerDatabaseInMemory 9 3.

Definition projections0 : Projections := mkProjections agentIndexer0 usageDb0.

(** the token indexer after [tokenT1] was added and its rate refreshed *)
Definition tokenIndexer1 : TokenIndexer TokenDb :=
  storeRate 1700000000 (fst (onTokenAdded tokenIndexer0 (tokenAdded registry)))
    (Felt_Bytes tokenT1) (mkTokenInfo (Some 10) (Some 1000) None 0)
    2000000000000000000.

End Example.

(** * More of the indexer code *)

(** the Stark field prime, and [felt.Felt.SetBytes]: the big-endian value
    of the bytes, reduced into the field *)
Definition Felt_P : Z := 2 ^ 251 + 17 * 2 ^ 192 + 1.

Definition Felt_SetBytes (b : Bytes32) : Felt := b mod Felt_P.

(** [price.PriceFeed.GetRate]: a rate (a pointer, possibly nil) and an error *)
Definition PriceFeed : Type := Felt -> option Z * option error.

Section MoreTokenIndexerCode.
Context {DB : Type} {Hdb : TokenIndexerDatabase DB} {decode : EventDecoder}.

Definition GetTokenMinInitialBalance (i : TokenIndexer DB) (token : Felt)
  : outcome (option Z * bool) :=
  let '(tokenInfo, ok) := GetTokenInfo (token_db i) (Felt_Bytes token) in
  if negb ok then Returns (None, false)
  else match tokenInfo with
       | None => Panics
       | Some tokenInfo => Returns (MinInitialBalance tokenInfo, true)
       end.

Definition TokenIndexer_GetLastIndexedBlock (i : TokenIndexer DB) : Z :=
  Token_GetLastIndexedBlock (token_db i).

(** one batch of the token indexer's [run]: every event of the batch
    through the [switch], then the watermark *)
Definition TokenIndexer_applyBatch (i : TokenIndexer DB) (events : list Event)
    (toBlock : Z) : TokenIndexer DB * list LogRecord :=
  let '(i, logs) :=
    fold_left (fun '(i, logs) ev =>
                 let '(i', l) := TokenIndexer_applyEvent i ev in (i', logs ++ l))
              events (i, []) in
  (mkTokenIndexer (Token_SetLastIndexedBlock (token_db i) toBlock)
     (token_registryAddress i), logs).

(** One round of the first loop of a tick of [updatePricesTask], for the
    key [tokenBytes] of the snapshot [tokens] that [GetTokens] returned.  A
    failed feed call is logged and the round ends there ([continue]);
    otherwise the rate and the instant are written through the pointer the
    snapshot holds for the key, which aborts the tick when that pointer is
    nil. *)
Definition updatePrices_fetchOne (priceFeed : PriceFeed) (clock : Bytes32 -> Z)
    (acc : outcome (gmap Z (option TokenInfo) * list LogRecord))
    (tokenBytes : Bytes32)
  : outcome (gmap Z (option TokenInfo) * list LogRecord) :=
  match acc with
  | Panics => Panics
  | Returns (tokens, logs) =>
      match tokens !! tokenBytes with
      | None => Returns (tokens, logs)
      | Some pointer =>
          match priceFeed (Felt_SetBytes tokenBytes) with
          | (_, Some err) =>
              Returns (tokens, logs ++ [slog_Error "failed to get token price"])
          | (price, None) =>
              match pointer with
              | None => Panics
              | Some info =>
                  Returns (<[tokenBytes := Some (mkTokenInfo (MinPromptPrice info)
                                                   (MinInitialBalance info) price
                                                   (clock tokenBytes))]> tokens,
                           logs)
              end
          end
      end
  end.

(** The first loop.  Go ranges over a map in an order of its choosing:
    [order] is that order; [clock] is the instant [time.Now] returns when a
    token's rate is stored.  The loop writes through the pointers of the
    snapshot and the second loop stores every pointer of the snapshot back,
    so that the infos the database holds once the tick is over are those
    computed here, whether or not the snapshot shares them with the
    database. *)
Definition updatePrices_fetch (priceFeed : PriceFeed) (clock : Bytes32 -> Z)
    (tokens : gmap Z (option TokenInfo)) (order : list Bytes32)
  : outcome (gmap Z (option TokenInfo) * list LogRecord) :=
  fold_left (updatePrices_fetchOne priceFeed clock) order (Returns (tokens, [])).

(** the second loop: every pointer of the snapshot is written back *)
Definition updatePrices_commit (i : TokenIndexer DB)
    (tokens : gmap Z (option TokenInfo)) (order : list Bytes32) : TokenIndexer DB :=
  fold_left
    (fun i tokenBytes =>
       match tokens !! tokenBytes with
       | None => i
       | Some info =>
           mkTokenIndexer (SetTokenInfo (token_db i) tokenBytes info)
             (token_registryAddress i)
       end)
    order i.

(** one tick of [updatePricesTask] *)
Definition updatePricesTick (priceFeed : PriceFeed) (clock : Bytes32 -> Z)
    (i : TokenIndexer DB) (fetchOrder commitOrder : list Bytes32)
  : outcome (TokenIndexer DB * list LogRecord) :=
  match updatePrices_fetch priceFeed clock (GetTokens (token_db i)) fetchOrder with
  | Panics => Panics
  | Returns (tokens, logs) =>
      Returns (updatePrices_commit i tokens commitOrder, logs)
  end.

(** what a token event makes the indexer write: the key and the info
    handed to [SetTokenInfo] *)
Definition tokenWriteOf (registry : Felt) (ev : Event)
  : option (Bytes32 * option TokenInfo) :=
  match Felt_Cmp (Raw_FromAddress ev) registry with
  | Eq =>
      match Type_ ev with
      | EventTokenAdded =>
          match ToTokenAddedEvent ev with
          | Some added =>
              Some (Felt_Bytes (TokenAdded_Token added),
                    Some (mkTokenInfo (Some (TokenAdded_MinPromptPrice added))
                            (Some (TokenAdded_MinInitialBalance added)) None 0))
          | None => None
          end
      | EventTokenRemoved =>
          match ToTokenRemovedEvent ev with
          | Some removed => Some (Felt_Bytes (TokenRemoved_Token removed), None)
          | None => None
          end
      | _ => None
      end
  | _ => None
  end.

End MoreTokenIndexerCode.

Section MoreAgentIndexerCode.
Context {decode : EventDecoder}.

(** what an [AgentRegistered] event makes the indexer write: the key and
    the info handed to [SetAgentInfo] *)
Definition registrationOf (registry : Felt) (ev : Event)
  : option (Bytes32 * AgentInfo) :=
  match Felt_Cmp (Raw_FromAddress ev) registry with
  | Eq =>
      match ToAgentRegisteredEvent ev with
      | Some registered =>
          Some (Felt_Bytes (AgentRegistered_Agent registered),
                mkAgentInfo (Some (AgentRegistered_Agent registered))
                  (Some (AgentRegistered_Creator registered))
                  (AgentRegistered_Name registered)
                  (AgentRegistered_SystemPrompt registered)
                  (Some (AgentRegistered_PromptPrice registered))
                  (Some (AgentRegistered_TokenAddress registered))
                  (AgentRegistered_EndTime registered))
      | None => None
      end
  | _ => None
  end.

End MoreAgentIndexerCode.

Section BatchVocabulary.
Context {decode : EventDecoder}.

(** what [onAgentRegistered] logs for an event *)
Definition registrationLog (registry : Felt) (ev : Event) : list LogRecord :=
  match Felt_Cmp (Raw_FromAddress ev) registry with
  | Eq =>
      match ToAgentRegisteredEvent ev with
      | Some _ => []
      | None => [slog_Error "failed to parse agent registered event"]
      end
  | _ => [slog_Warn "received agent registered event from non-registry address"]
  end.

(** what the token indexer logs for an event *)
Definition tokenEventLog (registry : Felt) (ev : Event) : list LogRecord :=
  match Type_ ev with
  | EventTokenAdded =>
      match Felt_Cmp (Raw_FromAddress ev) registry with
      | Eq =>
          match ToTokenAddedEvent ev with
          | Some _ => []
          | None => [slog_Error "failed to parse token added event"]
          end
      | _ => [slog_Warn "ignoring token added event from non-registry address"]
      end
  | EventTokenRemoved =>
      match Felt_Cmp (Raw_FromAddress ev) registry with
      | Eq =>
          match ToTokenRemovedEvent ev with
          | Some _ => []
          | None => [slog_Error "failed to parse token removed event"]
          end
      | _ => [slog_Warn "ignoring token removed event from non-registry address"]
      end
  | _ => []
  end.

End BatchVocabulary.

(** a token database that returns what was stored: after [SetTokenInfo]
    with a non-nil info, [GetTokenInfo] finds that info under the key
    written and answers as before under every other key *)
Definition TokenDbStores (DB : Type) {Hdb : TokenIndexerDatabase DB} : Prop :=
  forall (d : DB) (t t' : Bytes32) (info : TokenInfo),
    GetTokenInfo (SetTokenInfo d t (Some info)) t'
    = if bool_decide (t = t') then (Some info, true) else GetTokenInfo d t'.

(** what a tick of [updatePricesTask] makes of a token's info *)
Definition refreshedInfo (priceFeed : PriceFeed) (clock : Bytes32 -> Z)
    (tokenBytes : Bytes32) (info : TokenInfo) : TokenInfo :=
  match priceFeed (Felt_SetBytes tokenBytes) with
  | (_, Some _) => info
  | (price, None) =>
      mkTokenInfo (MinPromptPrice info) (MinInitialBalance info) price
        (clock tokenBytes)
  end.

(** a run of [Add]s: each an instant, a key and a value *)
Definition LRU_addAll {V : Type} (adds : list (Z * string * V)) (c : LRU.t V)
  : LRU.t V :=
  fold_left (fun c a => LRU.Add (fst (fst a)) (snd (fst a)) (snd a) c) adds c.

(** the payments of a run, each at its own instant for its own agent *)
Definition payments (paid : list (Z * Bytes32 * PromptPaidEvent)) : list UsageOp :=
  map (fun e => OpStorePromptPaidData (fst (fst e)) (snd (fst e)) (snd e)) paid.

(** the number of consumptions for [addr] among [ops] *)
Definition consumedCount (addr : Bytes32) (ops : list UsageOp) : nat :=
  length (List.filter
            (fun op => match op with
                       | OpStorePromptConsumedData _ a _ => bool_decide (a = addr)
                       | _ => false
                       end) ops).

(** * The contracts the indexer follows: [AgentRegistry] and [Agent]

    The Cairo contracts, with a transaction as a function to [tx]: a
    transaction that panics (a failed [assert], a checked arithmetic
    overflow, a failing call into another contract) reverts, leaving no
    change.  The ERC20 token contracts are called through an interface;
    [caller_address], [contract_address] and [block_timestamp] are what
    [get_caller_address], [get_contract_address] and [get_block_timestamp]
    answer during the call. *)

Module Contracts.

Inductive tx (A : Type) : Type :=
| Ok (a : A)
| Revert (reason : string).

Arguments Ok {A} a.
Arguments Revert {A} reason.

#[export] Instance tx_ret : MRet tx := fun A a => Ok a.

#[export] Instance tx_bind : MBind tx :=
  fun A B f m => match m with Ok a => f a | Revert reason => Revert reason end.

Definition assert (cond : bool) (reason : string) : tx unit :=
  if cond then Ok tt else Revert reason.

Definition is_u256 (z : Z) : Prop := 0 <= z < 2 ^ 256.

(** checked arithmetic of [u256] and [u64] *)
Definition u256_mul (a b : Z) : tx Z :=
  if a * b <? 2 ^ 256 then Ok (a * b) else Revert "u256_mul Overflow".

Definition u256_sub (a b : Z) : tx Z :=
  if b <=? a then Ok (a - b) else Revert "u256_sub Overflow".

Definition u64_add (a b : Z) : tx Z :=
  if a + b <? 2 ^ 64 then Ok (a + b) else Revert "u64_add Overflow".

Definition u64_sub (a b : Z) : tx Z :=
  if b <=? a then Ok (a - b) else Revert "u64_sub Overflow".

Record TokenParams : Type := mkTokenParams {
  min_prompt_price : Z;
  min_initial_balance : Z
}.

Record PendingPrompt : Type := mkPendingPrompt {
  reclaimer : Felt;
  amount : Z;
  timestamp : Z
}.

(** what a storage [Map] answers for a key never written *)
Definition noPendingPrompt : PendingPrompt := mkPendingPrompt 0 0 0.

Definition noTokenParams : TokenParams := mkTokenParams 0 0.

(** [IERC20Dispatcher]: the state of the token contracts, and the three
    calls the contracts make; each names the token contract called and the
    contract calling *)
Class ERC20 (L : Type) : Type := {
  erc20_transfer :
    L -> forall (token sender recipient : Felt) (amount : Z), tx (L * bool);
  erc20_transfer_from :
    L -> forall (token spender sender recipient : Felt) (amount : Z), tx (L * bool);
  erc20_balance_of : L -> forall (token account : Felt), Z
}.

Record Env : Type := mkEnv {
  caller_address : Felt;
  contract_address : Felt;
  block_timestamp : Z
}.

Inductive Event : Type :=
| AgentRegistered (agent creator : Felt) (name system_prompt : string)
| TokenAdded (token : Felt) (min_prompt_price min_initial_balance : Z)
| TokenRemoved (token : Felt)
| Paused (account : Felt)
| Unpaused (account : Felt)
| PromptPaid (user : Felt) (prompt_id twitter_message_id amount : Z)
| PromptConsumed (prompt_id amount creator_fee protocol_fee : Z)
| PromptReclaimed (prompt_id amount : Z) (reclaimer : Felt).

(** ** [mod Agent] *)

Module Agent.

Definition PROMPT_REWARD_BPS : Z := 7000.
Definition CREATOR_REWARD_BPS : Z := 2000.
Definition PROTOCOL_FEE_BPS : Z := 1000.
Definition BPS_DENOMINATOR : Z := 10000.
Definition RECLAIM_DELAY : Z := 1800.

Record Storage : Type := mkStorage {
  registry : Felt;
  system_prompt : string;
  name : string;
  token : Felt;
  prompt_price : Z;
  creator : Felt;
  pending_prompts : gmap Z PendingPrompt;
  next_prompt_id : Z
}.

Definition constructor (name : string) (registry : Felt) (system_prompt : string)
    (token : Felt) (prompt_price : Z) (creator : Felt) : Storage :=
  mkStorage registry system_prompt name token prompt_price creator ∅ 1.

Definition get_pending_prompt (s : Storage) (prompt_id : Z) : PendingPrompt :=
  default noPendingPrompt (pending_prompts s !! prompt_id).

Definition get_next_prompt_id (s : Storage) : Z := next_prompt_id s.

Definition get_prompt_count (s : Storage) : tx Z := u64_sub (next_prompt_id s) 1.

Definition write_pending_prompt (s : Storage) (prompt_id : Z) (p : PendingPrompt)
  : Storage :=
  mkStorage (registry s) (system_prompt s) (name s) (token s) (prompt_price s)
    (creator s) (<[prompt_id := p]> (pending_prompts s)) (next_prompt_id s).

Definition write_next_prompt_id (s : Storage) (next : Z) : Storage :=
  mkStorage (registry s) (system_prompt s) (name s) (token s) (prompt_price s)
    (creator s) (pending_prompts s) next.

Section WithToken.
Context {L : Type} {erc20 : ERC20 L}.

Definition transfer (env : Env) (ledger : L) (s : Storage) (recipient : Felt)
  : tx (Storage * L * list Event) :=
  _ ← assert (bool_decide (caller_address env = registry s))
        "Only registry can transfer";
  let balance := erc20_balance_of ledger (token s) (contract_address env) in
  '(ledger, _) ← erc20_transfer ledger (token s) (contract_address env)
                   recipient balance;
  mret (s, ledger, []).

(** [registry_is_paused] is the answer of the registry to [is_paused] *)
Definition pay_for_prompt (env : Env) (registry_is_paused : bool) (ledger : L)
    (s : Storage) (twitter_message_id : Z) : tx (Storage * L * list Event * Z) :=
  _ ← assert (negb registry_is_paused) "Pausable: paused";
  let caller := caller_address env in
  '(ledger, _) ← erc20_transfer_from ledger (token s) (contract_address env)
                   caller (contract_address env) (prompt_price s);
  let prompt_id := next_prompt_id s in
  next ← u64_add prompt_id 1;
  let s := write_next_prompt_id s next in
  let s := write_pending_prompt s prompt_id
             (mkPendingPrompt caller (prompt_price s) (block_timestamp env)) in
  mret (s, ledger,
        [PromptPaid caller prompt_id twitter_message_id (prompt_price s)],
        prompt_id).

Definition reclaim_prompt (env : Env) (ledger : L) (s : Storage) (prompt_id : Z)
  : tx (Storage * L * list Event) :=
  let pending := get_pending_prompt s prompt_id in
  let caller := caller_address env in
  deadline ← u64_add (timestamp pending) RECLAIM_DELAY;
  _ ← assert (deadline <=? block_timestamp env) "Too early to reclaim";
  '(ledger, _) ← erc20_transfer ledger (token s) (contract_address env)
                   (reclaimer pending) (amount pending);
  let s := write_pending_prompt s prompt_id noPendingPrompt in
  mret (s, ledger, [PromptReclaimed prompt_id (amount pending) caller]).

Definition consume_prompt (env : Env) (ledger : L) (s : Storage) (prompt_id : Z)
  : tx (Storage * L * list Event) :=
  _ ← assert (bool_decide (caller_address env = registry s))
        "Only registry can consume";
  let pending := get_pending_prompt s prompt_id in
  _ ← assert (negb (bool_decide (reclaimer pending = 0))) "No pending prompt";
  let amount := amount pending in
  creator_share ← u256_mul amount CREATOR_REWARD_BPS;
  let creator_fee := creator_share / BPS_DENOMINATOR in
  protocol_share ← u256_mul amount PROTOCOL_FEE_BPS;
  let protocol_fee := protocol_share / BPS_DENOMINATOR in
  rest ← u256_sub amount creator_fee;
  agent_amount ← u256_sub rest protocol_fee;
  '(ledger, _) ← erc20_transfer ledger (token s) (contract_address env)
                   (creator s) creator_fee;
  '(ledger, _) ← erc20_transfer ledger (token s) (contract_address env)
                   (registry s) protocol_fee;
  let s := write_pending_prompt s prompt_id noPendingPrompt in
  mret (s, ledger,
        [PromptConsumed prompt_id agent_amount creator_fee protocol_fee]).

(** the calls into an agent, and a run of them: a call that reverts
    changes nothing.  Between two calls into the agent the token contracts
    serve others: [TokenActivity] leaves the tokens in any state *)
Inductive Call : Type :=
| CallTransfer (env : Env) (recipient : Felt)
| CallPayForPrompt (env : Env) (registry_is_paused : bool) (twitter_message_id : Z)
| CallReclaimPrompt (env : Env) (prompt_id : Z)
| CallConsumePrompt (env : Env) (prompt_id : Z)
| TokenActivity (ledger : L).

Definition call (st : Storage * L) (c : Call) : tx (Storage * L * list Event) :=
  match c with
  | CallTransfer env recipient => transfer env (snd st) (fst st) recipient
  | CallPayForPrompt env registry_is_paused twitter_message_id =>
      '(s, ledger, events, _) ←
        pay_for_prompt env registry_is_paused (snd st) (fst st) twitter_message_id;
      mret (s, ledger, events)
  | CallReclaimPrompt env prompt_id => reclaim_prompt env (snd st) (fst st) prompt_id
  | CallConsumePrompt env prompt_id => consume_prompt env (snd st) (fst st) prompt_id
  | TokenActivity ledger => mret (fst st, ledger, [])
  end.

Definition step (st : Storage * L) (c : Call) : Storage * L :=
  match call st c with
  | Ok (s, ledger, _) => (s, ledger)
  | Revert _ => st
  end.

Definition run (st : Storage * L) (calls : list Call) : Storage * L :=
  fold_left step calls st.

End WithToken.

(** no prompt is pending under an id not yet issued *)
Definition idsFresh (s : Storage) : Prop :=
  forall id, next_prompt_id s <= id -> get_pending_prompt s id = noPendingPrompt.

End Agent.

(** ** [mod AgentRegistry] *)

Module AgentRegistry.

Record Storage : Type := mkStorage {
  owner : Felt;
  paused : bool;
  agent_class_hash : Felt;
  agent_registered : gmap Z bool;
  agents : list Felt;
  tee : Felt;
  token_params : gmap Z TokenParams
}.

Definition constructor (owner tee agent_class_hash : Felt) : Storage :=
  mkStorage owner false agent_class_hash ∅ [] tee ∅.

(** [OwnableComponent.assert_only_owner] and [PausableComponent] of
    OpenZeppelin, as far as the registry uses them *)
Definition assert_only_owner (env : Env) (s : Storage) : tx unit :=
  assert (bool_decide (caller_address env = owner s)) "Caller is not the owner".

Definition assert_not_paused (s : Storage) : tx unit :=
  assert (negb (paused s)) "Pausable: paused".

Definition assert_paused (s : Storage) : tx unit :=
  assert (paused s) "Pausable: not paused".

Definition write_paused (s : Storage) (p : bool) : Storage :=
  mkStorage (owner s) p (agent_class_hash s) (agent_registered s) (agents s)
    (tee s) (token_params s).

Definition write_token_params (s : Storage) (token : Felt) (p : TokenParams)
  : Storage :=
  mkStorage (owner s) (paused s) (agent_class_hash s) (agent_registered s)
    (agents s) (tee s) (<[token := p]> (token_params s)).

Definition get_token_params (s : Storage) (token : Felt) : TokenParams :=
  default noTokenParams (token_params s !! token).

Definition is_token_supported (s : Storage) (token : Felt) : bool :=
  negb (min_prompt_price (get_token_params s token) =? 0).

Definition is_agent_registered (s : Storage) (address : Felt) : bool :=
  default false (agent_registered s !! address).

Definition get_agents (s : Storage) : list Felt := agents s.

Definition get_tee (s : Storage) : Felt := tee s.

Definition is_paused (s : Storage) : bool := paused s.

Definition pause (env : Env) (s : Storage) : tx (Storage * list Event) :=
  _ ← assert_only_owner env s;
  _ ← assert_not_paused s;
  mret (write_paused s true, [Paused (caller_address env)]).

Definition unpause (env : Env) (s : Storage) : tx (Storage * list Event) :=
  _ ← assert_only_owner env s;
  _ ← assert_paused s;
  mret (write_paused s false, [Unpaused (caller_address env)]).

Definition add_supported_token (env : Env) (s : Storage) (token : Felt)
    (min_prompt_price min_initial_balance : Z) : tx (Storage * list Event) :=
  _ ← assert_only_owner env s;
  mret (write_token_params s token
          (mkTokenParams min_prompt_price min_initial_balance),
        [TokenAdded token min_prompt_price min_initial_balance]).

Definition remove_supported_token (env : Env) (s : Storage) (token : Felt)
  : tx (Storage * list Event) :=
  _ ← assert_only_owner env s;
  mret (write_token_params s token (mkTokenParams 0 0), [TokenRemoved token]).

(** the registry, the agents it has deployed and the tokens *)
Record World (L : Type) : Type := mkWorld {
  registry : Storage;
  deployed : gmap Z Agent.Storage;
  ledger : L
}.

Arguments mkWorld {L} _ _ _.
Arguments registry {L} _.
Arguments deployed {L} _.
Arguments ledger {L} _.

Section WithToken.
Context {L : Type} {erc20 : ERC20 L}.

(** [deploy_syscall]: the address at which the class is deployed with this
    constructor calldata, or a failure *)
Context (deploy_syscall :
           forall (class_hash : Felt) (name : string) (registry : Felt)
                  (system_prompt : string) (token : Felt) (prompt_price : Z)
                  (creator : Felt), tx Felt).

Definition register_agent (env : Env) (w : World L) (name system_prompt : string)
    (token : Felt) (prompt_price initial_balance : Z)
  : tx (World L * list Event * Felt) :=
  let s := registry w in
  _ ← assert_not_paused s;
  let params := get_token_params s token in
  _ ← assert (negb (min_prompt_price params =? 0)) "Token not supported";
  _ ← assert (min_prompt_price params <=? prompt_price) "Prompt price too low";
  _ ← assert (min_initial_balance params <=? initial_balance)
        "Initial balance too low";
  let creator := caller_address env in
  let registry_address := contract_address env in
  deployed_address ←
    deploy_syscall (agent_class_hash s) name registry_address system_prompt token
      prompt_price creator;
  let agent :=
    Agent.constructor name registry_address system_prompt token prompt_price
      creator in
  '(ledger, _) ← erc20_transfer_from (ledger w) token registry_address creator
                   deployed_address initial_balance;
  let s :=
    mkStorage (owner s) (paused s) (agent_class_hash s)
      (<[deployed_address := true]> (agent_registered s))
      (agents s ++ [deployed_address]) (tee s) (token_params s) in
  mret (mkWorld s (<[deployed_address := agent]> (deployed w)) ledger,
        [AgentRegistered deployed_address creator name system_prompt],
        deployed_address).

(** a call through [IAgentDispatcher]: the agent sees the registry as its
    caller *)
Definition agentEnv (env : Env) (agent : Felt) : Env :=
  mkEnv (contract_address env) agent (block_timestamp env).

Definition transfer (env : Env) (w : World L) (agent recipient : Felt)
  : tx (World L * list Event) :=
  _ ← assert_not_paused (registry w);
  _ ← assert (bool_decide (caller_address env = tee (registry w)))
        "Only tee can transfer";
  match deployed w !! agent with
  | None => Revert "ENTRYPOINT_NOT_FOUND"
  | Some s =>
      '(s, ledger, events) ←
        Agent.transfer (agentEnv env agent) (ledger w) s recipient;
      mret (mkWorld (registry w) (<[agent := s]> (deployed w)) ledger, events)
  end.

Definition consume_prompt (env : Env) (w : World L) (agent : Felt) (prompt_id : Z)
  : tx (World L * list Event) :=
  _ ← assert_not_paused (registry w);
  _ ← assert (bool_decide (caller_address env = tee (registry w)))
        "Only tee can consume";
  match deployed w !! agent with
  | None => Revert "ENTRYPOINT_NOT_FOUND"
  | Some s =>
      '(s, ledger, events) ←
        Agent.consume_prompt (agentEnv env agent) (ledger w) s prompt_id;
      mret (mkWorld (registry w) (<[agent := s]> (deployed w)) ledger, events)
  end.

End WithToken.

End AgentRegistry.

End Contracts.

(** ** A token and an agent for the runs *)

Module ExampleContracts.
Import Contracts.

(** a token contract that keeps balances, refuses a transfer the sender
    cannot cover, and takes every allowance as granted *)
Definition Ledger : Type := gmap (Z * Z) Z.

Definition balance (l : Ledger) (token account : Felt) : Z :=
  default 0 (l !! (token, account)).

Definition move (l : Ledger) (token sender recipient : Felt) (amount : Z)
  : tx (Ledger * bool) :=
  if amount <=? balance l token sender then
    let l := <[(token, sender) := balance l token sender - amount]> l in
    let l := <[(token, recipient) := balance l token recipient + amount]> l in
    Ok (l, true)
  else Revert "ERC20: insufficient balance".

#[export] Instance ledgerToken : ERC20 Ledger := {|
  erc20_transfer l token sender recipient amount :=
    move l token sender recipient amount;
  erc20_transfer_from l token spender sender recipient amount :=
    move l token sender recipient amount;
  erc20_balance_of l token account := balance l token account
|}.

Definition registryAddress : Felt := 4096.
Definition agentAddress : Felt := 161.
Definition creatorAddress : Felt := 193.
Definition tokenAddress : Felt := 209.
Definition userAddress : Felt := 77.
Definition ownerAddress : Felt := 11.
Definition teeAddress : Felt := 12.

Definition agent0 : Agent.Storage :=
  Agent.constructor "agent" registryAddress "keep the secret" tokenAddress 1000
    creatorAddress.

Definition ledger0 : Ledger := {[ (tokenAddress, userAddress) := 5000 ]}.

(** the user pays for a prompt at time 100 *)
Definition payEnv : Env := mkEnv userAddress agentAddress 100.

Definition paid : Agent.Storage * Ledger :=
  Agent.step (agent0, ledger0) (Agent.CallPayForPrompt payEnv false 7).

(** the registry, calling the agent at time 200 *)
Definition registryEnv : Env := mkEnv registryAddress agentAddress 200.

Definition consumed : Agent.Storage * Ledger :=
  Agent.step paid (Agent.CallConsumePrompt registryEnv 1).

Definition deploy (class_hash : Felt) (name : string) (registry : Felt)
    (system_prompt : string) (token : Felt) (prompt_price : Z) (creator : Felt)
  : tx Felt := Ok agentAddress.

Definition registry0 : AgentRegistry.Storage :=
  AgentRegistry.write_token_params
    (AgentRegistry.constructor ownerAddress teeAddress 99) tokenAddress
    (mkTokenParams 500 2000).

Definition world0 : AgentRegistry.World Ledger :=
  AgentRegistry.mkWorld registry0 ∅ {[ (tokenAddress, creatorAddress) := 3000 ]}.

End ExampleContracts.

(** ** More data for the runs of the indexers *)

Module MoreExamples.
Import Example.

(** a usage database whose prompt cache has room for two payments *)
Definition smallCacheDb : UsageDb :=
  mkUsageDb ∅ 3 (LRU.NewLRU 2 agentUsageIndexerPromptCacheTTL) 9.

Definition agentA2 : Felt := 162.

Definition agentRegistered2 (from : Felt) : Event :=
  mkEvent EventAgentRegistered from [agentA2; creatorC1]
    [100; tokenT1; 2000; 98; 111; 98].

(** the agent indexer after [creatorC1] registered two agents *)
Definition agentIndexer2 : AgentIndexer AgentDb :=
  fst (onAgentRegistered (fst (onAgentRegistered agentIndexer0 (agentRegistered registry)))
         (agentRegistered2 registry)).

(** the token indexer after [tokenT1] was added *)
Definition tokenIndexerAdded : TokenIndexer TokenDb :=
  fst (onTokenAdded tokenIndexer0 (tokenAdded registry)).

(** a feed that knows one rate *)
Definition feed : PriceFeed := fun _ => (Some 5, None).

(** an agent indexer whose creator index lists [agentA2], for which the
    database holds no info *)
Definition agentIndexerMissing : AgentIndexer AgentDb :=
  mkAgentIndexer
    (mkAgentDb
       {[ Felt_Bytes agentA1 :=
            mkAgentInfo (Some agentA1) (Some creatorC1) "alice" EmptyString
              (Some 100) (Some tokenT1) 2000 ]}
       {[ Felt_Bytes creatorC1 := [Felt_Bytes agentA1; Felt_Bytes agentA2] ]} 9)
    registry [node].

(** a token database that keeps the pointer it is handed, nil included *)
Record PointerTokenDb : Type := mkPointerTokenDb {
  pointers : gmap Z (option TokenInfo);
  pointerDb_lastIndexedBlock : Z
}.

#[export] Instance PointerTokenDb_db : TokenIndexerDatabase PointerTokenDb := {
  GetTokenInfo := fun d token =>
    match pointers d !! token with
    | Some pointer => (pointer, true)
    | None => (None, false)
    end;
  GetTokens := pointers;
  SetTokenInfo := fun d token pointer =>
    mkPointerTokenDb (<[token := pointer]> (pointers d))
      (pointerDb_lastIndexedBlock d);
  Token_GetLastIndexedBlock := pointerDb_lastIndexedBlock;
  Token_SetLastIndexedBlock := fun d block => mkPointerTokenDb (pointers d) block
}.

(** over it, the token indexer after [tokenT1] was removed *)
Definition tokenIndexerRemoved : TokenIndexer PointerTokenDb :=
  fst (onTokenRemoved (mkTokenIndexer (mkPointerTokenDb ∅ 9) registry)
         (tokenRemoved registry)).

End MoreExamples.

(** * Properties *)

(** linear arithmetic with the bound of [uint64] spelled out *)
Ltac u64_lia :=
  unfold u64, is_u64 in *;
  change (2 ^ 64) with 18446744073709551616 in *;
  lia.

(** ** Lists: keeping the newest entries *)





(** ** Agent usage projection *)

Section UsageFacts.
Implicit Types (db : UsageDb) (addr : Bytes32) (ev : PromptConsumedEvent).

Lemma StorePromptConsumedData_usages now db addr ev :
  exists usage',
    usages (fst (StorePromptConsumedData now db addr ev))
    = <[addr := usage']> (usages db).
Proof.
  unfold StorePromptConsumedData.
  destruct (bool_decide _); destruct (LRU.Peek _ _ _); simpl; eauto.
Qed.

Lemma StorePromptConsumedData_maxPrompts now db addr ev :
  maxPrompts (fst (StorePromptConsumedData now db addr ev)) = maxPrompts db.
Proof.
  unfold StorePromptConsumedData.
  destruct (bool_decide _); destruct (LRU.Peek _ _ _); reflexivity.
Qed.

Lemma StorePromptConsumedData_other now db addr ev addr' :
  addr <> addr' ->
  GetAgentUsage (fst (StorePromptConsumedData now db addr ev)) addr'
  = GetAgentUsage db addr'.
Proof.
  intros Hne. destruct (StorePromptConsumedData_usages now db addr ev) as [u Hu].
  unfold GetAgentUsage. rewrite Hu. by rewrite lookup_insert_ne.
Qed.

End UsageFacts.

Lemma StorePromptConsumedData_usage now (db : UsageDb) (addr : Bytes32)
    (ev : PromptConsumedEvent) :
  let usage := getOrCreateAgentUsage db addr in
  let appended := LatestPrompts usage ++ [consumedEntry now db addr ev] in
  GetAgentUsage (fst (StorePromptConsumedData now db addr ev)) addr
  = Some (mkAgentUsage
            (u64 (BreakAttempts usage + 1))
            (if maxPrompts db <? Z.of_nat (length appended)
             then drop 1 appended else appended)
            (if IsSuccess (consumedEntry now db addr ev)
             then true else IsDrained usage)).
Proof.
  unfold StorePromptConsumedData, consumedEntry, cachedPromptData, GetAgentUsage.
  destruct (bool_decide _); destruct (LRU.Peek _ _ _); simpl;
    by rewrite lookup_insert_eq.
Qed.

Lemma getOrCreateAgentUsage_bounded (db : UsageDb) (addr : Bytes32) :
  0 <= maxPrompts db -> promptsBounded db ->
  Z.of_nat (length (LatestPrompts (getOrCreateAgentUsage db addr))) <= maxPrompts db.
Proof.
  intros HK Hb. unfold getOrCreateAgentUsage.
  destruct (usages db !! addr) as [u |] eqn:E; [by eapply Hb | simpl; lia].
Qed.

Lemma applyUsageOp_maxPrompts (db : UsageDb) (op : UsageOp) :
  maxPrompts (applyUsageOp db op) = maxPrompts db.
Proof.
  destruct op; simpl; try reflexivity.
  apply StorePromptConsumedData_maxPrompts.
Qed.

Lemma applyUsageOp_bounded (db : UsageDb) (op : UsageOp) :
  0 <= maxPrompts db -> promptsBounded db -> promptsBounded (applyUsageOp db op).
Proof.
  intros HK Hb a u. rewrite applyUsageOp_maxPrompts.
  destruct op as [addr | now addr ev | now addr ev | block | now];
    cbn [applyUsageOp StoreAgent StorePromptPaidData UsageDb_SetLastIndexedBlock usages].
  - destruct (decide (addr = a)) as [-> | Hne].
    + rewrite lookup_insert_eq. intros [= <-].
      by apply getOrCreateAgentUsage_bounded.
    + rewrite lookup_insert_ne by done. apply Hb.
  - apply Hb.
  - destruct (decide (addr = a)) as [-> | Hne].
    + pose proof (StorePromptConsumedData_usage now db a ev) as Hu.
      unfold GetAgentUsage in Hu. cbv zeta in Hu. rewrite Hu. intros [= <-].
      cbn [LatestPrompts].
      pose proof (getOrCreateAgentUsage_bounded db a HK Hb) as Hlen.
      destruct (Z.ltb_spec (maxPrompts db)
                  (Z.of_nat (length (LatestPrompts (getOrCreateAgentUsage db a)
                                      ++ [consumedEntry now db a ev])))) as [Hlt | Hge].
      * rewrite length_drop, length_app. simpl. lia.
      * lia.
    + pose proof (StorePromptConsumedData_other now db addr ev a Hne) as Ho.
      unfold GetAgentUsage in Ho. rewrite Ho. apply Hb.
  - apply Hb.
  - apply Hb.
Qed.

Lemma runUsageOps_maxPrompts (ops : list UsageOp) (db : UsageDb) :
  maxPrompts (runUsageOps db ops) = maxPrompts db.
Proof.
  revert db. induction ops as [| op ops IH]; intros db; [done |].
  change (runUsageOps db (op :: ops)) with (runUsageOps (applyUsageOp db op) ops).
  rewrite IH. apply applyUsageOp_maxPrompts.
Qed.

Lemma runUsageOps_bounded (ops : list UsageOp) (db : UsageDb) :
  0 <= maxPrompts db -> promptsBounded db -> promptsBounded (runUsageOps db ops).
Proof.
  revert db. induction ops as [| op ops IH]; intros db HK Hb; [done |].
  change (runUsageOps db (op :: ops)) with (runUsageOps (applyUsageOp db op) ops).
  apply IH.
  - by rewrite applyUsageOp_maxPrompts.
  - by apply applyUsageOp_bounded.
Qed.

Lemma New_bounded (initialBlock K : Z) :
  promptsBounded (NewAgentUsageIndexerDatabaseInMemory initialBlock K).
Proof. intros a u. simpl. by rewrite lookup_empty. Qed.

Lemma getOrCreateAgentUsage_Some (db : UsageDb) (addr : Bytes32) (usage : AgentUsage) :
  GetAgentUsage db addr = Some usage -> getOrCreateAgentUsage db addr = usage.
Proof. unfold GetAgentUsage, getOrCreateAgentUsage. by intros ->. Qed.


Lemma getOrCreateAgentUsage_New (initialBlock K : Z) (addr : Bytes32) :
  getOrCreateAgentUsage (NewAgentUsageIndexerDatabaseInMemory initialBlock K) addr
  = mkAgentUsage 0 [] false.
Proof. unfold getOrCreateAgentUsage. simpl. by rewrite lookup_empty. Qed.




(** ** Token projection *)

Section TokenFacts.
Context {DB : Type} {Hdb : TokenIndexerDatabase DB} {decode : EventDecoder}.
Implicit Types (i : TokenIndexer DB) (ev : Event) (token : Felt).

Lemma Felt_Cmp_Eq (a b : Felt) : Felt_Cmp a b = Eq <-> a = b.
Proof. unfold Felt_Cmp. apply Z.compare_eq_iff. Qed.

Lemma onTokenAdded_spoofed i ev :
  Raw_FromAddress ev <> token_registryAddress i ->
  onTokenAdded i ev
  = (i, [slog_Warn "ignoring token added event from non-registry address"]).
Proof.
  intros Hne. unfold onTokenAdded.
  destruct (Felt_Cmp _ _) eqn:E; try reflexivity.
  by apply Felt_Cmp_Eq in E.
Qed.

Lemma onTokenRemoved_spoofed i ev :
  Raw_FromAddress ev <> token_registryAddress i ->
  onTokenRemoved i ev
  = (i, [slog_Warn "ignoring token removed event from non-registry address"]).
Proof.
  intros Hne. unfold onTokenRemoved.
  destruct (Felt_Cmp _ _) eqn:E; try reflexivity.
  by apply Felt_Cmp_Eq in E.
Qed.

Lemma GetTokenRate_found i token (value : option Z) :
  GetTokenRate i token = Returns (value, true) <->
  exists tokenInfo,
    GetTokenInfo (token_db i) (Felt_Bytes token) = (Some tokenInfo, true) /\
    RateTime tokenInfo <> 0 /\
    value = Rate tokenInfo.
Proof.
  unfold GetTokenRate, Time_IsZero.
  destruct (GetTokenInfo (token_db i) (Felt_Bytes token)) as [[info |] [|]];
    cbn [negb]; try (split; [discriminate | by intros (info' & [=] & _)]).
  destruct (Z.eqb_spec (RateTime info) 0) as [Hz | Hnz].
  - split; [discriminate |]. intros (info' & [= <-] & Hnz & _). contradiction.
  - split.
    + intros [= <-]. eauto.
    + by intros (info' & [= <-] & _ & ->).
Qed.

Lemma GetTokenRate_not_found i token (tokenInfo : option TokenInfo) :
  GetTokenInfo (token_db i) (Felt_Bytes token) = (tokenInfo, false) ->
  GetTokenRate i token = Returns (None, false).
Proof. unfold GetTokenRate. by intros ->. Qed.

Lemma GetTokenRate_never_refreshed i token (tokenInfo : TokenInfo) :
  GetTokenInfo (token_db i) (Felt_Bytes token) = (Some tokenInfo, true) ->
  RateTime tokenInfo = 0 ->
  GetTokenRate i token = Returns (None, false).
Proof. unfold GetTokenRate, Time_IsZero. by intros -> ->. Qed.

(** C9. [GetTokenRate] answers [(value, true)] exactly when the token
    projection has an entry for the token whose [RateTime] is not the zero
    instant, and the value is then the stored rate; for a token that has an
    entry with a zero [RateTime] (never refreshed), and for a token without
    entry, it answers not-found. *)
Theorem GetTokenRate_found_iff_refreshed :
  forall i token,
    (forall value : option Z,
        GetTokenRate i token = Returns (value, true) <->
        exists tokenInfo,
          GetTokenInfo (token_db i) (Felt_Bytes token) = (Some tokenInfo, true) /\
          RateTime tokenInfo <> 0 /\
          value = Rate tokenInfo) /\
    (forall tokenInfo,
        GetTokenInfo (token_db i) (Felt_Bytes token) = (Some tokenInfo, true) ->
        RateTime tokenInfo = 0 ->
        GetTokenRate i token = Returns (None, false)) /\
    (forall tokenInfo,
        GetTokenInfo (token_db i) (Felt_Bytes token) = (tokenInfo, false) ->
        GetTokenRate i token = Returns (None, false)).
Proof.
  intros i token. split; [| split].
  - apply GetTokenRate_found.
  - apply GetTokenRate_never_refreshed.
  - apply GetTokenRate_not_found.
Qed.

End TokenFacts.

Section TokenDbFacts.
Context {decode : EventDecoder}.
Implicit Types (i : TokenIndexer TokenDb) (ev : Event) (token : Felt).

Lemma onTokenRemoved_registry i ev tokenRemovedEv :
  Raw_FromAddress ev = token_registryAddress i ->
  ToTokenRemovedEvent ev = Some tokenRemovedEv ->
  onTokenRemoved i ev
  = (mkTokenIndexer
       (TokenDb_SetTokenInfo (token_db i)
          (Felt_Bytes (TokenRemoved_Token tokenRemovedEv)) None)
       (token_registryAddress i), []).
Proof.
  intros Hfrom Hparse. unfold onTokenRemoved.
  rewrite (proj2 (Felt_Cmp_Eq _ _) Hfrom), Hparse. reflexivity.
Qed.

Lemma TokenDb_GetTokenInfo_found (d : TokenDb) (t : Bytes32) (info : option TokenInfo) :
  TokenDb_GetTokenInfo d t = (info, true) -> tokens d !! t = info.
Proof.
  unfold TokenDb_GetTokenInfo. destruct (tokens d !! t); by intros [= <-].
Qed.

(** C3. After a [TokenRemoved] from the registry for token [T] the entry of
    [T] is a sentinel whose [MinPromptPrice] is 0, which is what
    [GetTokenMinPromptPrice] then reports, and a rate that [GetTokenRate]
    returned before the removal is still returned after it; other tokens
    keep their entry. *)
Theorem onTokenRemoved_keeps_rate :
  forall i ev tokenRemovedEv,
    Raw_FromAddress ev = token_registryAddress i ->
    ToTokenRemovedEvent ev = Some tokenRemovedEv ->
    let T := TokenRemoved_Token tokenRemovedEv in
    let i' := fst (onTokenRemoved i ev) in
    (exists sentinel,
        GetTokenInfo (token_db i') (Felt_Bytes T) = (Some sentinel, true) /\
        MinPromptPrice sentinel = Some 0) /\
    GetTokenMinPromptPrice i' T = Returns (Some 0, true) /\
    (forall rate, GetTokenRate i T = Returns (rate, true) ->
                  GetTokenRate i' T = Returns (rate, true)) /\
    (forall other, Felt_Bytes other <> Felt_Bytes T ->
                   GetTokenInfo (token_db i') (Felt_Bytes other)
                   = GetTokenInfo (token_db i) (Felt_Bytes other)).
Proof.
  intros i ev rem Hfrom Hparse T i'.
  subst i'. rewrite (onTokenRemoved_registry i ev rem Hfrom Hparse).
  cbn [fst token_db]. fold T.
  assert (Hget : GetTokenInfo
                   (TokenDb_SetTokenInfo (token_db i) (Felt_Bytes T) None)
                   (Felt_Bytes T)
                 = (Some (removedSentinel (tokens (token_db i) !! Felt_Bytes T)), true)).
  { cbn. unfold TokenDb_GetTokenInfo. cbn. by rewrite lookup_insert_eq. }
  assert (Hmin : MinPromptPrice (removedSentinel (tokens (token_db i) !! Felt_Bytes T))
                 = Some 0).
  { by destruct (tokens (token_db i) !! Felt_Bytes T). }
  split; [eauto |].
  split.
  { unfold GetTokenMinPromptPrice. cbn [token_db]. rewrite Hget. cbn [negb].
    by rewrite Hmin. }
  split.
  { intros rate Hbefore.
    apply GetTokenRate_found in Hbefore as (info & Hinfo & Hnz & ->).
    apply GetTokenRate_found.
    cbn [token_db]. rewrite Hget.
    apply TokenDb_GetTokenInfo_found in Hinfo. rewrite Hinfo.
    eexists. split; [reflexivity |]. by split. }
  intros other Hne. cbn. unfold TokenDb_GetTokenInfo. cbn.
  by rewrite lookup_insert_ne.
Qed.

End TokenDbFacts.

(** ** Agent projection *)

Section AgentFacts.
Context {DB : Type} {Hdb : AgentIndexerDatabase DB} {decode : EventDecoder}
        {starknet : StarknetUtils}.
Implicit Types (i : AgentIndexer DB) (ev : Event) (addr : Felt).

Lemma onAgentRegistered_spoofed i ev :
  Raw_FromAddress ev <> registryAddress i ->
  onAgentRegistered i ev
  = (i, [slog_Warn "received agent registered event from non-registry address"]).
Proof.
  intros Hne. unfold onAgentRegistered.
  destruct (Felt_Cmp _ _) eqn:E; try reflexivity.
  by apply Felt_Cmp_Eq in E.
Qed.

End AgentFacts.

(** C8. An event whose emitter is not the configured registry leaves the
    agent projection and the token projection exactly as they were, and
    what it logs is a warning: a spoofed [AgentRegistered] adds no
    [AgentInfo] and a spoofed [TokenAdded] or [TokenRemoved] changes no
    token. *)
Theorem spoofed_event_changes_nothing :
  forall {ADB TDB : Type} {Hadb : AgentIndexerDatabase ADB} {Htdb : TokenIndexerDatabase TDB}
         {decode : EventDecoder}
         (registry : Felt) (ai : AgentIndexer ADB) (ti : TokenIndexer TDB)
         (ev : Event),
    registryAddress ai = registry ->
    token_registryAddress ti = registry ->
    Raw_FromAddress ev <> registry ->
    fst (onAgentRegistered ai ev) = ai /\
    (forall a, GetAgentInfo (db (fst (onAgentRegistered ai ev))) a
               = GetAgentInfo (db ai) a) /\
    fst (onTokenAdded ti ev) = ti /\
    fst (onTokenRemoved ti ev) = ti /\
    fst (TokenIndexer_applyEvent ti ev) = ti /\
    GetTokens (token_db (fst (TokenIndexer_applyEvent ti ev)))
    = GetTokens (token_db ti) /\
    Forall (fun r => log_level r = LevelWarn)
      (snd (onAgentRegistered ai ev) ++ snd (TokenIndexer_applyEvent ti ev)).
Proof.
  intros ADB TDB HA HT HD registry ai ti ev Hai Hti Hne.
  rewrite onAgentRegistered_spoofed by congruence.
  unfold TokenIndexer_applyEvent.
  rewrite onTokenAdded_spoofed, onTokenRemoved_spoofed by congruence.
  cbn [fst snd].
  repeat split; try reflexivity.
  - by destruct (Type_ ev).
  - by destruct (Type_ ev).
  - destruct (Type_ ev); cbn [snd app]; repeat constructor.
Qed.

Section AgentQueryFacts.
Context {DB : Type} {Hdb : AgentIndexerDatabase DB} {decode : EventDecoder}
        {starknet : StarknetUtils}.
Implicit Types (i : AgentIndexer DB) (addr creator : Felt).

Lemma ProviderWrapper_Do_calls (providers : list RpcProvider) (fc : FunctionCall)
    (tag : string) :
  Forall (fun c => c = mkRpcCall fc tag)
         (fst (fst (ProviderWrapper_Do providers fc tag))).
Proof.
  induction providers as [| p rest IH]; [constructor |].
  cbn [ProviderWrapper_Do].
  destruct (p fc tag) as [resp | err]; [repeat constructor |].
  destruct rest as [| q rest']; [repeat constructor |].
  destruct (ProviderWrapper_Do (q :: rest') fc tag) as [[calls resp] e].
  constructor; [reflexivity | exact IH].
Qed.

(** what [fetchAgentInfo] sends and what it can return *)
Lemma fetchAgentInfo_shape i addr :
  Forall (fun c =>
            call_blockTag c = "latest" /\
            (call_function c = isAgentRegisteredCall i addr \/
             call_function c = getNameCall addr \/
             call_function c = getSystemPromptCall addr))
         (fst (fetchAgentInfo i addr)) /\
  match snd (fetchAgentInfo i addr) with
  | Returns (info, None) =>
      exists name systemPrompt, info = partialAgentInfo addr name systemPrompt
  | Returns (info, Some _) => info = AgentInfo_zero
  | Panics =>
      exists calls,
        ProviderWrapper_Do (client i) (isAgentRegisteredCall i addr) "latest"
        = (calls, [], None)
  end.
Proof.
  unfold fetchAgentInfo.
  fold (isAgentRegisteredCall i addr) (getNameCall addr) (getSystemPromptCall addr).
  pose proof (ProviderWrapper_Do_calls (client i) (isAgentRegisteredCall i addr) "latest") as Hd1.
  pose proof (ProviderWrapper_Do_calls (client i) (getNameCall addr) "latest") as Hd2.
  pose proof (ProviderWrapper_Do_calls (client i) (getSystemPromptCall addr) "latest") as Hd3.
  destruct (ProviderWrapper_Do (client i) (isAgentRegisteredCall i addr) "latest")
    as [[calls1 resp1] err1].
  destruct (ProviderWrapper_Do (client i) (getNameCall addr) "latest")
    as [[calls2 resp2] err2].
  destruct (ProviderWrapper_Do (client i) (getSystemPromptCall addr) "latest")
    as [[calls3 resp3] err3].
  cbn [fst] in Hd1, Hd2, Hd3.
  assert (G1 : Forall (fun c =>
            call_blockTag c = "latest" /\
            (call_function c = isAgentRegisteredCall i addr \/
             call_function c = getNameCall addr \/
             call_function c = getSystemPromptCall addr)) calls1).
  { eapply Forall_impl; [exact Hd1 |]. intros c ->. cbn. auto. }
  assert (G2 : Forall (fun c =>
            call_blockTag c = "latest" /\
            (call_function c = isAgentRegisteredCall i addr \/
             call_function c = getNameCall addr \/
             call_function c = getSystemPromptCall addr)) calls2).
  { eapply Forall_impl; [exact Hd2 |]. intros c ->. cbn. auto. }
  assert (G3 : Forall (fun c =>
            call_blockTag c = "latest" /\
            (call_function c = isAgentRegisteredCall i addr \/
             call_function c = getNameCall addr \/
             call_function c = getSystemPromptCall addr)) calls3).
  { eapply Forall_impl; [exact Hd3 |]. intros c ->. cbn. auto. }
  destruct err1 as [e1 |]; [by split |].
  destruct resp1 as [| registered rest]; [split; [done | by exists calls1] |].
  destruct (Felt_Cmp registered 1); [| by split | by split].
  destruct err2 as [e2 |];
    [split; [cbn [fst]; rewrite ?Forall_app; auto | done] |].
  destruct (ByteArrFeltToString resp2) as [name | e];
    [| split; [cbn [fst]; rewrite ?Forall_app; auto | done]].
  destruct err3 as [e3 |];
    [split; [cbn [fst]; rewrite ?Forall_app; auto | done] |].
  destruct (ByteArrFeltToString resp3) as [systemPrompt | e];
    [| split; [cbn [fst]; rewrite ?Forall_app; auto | done]].
  split; [cbn [fst]; rewrite ?Forall_app; auto |].
  cbn. by exists name, systemPrompt.
Qed.



(** C10. When the fetch path of [GetOrFetchAgentInfo] succeeds
    ([is_agent_registered] answers 1 and both byte arrays parse) the info
    returned has only [Address], [Name] and [SystemPrompt] populated:
    [Creator], [PromptPrice] and [TokenAddress] are nil and [EndTime] is 0,
    so the prompt price that [agentDataFromAgentInfo] serialises from it is
    that of a nil pointer; and every info the fetch returns without error
    has this shape. *)
Theorem fetched_AgentInfo_is_partial :
  forall i addr (block : Z) (cached : AgentInfo)
         (calls1 calls2 calls3 : list RpcCall)
         (rest nameResp systemPromptResp : list Felt) (name systemPrompt : string),
    GetAgentInfo (db i) (Felt_Bytes addr) = (cached, false) ->
    GetLastIndexedBlock (db i) < block ->
    ProviderWrapper_Do (client i) (isAgentRegisteredCall i addr) "latest"
    = (calls1, 1 :: rest, None) ->
    ProviderWrapper_Do (client i) (getNameCall addr) "latest"
    = (calls2, nameResp, None) ->
    ByteArrFeltToString nameResp = inl name ->
    ProviderWrapper_Do (client i) (getSystemPromptCall addr) "latest"
    = (calls3, systemPromptResp, None) ->
    ByteArrFeltToString systemPromptResp = inl systemPrompt ->
    exists info,
      GetOrFetchAgentInfo i addr block
      = (calls1 ++ calls2 ++ calls3, Returns (info, None)) /\
      Address info = Some addr /\
      Name info = name /\
      SystemPrompt info = systemPrompt /\
      Creator info = None /\
      PromptPrice info = None /\
      TokenAddress info = None /\
      EndTime info = 0 /\
      agentData_PromptPrice info = "<nil>" /\
      (forall calls info',
          fetchAgentInfo i addr = (calls, Returns (info', None)) ->
          Creator info' = None /\ PromptPrice info' = None /\
          TokenAddress info' = None /\ EndTime info' = 0 /\
          Address info' = Some addr /\
          agentData_PromptPrice info' = "<nil>").
Proof.
  intros i addr block cached calls1 calls2 calls3 rest nameResp systemPromptResp
         name systemPrompt Hget Hlt Hreg Hname Hpname Hprompt Hpprompt.
  exists (partialAgentInfo addr name systemPrompt).
  assert (Hfetch : fetchAgentInfo i addr
                   = (calls1 ++ calls2 ++ calls3,
                      Returns (partialAgentInfo addr name systemPrompt, None))).
  { unfold fetchAgentInfo.
    fold (isAgentRegisteredCall i addr) (getNameCall addr) (getSystemPromptCall addr).
    rewrite Hreg. cbn [Felt_Cmp Z.compare Pos.compare Pos.compare_cont].
    rewrite Hname, Hpname, Hprompt, Hpprompt. reflexivity. }
  split.
  { unfold GetOrFetchAgentInfo. rewrite Hget. cbn [negb].
    rewrite (proj2 (Z.leb_gt _ _) Hlt). by rewrite Hfetch. }
  repeat (split; [reflexivity |]).
  intros calls info' Hf.
  pose proof (fetchAgentInfo_shape i addr) as [_ Hres].
  rewrite Hf in Hres. cbn [snd] in Hres.
  destruct Hres as (n & sp & ->). by repeat split.
Qed.

Lemma slice_length {A : Type} (l : list A) (start end_ : Z) :
  0 <= start <= end_ -> end_ <= Z.of_nat (length l) ->
  Z.of_nat (length (slice l start end_)) = end_ - start.
Proof.
  intros Hs He. unfold slice. rewrite length_take, length_drop. lia.
Qed.

Lemma slice_lookup {A : Type} (l : list A) (start end_ k : Z) :
  0 <= start -> start <= k < end_ ->
  slice l start end_ !! Z.to_nat (k - start) = l !! Z.to_nat k.
Proof.
  intros Hs Hk. unfold slice.
  rewrite lookup_take_lt by lia. rewrite lookup_drop. f_equal. lia.
Qed.

Lemma GetAgentsByCreator_not_found i creator (start limit : Z) :
  fst (GetAgentsByCreator i creator start limit) = Returns None <->
  Z.of_nat (length (GetAddressesByCreator (db i) (Felt_Bytes creator))) <= start.
Proof.
  unfold GetAgentsByCreator.
  destruct (Z.leb_spec
              (Z.of_nat (length (GetAddressesByCreator (db i) (Felt_Bytes creator))))
              start) as [Hle | Hgt].
  - by split.
  - split; [| lia].
    match goal with |- context [if ?c then (Panics, _) else _] => destruct c end;
      discriminate.
Qed.

(** the addition [start + limit] wrapping around aborts the call *)
Lemma GetAgentsByCreator_wraps i creator (start limit : Z) :
  is_u64 start -> is_u64 limit ->
  start < Z.of_nat (length (GetAddressesByCreator (db i) (Felt_Bytes creator))) ->
  2 ^ 64 <= start + limit ->
  fst (GetAgentsByCreator i creator start limit) = Panics.
Proof.
  unfold is_u64, GetAgentsByCreator, u64.
  change (2 ^ 64) with 18446744073709551616. intros Hs Hl Hlt Hwrap.
  rewrite (proj2 (Z.leb_gt _ _)) by lia.
  assert (Hmod : (start + limit) mod 18446744073709551616
                 = start + limit - 18446744073709551616).
  { symmetry. apply (Z.mod_unique_pos _ _ 1); lia. }
  rewrite Hmod.
  destruct (Z.ltb_spec
              (Z.of_nat (length (GetAddressesByCreator (db i) (Felt_Bytes creator))))
              (start + limit - 18446744073709551616)) as [Hbad | _]; [lia |].
  rewrite (proj2 (Z.ltb_lt _ _)) by lia.
  reflexivity.
Qed.

(** the in-memory creator index lists agents in registration order: a new
    agent goes to the end of its creator's list *)
Lemma AgentDb_SetAgentInfo_appends (d : AgentDb) (a : Bytes32) (info : AgentInfo)
    (c : Felt) :
  agents d !! a = None -> Creator info = Some c ->
  AgentDb_GetAddressesByCreator (AgentDb_SetAgentInfo d a info) (Felt_Bytes c)
  = AgentDb_GetAddressesByCreator d (Felt_Bytes c) ++ [a] /\
  AgentDb_GetAgentInfo (AgentDb_SetAgentInfo d a info) a = (info, true).
Proof.
  intros Hnew Hc. unfold AgentDb_SetAgentInfo. rewrite Hnew, Hc.
  unfold AgentDb_GetAddressesByCreator at 1, AgentDb_GetAgentInfo.
  cbn [agents agentsByCreator]. by rewrite !lookup_insert_eq.
Qed.

(** The pages of [GetAgentsByCreator] while [start + limit] stays within
    64 bits.  It reports not-found exactly when [start] is at or past the
    number of agents the creator index lists for the creator, so also for a
    creator without agents at [start = 0]; otherwise it returns the infos of
    the agents at positions [start, min (start + limit) count) of that
    list, in its order, with the count and the last indexed block. *)
Theorem GetAgentsByCreator_page :
  forall i creator (start limit : Z),
    is_u64 start -> is_u64 limit ->
    let agents := GetAddressesByCreator (db i) (Felt_Bytes creator) in
    let count := Z.of_nat (length agents) in
    let end_ := Z.min (start + limit) count in
    (fst (GetAgentsByCreator i creator start limit) = Returns None <-> count <= start) /\
    (agents = [] -> fst (GetAgentsByCreator i creator start limit) = Returns None) /\
    (start < count -> start + limit < 2 ^ 64 ->
     exists result,
       fst (GetAgentsByCreator i creator start limit) = Returns (Some result) /\
       Agents result
       = map (fun a => fst (GetAgentInfo (db i) a)) (slice agents start end_) /\
       Z.of_nat (length (Agents result)) = end_ - start /\
       (forall k, start <= k < end_ ->
                  Agents result !! Z.to_nat (k - start)
                  = (fun a => fst (GetAgentInfo (db i) a)) <$> agents !! Z.to_nat k) /\
       AgentCount result = count /\
       LastBlock result = GetLastIndexedBlock (db i)).
Proof.
  intros i creator start limit Hs Hl agents count end_.
  split; [apply GetAgentsByCreator_not_found |].
  split.
  { intros Hnil. apply GetAgentsByCreator_not_found. fold agents.
    rewrite Hnil. unfold is_u64 in Hs. simpl. lia. }
  intros Hlt Hsum. unfold is_u64 in Hs, Hl.
  unfold GetAgentsByCreator. fold agents. fold count.
  unfold u64. change (2 ^ 64) with 18446744073709551616 in *.
  rewrite (proj2 (Z.leb_gt _ _)) by lia.
  rewrite Z.mod_small by lia.
  assert (Hend : (if count <? start + limit then count else start + limit) = end_).
  { subst end_. destruct (Z.ltb_spec count (start + limit)); lia. }
  rewrite Hend.
  rewrite (proj2 (Z.ltb_ge end_ start)) by lia.
  eexists. split; [reflexivity |]. cbn [fst Agents AgentCount LastBlock].
  assert (Hmap : map fst (map (GetAgentInfo (db i)) (slice agents start end_))
                 = map (fun a => fst (GetAgentInfo (db i) a)) (slice agents start end_)).
  { by rewrite map_map. }
  rewrite Hmap.
  split; [reflexivity |].
  split.
  { rewrite length_map. apply slice_length; lia. }
  split; [| by split].
  intros k Hk.
  change (map ?f ?l) with (f <$> l).
  rewrite list_lookup_fmap. f_equal. apply slice_lookup; lia.
Qed.

End AgentQueryFacts.

(** ** The correlation buffer *)

Module LRUFacts.
Import LRU.

Section WithValue.
Context {V : Type}.
Implicit Types (c : LRU.t V) (l : list (LRU.Entry V)) (k : string) (v : V).

Lemma find_Some_key k l e : find k l = Some e -> Key e = k.
Proof.
  unfold find. intros Hf. apply find_some in Hf as [_ Hk].
  unfold has_key in Hk. by apply bool_decide_eq_true in Hk.
Qed.

Lemma find_remove_key_same k l : find k (remove_key k l) = None.
Proof.
  unfold find, remove_key. induction l as [| e l IH]; [done |].
  cbn [List.filter]. destruct (has_key k e) eqn:E; cbn [negb]; [exact IH |].
  cbn [List.find]. by rewrite E.
Qed.

Lemma find_remove_key_other k k' l :
  k <> k' -> find k (remove_key k' l) = find k l.
Proof.
  intros Hne. unfold find, remove_key. induction l as [| e l IH]; [done |].
  cbn [List.filter List.find].
  destruct (has_key k' e) eqn:E'; cbn [negb].
  - unfold has_key in *. apply bool_decide_eq_true in E'.
    rewrite bool_decide_eq_false_2 by congruence. exact IH.
  - cbn [List.find]. by rewrite IH.
Qed.

Lemma find_filter_keep (keep : LRU.Entry V -> bool) k l e :
  find k l = Some e -> keep e = true -> find k (List.filter keep l) = Some e.
Proof.
  unfold find. induction l as [| x l IH]; [done |].
  cbn [List.find List.filter]. destruct (has_key k x) eqn:E.
  - intros [= ->] Hkeep. rewrite Hkeep. cbn [List.find]. by rewrite E.
  - intros Hf Hkeep. destruct (keep x); [cbn [List.find]; rewrite E |]; by apply IH.
Qed.

Lemma find_filter_None (keep : LRU.Entry V -> bool) k l :
  find k l = None -> find k (List.filter keep l) = None.
Proof.
  unfold find. induction l as [| x l IH]; [done |].
  cbn [List.find List.filter]. destruct (has_key k x) eqn:E; [done |].
  intros Hf. destruct (keep x); [cbn [List.find]; rewrite E |]; by apply IH.
Qed.

Lemma find_removelast_None k l : find k l = None -> find k (removelast l) = None.
Proof.
  unfold find. induction l as [| x l IH]; [done |].
  cbn [List.find]. destruct (has_key k x) eqn:E; [done |].
  intros Hf. destruct l as [| y l']; [done |].
  change (removelast (x :: y :: l')) with (x :: removelast (y :: l')).
  cbn [List.find]. rewrite E. by apply IH.
Qed.

Lemma length_removelast_le l : (length (removelast l) <= length l)%nat.
Proof. rewrite removelast_firstn_len, length_take. lia. Qed.

Lemma length_remove_key k l : (length (remove_key k l) <= length l)%nat.
Proof. unfold remove_key. apply List.filter_length_le. Qed.

Lemma find_Some_length_remove_key k l e :
  find k l = Some e -> (length (remove_key k l) < length l)%nat.
Proof.
  unfold find, remove_key. induction l as [| x l IH]; [done |].
  cbn [List.find List.filter]. destruct (has_key k x) eqn:E; cbn [negb].
  - intros _. pose proof (List.filter_length_le (fun e => negb (has_key k e)) l).
    cbn [length]. lia.
  - intros Hf. cbn [length]. apply IH in Hf. lia.
Qed.

(** a key just added sits at the front with a fresh deadline *)
Lemma find_Add_same now k v c :
  find k (evictList (Add now k v c)) = Some (mkEntry k v (now + ttl c)).
Proof.
  unfold Add.
  assert (Hhead : forall rest,
             find k (mkEntry k v (now + ttl c) :: rest)
             = Some (mkEntry k v (now + ttl c))).
  { intros rest. unfold find, has_key. cbn [List.find Key].
    by rewrite bool_decide_eq_true_2. }
  destruct (find k (evictList c)) as [old |] eqn:E; [apply Hhead |].
  destruct ((0 <? size c)
            && (size c <? Z.of_nat (length (mkEntry k v (now + ttl c) :: evictList c))))
    eqn:Ev; cbn [evictList]; [| apply Hhead].
  destruct (evictList c) as [| y l'] eqn:El.
  - apply andb_true_iff in Ev as [H0 H1].
    apply Z.ltb_lt in H0, H1. cbn [length] in H1. lia.
  - unfold removeOldest.
    change (removelast (?x :: y :: l')) with (x :: removelast (y :: l')).
    apply Hhead.
Qed.

(** it is found, with the value added, until its deadline *)
Lemma Peek_Add_same now k v c (t : Z) :
  t <= now + ttl c -> Peek t k (Add now k v c) = Some v.
Proof.
  intros Ht. unfold Peek. rewrite find_Add_same. cbn [ExpiresAt Value].
  by rewrite (proj2 (Z.ltb_ge _ _)) by lia.
Qed.

(** ... and is hidden once the deadline has passed *)
Lemma Peek_Add_expired now k v c (t : Z) :
  now + ttl c < t -> Peek t k (Add now k v c) = None.
Proof.
  intros Ht. unfold Peek. rewrite find_Add_same. cbn [ExpiresAt Value].
  by rewrite (proj2 (Z.ltb_lt _ _)) by lia.
Qed.

Lemma Peek_Remove_same k c (t : Z) : Peek t k (Remove k c) = None.
Proof. unfold Peek, Remove. cbn [evictList]. by rewrite find_remove_key_same. Qed.

Lemma Peek_find_None k c (t : Z) : find k (evictList c) = None -> Peek t k c = None.
Proof. unfold Peek. by intros ->. Qed.

End WithValue.

End LRUFacts.

(** ** The cache key determines the agent and the prompt *)

Lemma String_app_inj (s1 s2 t1 t2 : string) :
  String.length s1 = String.length s2 ->
  s1 +:+ t1 = s2 +:+ t2 -> s1 = s2 /\ t1 = t2.
Proof.
  revert s2. induction s1 as [| a s1 IH]; intros [| b s2] Hlen Heq;
    try discriminate; [done |].
  cbn in Heq. injection Heq as -> Heq. injection Hlen as Hlen.
  destruct (IH s2 Hlen Heq) as [-> ->]. done.
Qed.

Lemma bytes_be_length (n : nat) (z : Z) : String.length (bytes_be n z) = n.
Proof. induction n as [| n IH]; [done |]. cbn. by rewrite IH. Qed.

Lemma ascii_of_N_inj (x y : N) :
  (x < 256)%N -> (y < 256)%N -> Ascii.ascii_of_N x = Ascii.ascii_of_N y -> x = y.
Proof.
  intros Hx Hy Heq.
  rewrite <- (Ascii.N_ascii_embedding x Hx), <- (Ascii.N_ascii_embedding y Hy).
  by rewrite Heq.
Qed.

Lemma bytes_be_inj_mod (n : nat) (a b : Z) :
  bytes_be n a = bytes_be n b -> a mod 256 ^ Z.of_nat n = b mod 256 ^ Z.of_nat n.
Proof.
  induction n as [| n IH]; intros Heq.
  - by rewrite !Z.mod_1_r.
  - cbn [bytes_be] in Heq. injection Heq as Hhead Htail.
    apply IH in Htail.
    apply ascii_of_N_inj in Hhead.
    + apply Z2N.inj in Hhead; try (apply Z.mod_pos_bound; lia).
      rewrite Nat2Z.inj_succ, Z.pow_succ_r by lia.
      rewrite (Z.mul_comm 256).
      assert (Hpos : 0 < 256 ^ Z.of_nat n) by (apply Z.pow_pos_nonneg; lia).
      rewrite !Z.rem_mul_r by lia.
      by rewrite Hhead, Htail.
    + pose proof (Z.mod_pos_bound (a / 256 ^ Z.of_nat n) 256). lia.
    + pose proof (Z.mod_pos_bound (b / 256 ^ Z.of_nat n) 256). lia.
Qed.

Lemma bytes_be_32_inj (a b : Bytes32) :
  is_bytes32 a -> is_bytes32 b -> bytes_be 32 a = bytes_be 32 b -> a = b.
Proof.
  unfold is_bytes32. intros Ha Hb Heq.
  apply bytes_be_inj_mod in Heq.
  change (256 ^ Z.of_nat 32) with (2 ^ 256) in Heq.
  by rewrite !Z.mod_small in Heq.
Qed.

Lemma promptCacheKey_inj (a b : Bytes32) (p q : Z) :
  is_bytes32 a -> is_bytes32 b -> 0 <= p -> 0 <= q ->
  promptCacheKey a p = promptCacheKey b q -> a = b /\ p = q.
Proof.
  intros Ha Hb Hp Hq Heq. unfold promptCacheKey in Heq.
  apply String_app_inj in Heq as [Hbytes Hrest];
    [| by rewrite !bytes_be_length].
  split; [by apply bytes_be_32_inj |].
  apply (String_app_inj "-" "-") in Hrest as [_ Hdec]; [| done].
  apply (inj pretty) in Hdec. lia.
Qed.

(** ** A cached prompt survives what does not concern it *)

Section CacheTraceFacts.
Import LRU LRUFacts.
Implicit Types (db : UsageDb) (addr : Bytes32) (op : UsageOp).

Lemma applyUsageOp_cache_size db op :
  size (promptCache (applyUsageOp db op)) = size (promptCache db).
Proof.
  destruct op as [a | now a ev | now a ev | block | now]; try reflexivity.
  - cbn [applyUsageOp StorePromptPaidData promptCache]. unfold Add.
    destruct (find _ _); [done |]. by destruct (_ && _).
  - cbn [applyUsageOp]. unfold StorePromptConsumedData.
    destruct (bool_decide _); by destruct (Peek _ _ _).
Qed.

Lemma StorePromptConsumedData_cache now db addr ev :
  promptCache (fst (StorePromptConsumedData now db addr ev))
  = match Peek now (promptCacheKey addr (PromptConsumed_PromptID ev)) (promptCache db) with
    | Some _ => Remove (promptCacheKey addr (PromptConsumed_PromptID ev)) (promptCache db)
    | None => promptCache db
    end.
Proof.
  unfold StorePromptConsumedData.
  destruct (bool_decide _); by destruct (Peek _ _ _).
Qed.

Lemma applyUsageOp_cache_length db op :
  (length (evictList (promptCache (applyUsageOp db op)))
   <= length (evictList (promptCache db)) + (if isPaid op then 1 else 0))%nat.
Proof.
  destruct op as [a | now a ev | now a ev | block | now];
    cbn [applyUsageOp isPaid StoreAgent StorePromptPaidData
         UsageDb_SetLastIndexedBlock promptCache]; try lia.
  - unfold Add.
    destruct (find _ _) as [e |] eqn:E.
    + cbn [evictList length]. apply find_Some_length_remove_key in E. lia.
    + destruct (_ && _); cbn [evictList]; [| cbn [length]; lia].
      unfold removeOldest.
      pose proof (length_removelast_le
                    (mkEntry (promptCacheKey a (PromptPaid_PromptID ev))
                       (mkCacheData (PromptPaid_TweetID ev) (PromptPaid_Prompt ev))
                       (now + ttl (promptCache db)) :: evictList (promptCache db))) as Hl.
      cbn [length] in *. lia.
  - rewrite StorePromptConsumedData_cache.
    destruct (Peek _ _ _); [| lia].
    cbn [Remove evictList].
    pose proof (length_remove_key (V := PromptCacheData)
                  (promptCacheKey a (PromptConsumed_PromptID ev))
                  (evictList (promptCache db))). lia.
  - cbn [deleteExpired evictList].
    pose proof (List.filter_length_le
                  (fun e : Entry PromptCacheData => negb (ExpiresAt e <? now))
                  (evictList (promptCache db))). lia.
Qed.

Lemma find_cons_other (k : string) (x : Entry PromptCacheData)
    (l : list (Entry PromptCacheData)) :
  Key x <> k -> find k (x :: l) = find k l.
Proof.
  intros Hne. unfold find, has_key. cbn [List.find].
  by rewrite bool_decide_eq_false_2.
Qed.

Lemma applyUsageOp_keeps_entry db op addr (p : Z) (e : Entry PromptCacheData) :
  is_bytes32 addr -> 0 <= p ->
  find (promptCacheKey addr p) (evictList (promptCache db)) = Some e ->
  leavesAlone addr p (ExpiresAt e) op ->
  Z.of_nat (length (evictList (promptCache db))) + (if isPaid op then 1 else 0)
  <= size (promptCache db) ->
  find (promptCacheKey addr p) (evictList (promptCache (applyUsageOp db op))) = Some e.
Proof.
  intros Haddr Hp Hfind Halone Hroom.
  destruct op as [a | now a ev | now a ev | block | now];
    cbn [applyUsageOp StoreAgent StorePromptPaidData UsageDb_SetLastIndexedBlock
         promptCache]; try exact Hfind.
  - destruct Halone as (Ha & Hq & Hne). cbn [isPaid] in Hroom.
    assert (Hk : promptCacheKey a (PromptPaid_PromptID ev) <> promptCacheKey addr p).
    { intros Heq. apply promptCacheKey_inj in Heq as [E1 E2]; try done.
      apply Hne. by f_equal. }
    unfold Add. destruct (find (promptCacheKey a _) _) as [old |] eqn:E.
    + cbn [evictList]. rewrite find_cons_other by done.
      rewrite find_remove_key_other by done. exact Hfind.
    + rewrite (proj2 (andb_false_iff _ _)).
      * cbn [evictList]. by rewrite find_cons_other.
      * right. apply Z.ltb_ge. cbn [length]. lia.
  - destruct Halone as (Ha & Hq & Hne).
    assert (Hk : promptCacheKey a (PromptConsumed_PromptID ev) <> promptCacheKey addr p).
    { intros Heq. apply promptCacheKey_inj in Heq as [E1 E2]; try done.
      apply Hne. by f_equal. }
    rewrite StorePromptConsumedData_cache.
    destruct (Peek _ _ _); [| exact Hfind].
    cbn [Remove evictList]. by rewrite find_remove_key_other.
  - cbn [leavesAlone] in Halone. cbn [deleteExpired evictList].
    apply find_filter_keep; [exact Hfind |].
    by rewrite (proj2 (Z.ltb_ge _ _)) by lia.
Qed.

Lemma runUsageOps_keeps_entry (ops : list UsageOp) db addr (p : Z)
    (e : Entry PromptCacheData) :
  is_bytes32 addr -> 0 <= p ->
  find (promptCacheKey addr p) (evictList (promptCache db)) = Some e ->
  Forall (leavesAlone addr p (ExpiresAt e)) ops ->
  Z.of_nat (length (evictList (promptCache db))) + Z.of_nat (paidCount ops)
  <= size (promptCache db) ->
  find (promptCacheKey addr p) (evictList (promptCache (runUsageOps db ops))) = Some e.
Proof.
  intros Haddr Hp. revert db.
  induction ops as [| op ops IH]; intros db Hfind Halone Hroom; [exact Hfind |].
  change (runUsageOps db (op :: ops)) with (runUsageOps (applyUsageOp db op) ops).
  apply Forall_cons in Halone as [Hop Hops].
  assert (Hcount : paidCount (op :: ops)
                   = ((if isPaid op then 1 else 0) + paidCount ops)%nat).
  { unfold paidCount. cbn [List.filter]. by destruct (isPaid op). }
  pose proof (applyUsageOp_cache_length db op) as Hlen.
  apply IH.
  - apply applyUsageOp_keeps_entry; try done. destruct (isPaid op); lia.
  - exact Hops.
  - rewrite applyUsageOp_cache_size. destruct (isPaid op); lia.
Qed.

(** without a payment for it, a prompt has no cache entry *)
Lemma applyUsageOp_no_entry db op (k : string) :
  find k (evictList (promptCache db)) = None ->
  (forall now a ev, op = OpStorePromptPaidData now a ev ->
                    promptCacheKey a (PromptPaid_PromptID ev) <> k) ->
  find k (evictList (promptCache (applyUsageOp db op))) = None.
Proof.
  intros Hfind Hop.
  destruct op as [a | now a ev | now a ev | block | now];
    cbn [applyUsageOp StoreAgent StorePromptPaidData UsageDb_SetLastIndexedBlock
         promptCache]; try exact Hfind.
  - specialize (Hop now a ev eq_refl).
    unfold Add. destruct (find (promptCacheKey a _) _) as [old |] eqn:E.
    + cbn [evictList]. rewrite find_cons_other by done.
      by apply find_filter_None.
    + destruct (_ && _); cbn [evictList].
      * apply find_removelast_None. by rewrite find_cons_other.
      * by rewrite find_cons_other.
  - rewrite StorePromptConsumedData_cache.
    destruct (Peek _ _ _); [| exact Hfind].
    cbn [Remove evictList]. by apply find_filter_None.
  - cbn [deleteExpired evictList]. by apply find_filter_None.
Qed.

Lemma runUsageOps_no_entry (ops : list UsageOp) db (k : string) :
  find k (evictList (promptCache db)) = None ->
  (forall now a ev, In (OpStorePromptPaidData now a ev) ops ->
                    promptCacheKey a (PromptPaid_PromptID ev) <> k) ->
  find k (evictList (promptCache (runUsageOps db ops))) = None.
Proof.
  revert db. induction ops as [| op ops IH]; intros db Hfind Hops; [exact Hfind |].
  change (runUsageOps db (op :: ops)) with (runUsageOps (applyUsageOp db op) ops).
  apply IH.
  - apply applyUsageOp_no_entry; [exact Hfind |].
    intros now a ev ->. apply (Hops now). by left.
  - intros now a ev Hin. apply (Hops now). by right.
Qed.

End CacheTraceFacts.

(** ** Correlating payments and consumptions *)

Lemma StorePromptConsumedData_last now (db : UsageDb) (addr : Bytes32)
    (ev : PromptConsumedEvent) :
  0 < maxPrompts db ->
  last (LatestPrompts
          (getOrCreateAgentUsage (fst (StorePromptConsumedData now db addr ev)) addr))
  = Some (consumedEntry now db addr ev).
Proof.
  intros HK.
  rewrite (getOrCreateAgentUsage_Some _ _ _ (StorePromptConsumedData_usage now db addr ev)).
  cbn [LatestPrompts].
  destruct (Z.ltb_spec (maxPrompts db)
              (Z.of_nat (length (LatestPrompts (getOrCreateAgentUsage db addr)
                                  ++ [consumedEntry now db addr ev])))) as [Hlt | Hge];
    [| apply last_snoc].
  destruct (LatestPrompts (getOrCreateAgentUsage db addr)) as [| o os].
  - cbn [app length] in Hlt. lia.
  - cbn [app drop]. apply last_snoc.
Qed.

Lemma StorePromptConsumedData_hit now (db : UsageDb) (addr : Bytes32)
    (ev : PromptConsumedEvent) (data : PromptCacheData) :
  LRU.Peek now (promptCacheKey addr (PromptConsumed_PromptID ev)) (promptCache db)
  = Some data ->
  cachedPromptData now db addr ev = data /\
  snd (StorePromptConsumedData now db addr ev) = [] /\
  promptCache (fst (StorePromptConsumedData now db addr ev))
  = LRU.Remove (promptCacheKey addr (PromptConsumed_PromptID ev)) (promptCache db).
Proof.
  intros Hpeek. rewrite StorePromptConsumedData_cache.
  unfold cachedPromptData, StorePromptConsumedData. rewrite Hpeek.
  by destruct (bool_decide _).
Qed.

Lemma StorePromptConsumedData_miss now (db : UsageDb) (addr : Bytes32)
    (ev : PromptConsumedEvent) :
  LRU.Peek now (promptCacheKey addr (PromptConsumed_PromptID ev)) (promptCache db)
  = None ->
  cachedPromptData now db addr ev = mkCacheData 0 EmptyString /\
  snd (StorePromptConsumedData now db addr ev)
  = [slog_Error "prompt not found in cache"] /\
  promptCache (fst (StorePromptConsumedData now db addr ev)) = promptCache db.
Proof.
  intros Hpeek. rewrite StorePromptConsumedData_cache.
  unfold cachedPromptData, StorePromptConsumedData. rewrite Hpeek.
  by destruct (bool_decide _).
Qed.

(** C4. A payment for prompt [p] of agent [addr] at [t1], then operations
    that leave its cache entry alone and do not overfill the cache, then a
    consumption of the same prompt at [t2] within the time to live: the
    entry appended to the agent's history carries the tweet id and the
    prompt of the payment, nothing is logged, and the cache entry is gone,
    so that a further consumption of the same prompt finds none. *)
Theorem paid_then_consumed_roundtrip :
  forall (t1 t2 : Z) (db : UsageDb) (addr : Bytes32) (paid : PromptPaidEvent)
         (consumed : PromptConsumedEvent) (between : list UsageOp),
    let p := PromptPaid_PromptID paid in
    let db1 := StorePromptPaidData t1 db addr paid in
    let db2 := runUsageOps db1 between in
    let db3 := fst (StorePromptConsumedData t2 db2 addr consumed) in
    let entry := consumedEntry t2 db2 addr consumed in
    is_bytes32 addr -> 0 <= p ->
    PromptConsumed_PromptID consumed = p ->
    t2 <= t1 + LRU.ttl (promptCache db) ->
    Forall (leavesAlone addr p (t1 + LRU.ttl (promptCache db))) between ->
    Z.of_nat (length (LRU.evictList (promptCache db1))) + Z.of_nat (paidCount between)
    <= LRU.size (promptCache db) ->
    LRU.Peek t2 (promptCacheKey addr p) (promptCache db2)
    = Some (mkCacheData (PromptPaid_TweetID paid) (PromptPaid_Prompt paid)) /\
    PromptID entry = p /\
    TweetID entry = PromptPaid_TweetID paid /\
    Prompt entry = PromptPaid_Prompt paid /\
    snd (StorePromptConsumedData t2 db2 addr consumed) = [] /\
    (0 < maxPrompts db ->
     last (LatestPrompts (getOrCreateAgentUsage db3 addr)) = Some entry) /\
    (forall t, LRU.Peek t (promptCacheKey addr p) (promptCache db3) = None) /\
    (forall t again,
        PromptConsumed_PromptID again = p ->
        TweetID (consumedEntry t db3 addr again) = 0 /\
        Prompt (consumedEntry t db3 addr again) = EmptyString /\
        snd (StorePromptConsumedData t db3 addr again)
        = [slog_Error "prompt not found in cache"]).
Proof.
  intros t1 t2 db addr paid consumed between p db1 db2 db3 entry
         Haddr Hp Hid Httl Halone Hroom.
  set (data := mkCacheData (PromptPaid_TweetID paid) (PromptPaid_Prompt paid)).
  set (e := LRU.mkEntry (promptCacheKey addr p) data (t1 + LRU.ttl (promptCache db))).
  assert (Hfind1 : LRU.find (promptCacheKey addr p) (LRU.evictList (promptCache db1))
                   = Some e).
  { apply LRUFacts.find_Add_same. }
  assert (Hsize1 : LRU.size (promptCache db1) = LRU.size (promptCache db)).
  { apply (applyUsageOp_cache_size db (OpStorePromptPaidData t1 addr paid)). }
  assert (Hfind2 : LRU.find (promptCacheKey addr p) (LRU.evictList (promptCache db2))
                   = Some e).
  { apply runUsageOps_keeps_entry; try done. by rewrite Hsize1. }
  assert (Hpeek : LRU.Peek t2 (promptCacheKey addr p) (promptCache db2) = Some data).
  { unfold LRU.Peek. rewrite Hfind2. subst e. cbn [LRU.ExpiresAt LRU.Value].
    by rewrite (proj2 (Z.ltb_ge _ _)) by lia. }
  assert (Hpeek' : LRU.Peek t2
                     (promptCacheKey addr (PromptConsumed_PromptID consumed))
                     (promptCache db2) = Some data) by (by rewrite Hid).
  destruct (StorePromptConsumedData_hit t2 db2 addr consumed data Hpeek')
    as (Hdata & Hlogs & Hcache).
  assert (Hgone : forall t, LRU.Peek t (promptCacheKey addr p) (promptCache db3) = None).
  { intros t. subst db3. rewrite Hcache, Hid. apply LRUFacts.Peek_Remove_same. }
  split; [exact Hpeek |].
  split; [subst entry; unfold consumedEntry; by cbn [PromptID] |].
  split; [subst entry; unfold consumedEntry; cbn [TweetID]; by rewrite Hdata |].
  split; [subst entry; unfold consumedEntry; cbn [Prompt]; by rewrite Hdata |].
  split; [exact Hlogs |].
  split.
  { intros HK. apply StorePromptConsumedData_last.
    subst db2. by rewrite runUsageOps_maxPrompts. }
  split; [exact Hgone |].
  intros t again Hagain.
  destruct (StorePromptConsumedData_miss t db3 addr again) as (Hmiss & Hlog & _).
  { rewrite Hagain. apply Hgone. }
  unfold consumedEntry. cbn [TweetID Prompt]. by rewrite Hmiss.
Qed.

(** C5. A consumption whose prompt has no live cache entry is recorded all
    the same.  Read back with [GetAgentUsage], the agent's counter is one
    more than the counter read before (1 for an agent that had no entry),
    and its history is the history read before followed by an entry with
    the prompt id of the event, tweet id 0 and the empty prompt (without its
    oldest entry when that exceeds [maxPrompts]); an error is logged and the
    cache is left as it was.  This is the case when the prompt was never
    paid for, and when the payment has outlived its time to live.  A lone
    consumption of prompt 42 of agent [addr] drained to [addr] itself leaves
    one attempt and the entry [{42, 0, "", false, 0}]. *)
Theorem consumed_without_cached_prompt :
  forall (now : Z) (db : UsageDb) (addr : Bytes32) (ev : PromptConsumedEvent)
         (stored : option AgentUsage),
    let key := promptCacheKey addr (PromptConsumed_PromptID ev) in
    let attempts := match stored with Some usage => BreakAttempts usage | None => 0 end in
    let history := match stored with Some usage => LatestPrompts usage | None => [] end in
    let drained := match stored with Some usage => IsDrained usage | None => false end in
    let succeeded :=
      negb (bool_decide (Felt_Bytes (PromptConsumed_DrainedTo ev) = addr)) in
    let entry :=
      mkLatestPrompt (PromptConsumed_PromptID ev) 0 EmptyString succeeded
        (if succeeded then PromptConsumed_DrainedTo ev else Felt_zero) in
    GetAgentUsage db addr = stored ->
    LRU.Peek now key (promptCache db) = None ->
    0 <= attempts < 2 ^ 64 - 1 ->
    (exists usage',
        GetAgentUsage (fst (StorePromptConsumedData now db addr ev)) addr
        = Some usage' /\
        BreakAttempts usage' = attempts + 1 /\
        (Z.of_nat (length history) < maxPrompts db ->
         LatestPrompts usage' = history ++ [entry]) /\
        (maxPrompts db <= Z.of_nat (length history) ->
         LatestPrompts usage' = drop 1 (history ++ [entry])) /\
        (0 < maxPrompts db -> last (LatestPrompts usage') = Some entry) /\
        IsDrained usage' = (succeeded || drained)%bool) /\
    snd (StorePromptConsumedData now db addr ev)
    = [slog_Error "prompt not found in cache"] /\
    promptCache (fst (StorePromptConsumedData now db addr ev)) = promptCache db /\
    (forall (initialBlock K : Z) (history : list UsageOp),
        Forall wfOp history -> is_bytes32 addr -> 0 <= PromptConsumed_PromptID ev ->
        (forall t a paid, In (OpStorePromptPaidData t a paid) history ->
                          (a, PromptPaid_PromptID paid)
                          <> (addr, PromptConsumed_PromptID ev)) ->
        LRU.Peek now key
          (promptCache
             (runUsageOps (NewAgentUsageIndexerDatabaseInMemory initialBlock K) history))
        = None) /\
    (forall (t1 : Z) (db0 : UsageDb) (paid : PromptPaidEvent),
        PromptPaid_PromptID paid = PromptConsumed_PromptID ev ->
        t1 + LRU.ttl (promptCache db0) < now ->
        LRU.Peek now key (promptCache (StorePromptPaidData t1 db0 addr paid)) = None) /\
    (forall (initialBlock K : Z),
        0 < K ->
        GetAgentUsage
          (fst (StorePromptConsumedData now
                  (NewAgentUsageIndexerDatabaseInMemory initialBlock K) addr
                  (mkPromptConsumed 42 addr)))
          addr
        = Some (mkAgentUsage 1 [mkLatestPrompt 42 0 EmptyString false 0] false)).
Proof.
  intros now db addr ev stored key attempts history drained succeeded entry
         Hget Hpeek HBA.
  destruct (StorePromptConsumedData_miss now db addr ev Hpeek) as (Hdata & Hlog & Hcache).
  pose proof (StorePromptConsumedData_usage now db addr ev) as Hu. cbv zeta in Hu.
  assert (Hentry : consumedEntry now db addr ev = entry).
  { unfold consumedEntry. by rewrite Hdata. }
  assert (Hbefore : getOrCreateAgentUsage db addr
                    = mkAgentUsage attempts history drained).
  { subst attempts history drained. rewrite <- Hget.
    unfold getOrCreateAgentUsage, GetAgentUsage.
    by destruct (usages db !! addr) as [[? ? ?] |]. }
  rewrite Hentry, Hbefore in Hu. cbn [BreakAttempts LatestPrompts IsDrained] in Hu.
  split.
  { eexists. split; [exact Hu |]. cbn [BreakAttempts LatestPrompts IsDrained].
    split; [unfold u64; apply Z.mod_small; u64_lia |].
    split.
    { intros Hfits. rewrite (proj2 (Z.ltb_ge _ _)); [done |].
      rewrite length_app. cbn [length]. lia. }
    split.
    { intros Hfull. rewrite (proj2 (Z.ltb_lt _ _)); [done |].
      rewrite length_app. cbn [length]. lia. }
    split.
    { intros HK.
      destruct (Z.ltb_spec (maxPrompts db) (Z.of_nat (length (history ++ [entry]))))
        as [Hlt | Hge]; [| apply last_snoc].
      destruct history as [| o os].
      - cbn [app length] in Hlt. lia.
      - cbn [app drop]. apply last_snoc. }
    subst entry. cbn [IsSuccess]. by destruct succeeded. }
  split; [exact Hlog |].
  split; [exact Hcache |].
  split.
  { intros initialBlock K ops Hwf Haddr Hid Hnopay.
    apply LRUFacts.Peek_find_None. apply runUsageOps_no_entry; [reflexivity |].
    intros t a paid Hin Heq.
    rewrite List.Forall_forall in Hwf.
    pose proof (Hwf _ Hin) as Hop. unfold wfOp in Hop. cbn [opPrompt] in Hop.
    destruct Hop as [Ha Hq].
    apply promptCacheKey_inj in Heq as [E1 E2]; try done.
    apply (Hnopay t a paid Hin). by f_equal. }
  split.
  { intros t1 db0 paid Hsame Hlate. subst key. rewrite <- Hsame.
    by apply LRUFacts.Peek_Add_expired. }
  intros initialBlock K HK.
  rewrite StorePromptConsumedData_usage.
  rewrite getOrCreateAgentUsage_New.
  unfold consumedEntry, cachedPromptData, Felt_Bytes.
  cbn [PromptConsumed_DrainedTo PromptConsumed_PromptID BreakAttempts
       LatestPrompts IsDrained IsSuccess maxPrompts
       NewAgentUsageIndexerDatabaseInMemory promptCache app length].
  rewrite bool_decide_eq_true_2 by done. cbn [negb].
  rewrite (proj2 (Z.ltb_ge K (Z.of_nat 1))) by lia.
  reflexivity.
Qed.

(** ** Registration and usage *)

Lemma applyUsageOp_entry (db : UsageDb) (op : UsageOp) (addr : Bytes32) :
  is_Some (GetAgentUsage (applyUsageOp db op) addr) <->
  is_Some (GetAgentUsage db addr) \/ createsUsageFor op = Some addr.
Proof.
  unfold GetAgentUsage.
  destruct op as [a | now a ev | now a ev | block | now];
    cbn [applyUsageOp StoreAgent StorePromptPaidData UsageDb_SetLastIndexedBlock
         usages createsUsageFor];
    try (split; [by left | by intros [? | ?]]).
  - destruct (decide (a = addr)) as [-> | Hne].
    + rewrite lookup_insert_eq. split; [by right | done].
    + rewrite lookup_insert_ne by done.
      split; [by left | intros [? | [= ?]]; done].
  - destruct (StorePromptConsumedData_usages now db a ev) as [u ->].
    destruct (decide (a = addr)) as [-> | Hne].
    + rewrite lookup_insert_eq. split; [by right | done].
    + rewrite lookup_insert_ne by done.
      split; [by left | intros [? | [= ?]]; done].
Qed.

Lemma runUsageOps_entry (ops : list UsageOp) (db : UsageDb) (addr : Bytes32) :
  is_Some (GetAgentUsage (runUsageOps db ops) addr) <->
  is_Some (GetAgentUsage db addr) \/
  exists op, In op ops /\ createsUsageFor op = Some addr.
Proof.
  revert db. induction ops as [| op ops IH]; intros db.
  - split; [by left | by intros [? | (? & [] & _)]].
  - change (runUsageOps db (op :: ops)) with (runUsageOps (applyUsageOp db op) ops).
    rewrite IH, applyUsageOp_entry. split.
    + intros [[Hold | Hop] | (op' & Hin & Hop')].
      * by left.
      * right. exists op. split; [by left | done].
      * right. exists op'. split; [by right | done].
    + intros [Hold | (op' & [<- | Hin] & Hop')].
      * left. by left.
      * left. by right.
      * right. by exists op'.
Qed.

Lemma runSystem_usageDb {decode : EventDecoder} (ops : list SystemOp) (s : Projections) :
  usageDb (runSystem s ops) = runUsageOps (usageDb s) (usageOpsOf ops).
Proof.
  revert s. induction ops as [| op ops IH]; intros s; [done |].
  change (runSystem s (op :: ops)) with (runSystem (applySystemOp s op) ops).
  rewrite IH. by destruct op.
Qed.

Lemma In_usageOpsOf (ops : list SystemOp) (u : UsageOp) :
  In u (usageOpsOf ops) <-> In (SysUsage u) ops.
Proof.
  unfold usageOpsOf. rewrite in_flat_map. split.
  - intros (op & Hin & Hu). destruct op as [ev | u']; [done |].
    destruct Hu as [-> | []]. exact Hin.
  - intros Hin. exists (SysUsage u). split; [exact Hin | by left].
Qed.

(** C2 (as the code has it). The usage projection never consults the agent
    projection: after any sequence of operations on the two projections it
    holds an entry for an address exactly when it held one before or a
    [StoreAgent] or [StorePromptConsumedData] for that address is among the
    operations, whether or not the address was ever registered; its state
    is that of running the usage operations alone. *)
Theorem usage_entry_iff_created :
  forall {decode : EventDecoder} (s : Projections) (ops : list SystemOp) (addr : Bytes32),
    (is_Some (GetAgentUsage (usageDb (runSystem s ops)) addr) <->
     is_Some (GetAgentUsage (usageDb s) addr) \/
     exists op, In (SysUsage op) ops /\ createsUsageFor op = Some addr) /\
    usageDb (runSystem s ops) = runUsageOps (usageDb s) (usageOpsOf ops).
Proof.
  intros D s ops addr. split; [| apply runSystem_usageDb].
  rewrite runSystem_usageDb, runUsageOps_entry.
  split; (intros [Hold | (op & Hin & Hop)]; [by left | right; exists op]);
    split; try done; by apply In_usageOpsOf.
Qed.

(** ** The page that is lost *)

Section PageAtLargeLimit.
Import Example MoreExamples.

(** C7. After [creatorC1] registered [agentA1] and then [agentA2], the
    creator index lists them in that order and the page of one agent from
    position 1 is [agentA2] with count 2.  With the limit 2^64 - 1 the
    positions [1, min (1 + limit) 2) are the same page, but the uint64 sum
    [start + limit] wraps around to 0, the bound [end] stays below [start],
    and [GetAgentsByCreator] aborts instead of returning the page. *)
Theorem GetAgentsByCreator_page_lost_on_wrap :
  let limit := 2 ^ 64 - 1 in
  is_u64 1 /\ is_u64 limit /\
  GetAddressesByCreator (db agentIndexer2) (Felt_Bytes creatorC1)
  = [Felt_Bytes agentA1; Felt_Bytes agentA2] /\
  slice [Felt_Bytes agentA1; Felt_Bytes agentA2] 1 (Z.min (1 + limit) 2)
  = [Felt_Bytes agentA2] /\
  (exists page,
      GetAgentsByCreator agentIndexer2 creatorC1 1 1 = (Returns (Some page), []) /\
      map Address (Agents page) = [Some agentA2] /\
      AgentCount page = 2) /\
  u64 (1 + limit) = 0 /\
  GetAgentsByCreator agentIndexer2 creatorC1 1 limit = (Panics, []).
Proof.
  intros limit. subst limit.
  split; [vm_compute; split; [discriminate | reflexivity] |].
  split; [vm_compute; split; [discriminate | reflexivity] |].
  split; [vm_compute; reflexivity |].
  split; [vm_compute; reflexivity |].
  split.
  { eexists. split; [vm_compute; reflexivity |]. split; reflexivity. }
  split; vm_compute; reflexivity.
Qed.

End PageAtLargeLimit.

(** ** Concrete runs *)

Section Witnesses.
Import Example.

(** the invariant fails after a single consumption for an address that was
    never registered *)
Lemma usage_entry_without_registration :
  ~ registrationPrecedesUsage registry
      [SysUsage (OpStorePromptConsumedData 100 agentA1 (mkPromptConsumed 42 agentA1))]
      (runSystem projections0
         [SysUsage (OpStorePromptConsumedData 100 agentA1 (mkPromptConsumed 42 agentA1))]).
Proof.
  intros Hinv.
  destruct (Hinv agentA1) as [Hinfo | (ev & registered & Hin & _)].
  - vm_compute. by eexists.
  - vm_compute in Hinfo. discriminate.
  - destruct Hin as [Heq | []]. discriminate.
Qed.


Lemma onTokenRemoved_keeps_rate_run :
  GetTokenRate (fst (onTokenRemoved tokenIndexer1 (tokenRemoved registry))) tokenT1
  = Returns (Some 2000000000000000000, true) /\
  GetTokenMinPromptPrice (fst (onTokenRemoved tokenIndexer1 (tokenRemoved registry)))
    tokenT1
  = Returns (Some 0, true).
Proof.
  destruct (onTokenRemoved_keeps_rate (decode := decoder) tokenIndexer1
              (tokenRemoved registry) (mkTokenRemoved tokenT1) eq_refl eq_refl)
    as (_ & Hmin & Hrate & _).
  split; [apply Hrate; reflexivity | exact Hmin].
Defined.

Lemma paid_then_consumed_roundtrip_run :
  let db2 :=
    runUsageOps (StorePromptPaidData 100 usageDb0 agentA1 (mkPromptPaid 1 555 "hi"))
      [OpStorePromptPaidData 110 agentA1 (mkPromptPaid 2 556 "ho");
       OpSweepPromptCache 120;
       OpStorePromptConsumedData 130 agentA1 (mkPromptConsumed 2 agentA1)] in
  TweetID (consumedEntry 200 db2 agentA1 (mkPromptConsumed 1 agentA1)) = 555 /\
  Prompt (consumedEntry 200 db2 agentA1 (mkPromptConsumed 1 agentA1)) = "hi".
Proof.
  intros db2.
  destruct (paid_then_consumed_roundtrip 100 200 usageDb0 agentA1
              (mkPromptPaid 1 555 "hi") (mkPromptConsumed 1 agentA1)
              [OpStorePromptPaidData 110 agentA1 (mkPromptPaid 2 556 "ho");
               OpSweepPromptCache 120;
               OpStorePromptConsumedData 130 agentA1 (mkPromptConsumed 2 agentA1)])
    as (_ & _ & Htweet & Hprompt & _).
  - vm_compute. split; [discriminate | reflexivity].
  - vm_compute. discriminate.
  - reflexivity.
  - vm_compute. discriminate.
  - repeat constructor; vm_compute; try discriminate; congruence.
  - vm_compute. discriminate.
  - split; [exact Htweet | exact Hprompt].
Defined.

Lemma consumed_without_cached_prompt_run :
  let db1 :=
    runUsageOps usageDb0
      [OpStorePromptConsumedData 10 agentA1 (mkPromptConsumed 1 agentA1);
       OpStorePromptConsumedData 20 agentA1 (mkPromptConsumed 2 agentA1)] in
  GetAgentUsage db1 agentA1
  = Some (mkAgentUsage 2 [mkLatestPrompt 1 0 EmptyString false 0;
                          mkLatestPrompt 2 0 EmptyString false 0] false) /\
  exists usage',
    GetAgentUsage (fst (StorePromptConsumedData 30 db1 agentA1
                          (mkPromptConsumed 42 agentA1))) agentA1 = Some usage' /\
    BreakAttempts usage' = 3 /\
    LatestPrompts usage' = [mkLatestPrompt 1 0 EmptyString false 0;
                            mkLatestPrompt 2 0 EmptyString false 0;
                            mkLatestPrompt 42 0 EmptyString false 0] /\
    snd (StorePromptConsumedData 30 db1 agentA1 (mkPromptConsumed 42 agentA1))
    = [slog_Error "prompt not found in cache"].
Proof.
  intros db1.
  assert (Hstored : GetAgentUsage db1 agentA1
                    = Some (mkAgentUsage 2 [mkLatestPrompt 1 0 EmptyString false 0;
                                            mkLatestPrompt 2 0 EmptyString false 0]
                              false))
    by (vm_compute; reflexivity).
  split; [exact Hstored |].
  destruct (consumed_without_cached_prompt 30 db1 agentA1 (mkPromptConsumed 42 agentA1)
              (Some (mkAgentUsage 2 [mkLatestPrompt 1 0 EmptyString false 0;
                                     mkLatestPrompt 2 0 EmptyString false 0] false)))
    as ((usage' & Hget & Hcount & Hfits & _) & Hlog & _).
  - exact Hstored.
  - vm_compute. reflexivity.
  - vm_compute. split; [discriminate | reflexivity].
  - exists usage'. split; [exact Hget |]. split; [exact Hcount |].
    split; [| exact Hlog]. apply Hfits. vm_compute. reflexivity.
Defined.


Lemma GetAgentsByCreator_page_run :
  exists result,
    fst (GetAgentsByCreator
           (fst (onAgentRegistered agentIndexer0 (agentRegistered registry)))
           creatorC1 0 10) = Returns (Some result) /\
    AgentCount result = 1.
Proof.
  destruct (GetAgentsByCreator_page
              (fst (onAgentRegistered agentIndexer0 (agentRegistered registry)))
              creatorC1 0 10)
    as (_ & _ & Hpage).
  - vm_compute. split; [discriminate | reflexivity].
  - vm_compute. split; [discriminate | reflexivity].
  - destruct Hpage as (result & Hres & _ & _ & _ & Hcount & _).
    + vm_compute. reflexivity.
    + vm_compute. reflexivity.
    + exists result. split; [exact Hres | exact Hcount].
Defined.

Lemma spoofed_event_changes_nothing_run :
  fst (onAgentRegistered agentIndexer0 (agentRegistered spoofer)) = agentIndexer0 /\
  fst (onTokenAdded tokenIndexer0 (tokenAdded spoofer)) = tokenIndexer0.
Proof.
  destruct (spoofed_event_changes_nothing (decode := decoder) registry
              agentIndexer0 tokenIndexer0 (agentRegistered spoofer) eq_refl eq_refl)
    as (Hagent & _ & Htoken & _).
  - vm_compute. discriminate.
  - pose proof (spoofed_event_changes_nothing (decode := decoder) registry
                  agentIndexer0 tokenIndexer0 (tokenAdded spoofer) eq_refl eq_refl)
      as Hadded.
    destruct Hadded as (_ & _ & Hadded & _).
    + vm_compute. discriminate.
    + split; [exact Hagent | exact Hadded].
Defined.

Lemma fetched_AgentInfo_is_partial_run :
  exists calls info,
    GetOrFetchAgentInfo agentIndexer0 agentA1 20 = (calls, Returns (info, None)) /\
    Name info = "alice" /\
    PromptPrice info = None /\
    agentData_PromptPrice info = "<nil>".
Proof.
  destruct (fetched_AgentInfo_is_partial agentIndexer0 agentA1 20 AgentInfo_zero
              [mkRpcCall (isAgentRegisteredCall agentIndexer0 agentA1) "latest";
               mkRpcCall (isAgentRegisteredCall agentIndexer0 agentA1) "latest"]
              [mkRpcCall (getNameCall agentA1) "latest";
               mkRpcCall (getNameCall agentA1) "latest"]
              [mkRpcCall (getSystemPromptCall agentA1) "latest";
               mkRpcCall (getSystemPromptCall agentA1) "latest"]
              [] [5; 97; 108; 105; 99; 101] [2; 104; 105] "alice" "hi")
    as (info & Hfetch & _ & Hname & _ & _ & Hprice & _ & _ & Hnil & _);
    try reflexivity.
  eexists _, info. split; [exact Hfetch |]. by repeat split.
Defined.

End Witnesses.

(** * Further properties of the indexer code *)

(** ** The usage database over any sequence of operations *)

Lemma applyUsageOp_usage_step (db : UsageDb) (op : UsageOp) (addr : Bytes32) :
  getOrCreateAgentUsage (applyUsageOp db op) addr
  = match op with
    | OpStorePromptConsumedData now a ev =>
        if bool_decide (a = addr)
        then mkAgentUsage
               (u64 (BreakAttempts (getOrCreateAgentUsage db addr) + 1))
               (let appended := LatestPrompts (getOrCreateAgentUsage db addr)
                                ++ [consumedEntry now db addr ev] in
                if maxPrompts db <? Z.of_nat (length appended)
                then drop 1 appended else appended)
               (if IsSuccess (consumedEntry now db addr ev)
                then true else IsDrained (getOrCreateAgentUsage db addr))
        else getOrCreateAgentUsage db addr
    | _ => getOrCreateAgentUsage db addr
    end.
Proof.
  destruct op as [a | now a ev | now a ev | block | now];
    cbn [applyUsageOp]; try reflexivity.
  - unfold StoreAgent, getOrCreateAgentUsage at 1. cbn [usages].
    destruct (decide (a = addr)) as [-> | Hne].
    + by rewrite lookup_insert_eq.
    + rewrite lookup_insert_ne by done. reflexivity.
  - destruct (bool_decide_reflect (a = addr)) as [-> | Hne].
    + apply getOrCreateAgentUsage_Some, StorePromptConsumedData_usage.
    + pose proof (StorePromptConsumedData_other now db a ev addr Hne) as Ho.
      unfold getOrCreateAgentUsage, GetAgentUsage in *. by rewrite Ho.
Qed.

Lemma u64_idem (z : Z) : u64 (u64 z) = u64 z.
Proof. unfold u64. apply Z.mod_mod. discriminate. Qed.

Lemma u64_succ (z : Z) : u64 (u64 z + 1) = u64 (z + 1).
Proof. unfold u64. apply Zplus_mod_idemp_l. Qed.

Lemma consumedCount_cons (addr : Bytes32) (op : UsageOp) (ops : list UsageOp) :
  consumedCount addr (op :: ops)
  = ((match op with
      | OpStorePromptConsumedData _ a _ => if bool_decide (a = addr) then 1 else 0
      | _ => 0
      end) + consumedCount addr ops)%nat.
Proof.
  unfold consumedCount. cbn [List.filter].
  destruct op as [a | now a ev | now a ev | block | now]; try reflexivity.
  by destruct (bool_decide (a = addr)).
Qed.

Lemma runUsageOps_BreakAttempts (ops : list UsageOp) (db : UsageDb) (addr : Bytes32) :
  BreakAttempts (getOrCreateAgentUsage db addr)
  = u64 (BreakAttempts (getOrCreateAgentUsage db addr)) ->
  BreakAttempts (getOrCreateAgentUsage (runUsageOps db ops) addr)
  = u64 (BreakAttempts (getOrCreateAgentUsage db addr)
         + Z.of_nat (consumedCount addr ops)).
Proof.
  revert db. induction ops as [| op ops IH]; intros db Hrange.
  - cbn. by rewrite Z.add_0_r.
  - change (runUsageOps db (op :: ops)) with (runUsageOps (applyUsageOp db op) ops).
    rewrite consumedCount_cons.
    assert (Hstep : BreakAttempts (getOrCreateAgentUsage (applyUsageOp db op) addr)
                    = u64 (BreakAttempts (getOrCreateAgentUsage db addr)
                           + Z.of_nat (match op with
                                       | OpStorePromptConsumedData _ a _ =>
                                           if bool_decide (a = addr) then 1 else 0
                                       | _ => 0
                                       end))).
    { rewrite applyUsageOp_usage_step.
      destruct op as [a | now a ev | now a ev | block | now];
        rewrite ?Z.add_0_r; try exact Hrange.
      destruct (bool_decide (a = addr)); [reflexivity |].
      by rewrite Z.add_0_r. }
    rewrite IH by (rewrite Hstep; by rewrite u64_idem).
    rewrite Hstep. unfold u64. rewrite Zplus_mod_idemp_l.
    f_equal. lia.
Qed.

(** X1. In any state reached from a new database the break-attempts
    counter of an agent is the number of consumptions applied for it,
    modulo 2^64; no other operation moves it. *)
Theorem BreakAttempts_counts_consumptions :
  forall (initialBlock K : Z) (ops : list UsageOp) (addr : Bytes32),
    BreakAttempts
      (getOrCreateAgentUsage
         (runUsageOps (NewAgentUsageIndexerDatabaseInMemory initialBlock K) ops) addr)
    = u64 (Z.of_nat (consumedCount addr ops)).
Proof.
  intros initialBlock K ops addr.
  rewrite runUsageOps_BreakAttempts; by rewrite getOrCreateAgentUsage_New.
Qed.

(** X2. In any state reached from a new database with a non-negative
    [maxPrompts], no agent's history is longer than [maxPrompts]. *)
Theorem LatestPrompts_never_exceed_maxPrompts :
  forall (initialBlock K : Z) (ops : list UsageOp) (addr : Bytes32)
         (usage : AgentUsage),
    0 <= K ->
    GetAgentUsage
      (runUsageOps (NewAgentUsageIndexerDatabaseInMemory initialBlock K) ops) addr
    = Some usage ->
    Z.of_nat (length (LatestPrompts usage)) <= K.
Proof.
  intros initialBlock K ops addr usage HK Hget.
  pose proof (runUsageOps_bounded ops
                (NewAgentUsageIndexerDatabaseInMemory initialBlock K) HK
                (New_bounded initialBlock K) addr usage Hget) as Hb.
  by rewrite runUsageOps_maxPrompts in Hb.
Qed.

Lemma applyUsageOp_keeps_drained (db : UsageDb) (op : UsageOp) (addr : Bytes32)
    (usage : AgentUsage) :
  GetAgentUsage db addr = Some usage -> IsDrained usage = true ->
  exists usage',
    GetAgentUsage (applyUsageOp db op) addr = Some usage' /\
    IsDrained usage' = true.
Proof.
  intros Hget Hdrained.
  assert (Hsome : is_Some (GetAgentUsage (applyUsageOp db op) addr)).
  { apply applyUsageOp_entry. left. by rewrite Hget. }
  destruct Hsome as [usage' Hget'].
  exists usage'. split; [exact Hget' |].
  rewrite <- (getOrCreateAgentUsage_Some _ _ _ Hget').
  rewrite applyUsageOp_usage_step, (getOrCreateAgentUsage_Some _ _ _ Hget).
  destruct op as [a | now a ev | now a ev | block | now]; try exact Hdrained.
  destruct (bool_decide (a = addr)); [| exact Hdrained].
  cbn [IsDrained]. rewrite Hdrained. by destruct (IsSuccess _).
Qed.

(** X3. Once an agent is drained it stays drained, and its usage entry
    stays, whatever operations follow. *)
Theorem IsDrained_is_terminal :
  forall (ops : list UsageOp) (db : UsageDb) (addr : Bytes32) (usage : AgentUsage),
    GetAgentUsage db addr = Some usage ->
    IsDrained usage = true ->
    exists usage',
      GetAgentUsage (runUsageOps db ops) addr = Some usage' /\
      IsDrained usage' = true.
Proof.
  induction ops as [| op ops IH]; intros db addr usage Hget Hdrained.
  - by exists usage.
  - change (runUsageOps db (op :: ops)) with (runUsageOps (applyUsageOp db op) ops).
    destruct (applyUsageOp_keeps_drained db op addr usage Hget Hdrained)
      as (usage1 & Hget1 & Hdrained1).
    by apply (IH _ _ usage1).
Qed.

(** X4. The cache key of a prompt determines the agent and the prompt id:
    two 32-byte addresses with non-negative prompt ids get the same key
    only if they are the same address and the same id. *)
Theorem promptCacheKey_injective :
  forall (a b : Bytes32) (p q : Z),
    is_bytes32 a -> is_bytes32 b -> 0 <= p -> 0 <= q ->
    (promptCacheKey a p = promptCacheKey b q <-> a = b /\ p = q).
Proof.
  intros a b p q Ha Hb Hp Hq. split.
  - by apply promptCacheKey_inj.
  - by intros [-> ->].
Qed.

(** X5. [StoreAgent] never resets an agent: for an address that has a usage
    entry it changes nothing at all; for a new address it creates the
    empty usage; entries of other addresses are untouched. *)
Theorem StoreAgent_creates_or_keeps :
  forall (db : UsageDb) (addr : Bytes32),
    (forall usage, GetAgentUsage db addr = Some usage -> StoreAgent db addr = db) /\
    (GetAgentUsage db addr = None ->
     GetAgentUsage (StoreAgent db addr) addr = Some (mkAgentUsage 0 [] false)) /\
    (forall other, other <> addr ->
                   GetAgentUsage (StoreAgent db addr) other = GetAgentUsage db other) /\
    StoreAgent (StoreAgent db addr) addr = StoreAgent db addr /\
    GetAgentExists (StoreAgent db addr) addr = true.
Proof.
  intros db addr. unfold GetAgentUsage, GetAgentExists, StoreAgent.
  assert (Hkeep : forall d usage,
             usages d !! addr = Some usage ->
             mkUsageDb (<[addr := getOrCreateAgentUsage d addr]> (usages d))
               (maxPrompts d) (promptCache d) (lastIndexedBlock d) = d).
  { intros d usage Hget. unfold getOrCreateAgentUsage. rewrite Hget.
    rewrite insert_id by done. by destruct d. }
  split; [exact (Hkeep db) |].
  split.
  { intros Hnone. cbn [usages]. unfold getOrCreateAgentUsage.
    by rewrite Hnone, lookup_insert_eq. }
  split.
  { intros other Hne. cbn [usages]. by rewrite lookup_insert_ne. }
  split.
  { eapply Hkeep. cbn [usages]. by rewrite lookup_insert_eq. }
  cbn [usages]. rewrite lookup_insert_eq. by apply bool_decide_eq_true_2.
Qed.

Lemma consumedEntry_IsSuccess now (db : UsageDb) (addr : Bytes32)
    (ev : PromptConsumedEvent) :
  IsSuccess (consumedEntry now db addr ev) = true
  <-> Felt_Bytes (PromptConsumed_DrainedTo ev) <> addr.
Proof.
  unfold consumedEntry. cbn [IsSuccess].
  destruct (bool_decide_reflect (Felt_Bytes (PromptConsumed_DrainedTo ev) = addr));
    cbn [negb]; split; try done.
Qed.

Lemma runUsageOps_IsDrained (ops : list UsageOp) (db : UsageDb) (addr : Bytes32) :
  IsDrained (getOrCreateAgentUsage (runUsageOps db ops) addr) = true <->
  IsDrained (getOrCreateAgentUsage db addr) = true \/
  exists now ev,
    In (OpStorePromptConsumedData now addr ev) ops /\
    Felt_Bytes (PromptConsumed_DrainedTo ev) <> addr.
Proof.
  revert db. induction ops as [| op ops IH]; intros db.
  - split; [by left | by intros [? | (? & ? & [] & _)]].
  - change (runUsageOps db (op :: ops)) with (runUsageOps (applyUsageOp db op) ops).
    rewrite IH, applyUsageOp_usage_step. split.
    + intros [Hstep | (now & ev & Hin & Hne)].
      * destruct op as [a | t a e | t a e | block | t]; try (by left).
        destruct (bool_decide_reflect (a = addr)) as [-> | Hna]; [| by left].
        cbn [IsDrained] in Hstep.
        destruct (IsSuccess (consumedEntry t db addr e)) eqn:Hs; [| by left].
        right. exists t, e. split; [by left |]. by apply consumedEntry_IsSuccess in Hs.
      * right. exists now, ev. split; [by right | done].
    + intros [Hold | (now & ev & [-> | Hin] & Hne)].
      * left. destruct op as [a | t a e | t a e | block | t]; try done.
        destruct (bool_decide (a = addr)); [| done].
        cbn [IsDrained]. rewrite Hold. by destruct (IsSuccess _).
      * left. rewrite bool_decide_eq_true_2 by done. cbn [IsDrained].
        by rewrite (proj2 (consumedEntry_IsSuccess now db addr ev) Hne).
      * right. by exists now, ev.
Qed.

(** X6. In a state reached from a new database an agent is drained exactly
    when a consumption for it whose drain address differs from the agent's
    own address has been applied. *)
Theorem IsDrained_iff_successful_consumption :
  forall (initialBlock K : Z) (ops : list UsageOp) (addr : Bytes32),
    IsDrained
      (getOrCreateAgentUsage
         (runUsageOps (NewAgentUsageIndexerDatabaseInMemory initialBlock K) ops) addr)
    = true <->
    exists now ev,
      In (OpStorePromptConsumedData now addr ev) ops /\
      Felt_Bytes (PromptConsumed_DrainedTo ev) <> addr.
Proof.
  intros initialBlock K ops addr.
  rewrite runUsageOps_IsDrained, getOrCreateAgentUsage_New. cbn [IsDrained].
  split; [by intros [? | ?] | by right].
Qed.

(** what a consumption stores: the entry is the last of the history read
    back with [GetAgentUsage] *)
Lemma StorePromptConsumedData_stored now (db : UsageDb) (addr : Bytes32)
    (ev : PromptConsumedEvent) :
  0 < maxPrompts db ->
  exists usage',
    GetAgentUsage (fst (StorePromptConsumedData now db addr ev)) addr = Some usage' /\
    last (LatestPrompts usage') = Some (consumedEntry now db addr ev).
Proof.
  intros HK. eexists. split; [apply StorePromptConsumedData_usage |].
  pose proof (StorePromptConsumedData_last now db addr ev HK) as Hlast.
  by rewrite (getOrCreateAgentUsage_Some _ _ _
                (StorePromptConsumedData_usage now db addr ev)) in Hlast.
Qed.

(** X7. Two payments for the same prompt of the same agent share one cache
    entry and the later one wins: a consumption within the time to live of
    the later payment stores, as the last entry of the agent's history, an
    entry with the later payment's tweet id and prompt, also when the
    earlier payment is older than the time to live, and it uses the cache
    entry up, so that a second consumption of the prompt logs the miss and
    stores an entry with tweet id 0 and the empty prompt. *)
Theorem later_payment_overwrites :
  forall (t1 t2 t3 : Z) (db : UsageDb) (addr : Bytes32)
         (paid1 paid2 : PromptPaidEvent) (consumed : PromptConsumedEvent),
    let db2 := StorePromptPaidData t2 (StorePromptPaidData t1 db addr paid1) addr paid2 in
    let db3 := fst (StorePromptConsumedData t3 db2 addr consumed) in
    PromptPaid_PromptID paid2 = PromptPaid_PromptID paid1 ->
    PromptConsumed_PromptID consumed = PromptPaid_PromptID paid1 ->
    t3 <= t2 + LRU.ttl (promptCache db) ->
    0 < maxPrompts db ->
    (exists usage entry,
        GetAgentUsage db3 addr = Some usage /\
        last (LatestPrompts usage) = Some entry /\
        PromptID entry = PromptPaid_PromptID paid1 /\
        TweetID entry = PromptPaid_TweetID paid2 /\
        Prompt entry = PromptPaid_Prompt paid2) /\
    snd (StorePromptConsumedData t3 db2 addr consumed) = [] /\
    (forall t again,
        PromptConsumed_PromptID again = PromptPaid_PromptID paid1 ->
        snd (StorePromptConsumedData t db3 addr again)
        = [slog_Error "prompt not found in cache"] /\
        exists usage entry,
          GetAgentUsage (fst (StorePromptConsumedData t db3 addr again)) addr
          = Some usage /\
          last (LatestPrompts usage) = Some entry /\
          PromptID entry = PromptPaid_PromptID paid1 /\
          TweetID entry = 0 /\
          Prompt entry = EmptyString).
Proof.
  intros t1 t2 t3 db addr paid1 paid2 consumed db2 db3 Hsame Hid Httl HK.
  set (data := mkCacheData (PromptPaid_TweetID paid2) (PromptPaid_Prompt paid2)).
  assert (Httl1 : LRU.ttl (promptCache (StorePromptPaidData t1 db addr paid1))
                  = LRU.ttl (promptCache db)).
  { cbn [StorePromptPaidData promptCache]. unfold LRU.Add.
    destruct (LRU.find _ _); [done |]. by destruct (_ && _). }
  assert (Hpeek : LRU.Peek t3
                    (promptCacheKey addr (PromptConsumed_PromptID consumed))
                    (promptCache db2) = Some data).
  { rewrite Hid, <- Hsame. subst db2. cbn [StorePromptPaidData promptCache].
    apply LRUFacts.Peek_Add_same.
    cbn [StorePromptPaidData promptCache] in Httl1. rewrite Httl1. exact Httl. }
  destruct (StorePromptConsumedData_hit t3 db2 addr consumed data Hpeek)
    as (Hdata & Hlog & Hcache).
  assert (HK3 : 0 < maxPrompts db3).
  { subst db3. by rewrite StorePromptConsumedData_maxPrompts. }
  split.
  { destruct (StorePromptConsumedData_stored t3 db2 addr consumed HK)
      as (usage & Hget & Hlast).
    exists usage, (consumedEntry t3 db2 addr consumed).
    split; [exact Hget |]. split; [exact Hlast |].
    unfold consumedEntry. cbn [PromptID TweetID Prompt]. by rewrite Hdata. }
  split; [exact Hlog |].
  intros t again Hagain.
  destruct (StorePromptConsumedData_miss t db3 addr again) as (Hmiss & Hlog' & _).
  { subst db3. rewrite Hcache, Hagain, Hid. apply LRUFacts.Peek_Remove_same. }
  split; [exact Hlog' |].
  destruct (StorePromptConsumedData_stored t db3 addr again HK3)
    as (usage & Hget & Hlast).
  exists usage, (consumedEntry t db3 addr again).
  split; [exact Hget |]. split; [exact Hlast |].
  unfold consumedEntry. cbn [PromptID TweetID Prompt]. by rewrite Hmiss.
Qed.

Lemma applyUsageOp_cache_bounded (db : UsageDb) (op : UsageOp) :
  0 < LRU.size (promptCache db) ->
  Z.of_nat (length (LRU.evictList (promptCache db))) <= LRU.size (promptCache db) ->
  Z.of_nat (length (LRU.evictList (promptCache (applyUsageOp db op))))
  <= LRU.size (promptCache (applyUsageOp db op)).
Proof.
  intros Hpos Hle. rewrite applyUsageOp_cache_size.
  destruct op as [a | now a ev | now a ev | block | now];
    try (pose proof (applyUsageOp_cache_length db (OpStoreAgent a)) as Hl;
         cbn [isPaid] in Hl; cbn [applyUsageOp] in *; lia).
  - cbn [applyUsageOp StorePromptPaidData promptCache]. unfold LRU.Add.
    destruct (LRU.find _ _) as [e |] eqn:E.
    + cbn [LRU.evictList length].
      apply LRUFacts.find_Some_length_remove_key in E. lia.
    + destruct (Z.ltb_spec (LRU.size (promptCache db))
                  (Z.of_nat (length
                     (LRU.mkEntry (promptCacheKey a (PromptPaid_PromptID ev))
                        (mkCacheData (PromptPaid_TweetID ev) (PromptPaid_Prompt ev))
                        (now + LRU.ttl (promptCache db))
                      :: LRU.evictList (promptCache db))))) as [Hlt | Hge].
      * rewrite (proj2 (Z.ltb_lt 0 _) Hpos). cbn [andb LRU.evictList].
        unfold LRU.removeOldest. rewrite removelast_firstn_len, length_take.
        cbn [length] in *. lia.
      * rewrite andb_false_r. cbn [LRU.evictList]. exact Hge.
  - pose proof (applyUsageOp_cache_length db (OpStorePromptConsumedData now a ev)) as Hl.
    cbn [isPaid] in Hl. lia.
  - pose proof (applyUsageOp_cache_length db (OpSetLastIndexedBlock block)) as Hl.
    cbn [isPaid] in Hl. lia.
  - pose proof (applyUsageOp_cache_length db (OpSweepPromptCache now)) as Hl.
    cbn [isPaid] in Hl. lia.
Qed.

(** X8. The prompt cache of a database built from a new one never holds
    more than [agentUsageIndexerPromptCacheSize] (10000) payments. *)
Theorem promptCache_never_exceeds_size :
  forall (initialBlock K : Z) (ops : list UsageOp),
    Z.of_nat
      (length
         (LRU.evictList
            (promptCache
               (runUsageOps (NewAgentUsageIndexerDatabaseInMemory initialBlock K) ops))))
    <= agentUsageIndexerPromptCacheSize.
Proof.
  intros initialBlock K ops.
  assert (Hgen : forall db,
             LRU.size (promptCache db) = agentUsageIndexerPromptCacheSize ->
             Z.of_nat (length (LRU.evictList (promptCache db)))
             <= LRU.size (promptCache db) ->
             Z.of_nat (length (LRU.evictList (promptCache (runUsageOps db ops))))
             <= agentUsageIndexerPromptCacheSize).
  { induction ops as [| op ops IH]; intros db Hsize Hle; [by rewrite <- Hsize |].
    change (runUsageOps db (op :: ops)) with (runUsageOps (applyUsageOp db op) ops).
    apply IH.
    - by rewrite applyUsageOp_cache_size.
    - apply applyUsageOp_cache_bounded; [by rewrite Hsize | exact Hle]. }
  apply Hgen; [reflexivity | cbn; unfold agentUsageIndexerPromptCacheSize; lia].
Qed.

(** ** Eviction from the correlation buffer *)

Module LRUEviction.
Import LRU LRUFacts.

Section WithValue.
Context {V : Type}.
Implicit Types (c : LRU.t V) (l front back : list (LRU.Entry V)) (k : string).

Lemma find_None_keys k l : ~ In k (map Key l) -> find k l = None.
Proof.
  unfold find. induction l as [| x l IH]; [done |].
  cbn [map In List.find]. intros Hnot.
  unfold has_key at 1. rewrite bool_decide_eq_false_2 by tauto.
  apply IH. tauto.
Qed.

Lemma find_app_skip k front l : ~ In k (map Key front) -> find k (front ++ l) = find k l.
Proof.
  unfold find. induction front as [| x front IH]; [done |].
  cbn [map In List.find app]. intros Hnot.
  unfold has_key at 1. rewrite bool_decide_eq_false_2 by tauto.
  apply IH. tauto.
Qed.

Lemma remove_key_app_skip k front l :
  ~ In k (map Key front) -> remove_key k (front ++ l) = front ++ remove_key k l.
Proof.
  unfold remove_key. induction front as [| x front IH]; [done |].
  cbn [map In List.filter app]. intros Hnot.
  unfold has_key at 1. rewrite bool_decide_eq_false_2 by tauto.
  cbn [negb]. f_equal. apply IH. tauto.
Qed.

Lemma find_Add_other_None now k k0 (v : V) c :
  k <> k0 -> find k0 (evictList c) = None -> find k0 (evictList (Add now k v c)) = None.
Proof.
  intros Hne Hnone. unfold Add.
  assert (Hhead : forall rest,
             find k0 (mkEntry k v (now + ttl c) :: rest) = find k0 rest).
  { intros rest. unfold find, has_key. cbn [List.find Key].
    by rewrite bool_decide_eq_false_2. }
  destruct (find k (evictList c)).
  - cbn [evictList]. rewrite Hhead. by apply find_filter_None.
  - destruct (_ && _); cbn [evictList].
    + apply find_removelast_None. by rewrite Hhead.
    + by rewrite Hhead.
Qed.

Lemma Add_size now k (v : V) c : size (Add now k v c) = size c.
Proof. unfold Add. destruct (find _ _); [done |]. by destruct (_ && _). Qed.

Lemma Add_length_bounded now k (v : V) c :
  0 < size c -> Z.of_nat (length (evictList c)) <= size c ->
  Z.of_nat (length (evictList (Add now k v c))) <= size c.
Proof.
  intros Hpos Hle. unfold Add.
  destruct (find k (evictList c)) as [e |] eqn:E.
  - cbn [evictList length]. apply find_Some_length_remove_key in E. lia.
  - destruct (Z.ltb_spec (size c)
                (Z.of_nat (length (mkEntry k v (now + ttl c) :: evictList c))))
      as [Hlt | Hge].
    + rewrite (proj2 (Z.ltb_lt 0 _) Hpos). cbn [andb evictList].
      unfold removeOldest. rewrite removelast_firstn_len, length_take.
      cbn [length] in *. lia.
    + rewrite andb_false_r. cbn [evictList]. exact Hge.
Qed.

(** an added key that is new to the entries in front of [e0] lands in
    front of [e0], or pushes [e0] out *)
Lemma Add_in_front now k (v : V) c front (e0 : LRU.Entry V) back :
  evictList c = front ++ e0 :: back ->
  k <> Key e0 -> ~ In k (map Key front) -> ~ In (Key e0) (map Key front) ->
  find (Key e0) (evictList (Add now k v c)) = None \/
  exists back',
    evictList (Add now k v c) = (mkEntry k v (now + ttl c) :: front) ++ e0 :: back'.
Proof.
  intros Hl Hne Hk Hk0. unfold Add. rewrite Hl.
  rewrite (find_app_skip k front) by done.
  assert (Hskip : find k (e0 :: back) = find k back).
  { unfold find, has_key. cbn [List.find].
    by rewrite bool_decide_eq_false_2 by congruence. }
  rewrite Hskip.
  destruct (find k back) as [old |].
  - right. cbn [evictList]. rewrite remove_key_app_skip by done.
    exists (remove_key k back). cbn [app]. do 2 f_equal.
    unfold remove_key, has_key. cbn [List.filter].
    by rewrite bool_decide_eq_false_2 by congruence.
  - destruct (_ && _); cbn [evictList]; [| right; by exists back].
    unfold removeOldest.
    change (mkEntry k v (now + ttl c) :: front ++ e0 :: back)
      with ((mkEntry k v (now + ttl c) :: front) ++ e0 :: back).
    destruct back as [| b back'].
    + left. rewrite removelast_last. apply find_None_keys.
      cbn [map In Key]. intros [Heq | Hin]; [by apply Hne | by apply Hk0].
    + right. rewrite removelast_app by done.
      change (removelast (e0 :: b :: back')) with (e0 :: removelast (b :: back')).
      by eexists.
Qed.

Lemma LRU_addAll_pushes_back (adds : list (Z * string * V)) c front
    (e0 : LRU.Entry V) back :
  0 < size c -> Z.of_nat (length (evictList c)) <= size c ->
  evictList c = front ++ e0 :: back ->
  ~ In (Key e0) (map Key front) ->
  NoDup (map (fun a => snd (fst a)) adds) ->
  ~ In (Key e0) (map (fun a => snd (fst a)) adds) ->
  (forall k, In k (map (fun a => snd (fst a)) adds) -> ~ In k (map Key front)) ->
  size (LRU_addAll adds c) = size c /\
  Z.of_nat (length (evictList (LRU_addAll adds c))) <= size c /\
  (find (Key e0) (evictList (LRU_addAll adds c)) = None \/
   exists front' back',
     evictList (LRU_addAll adds c) = front' ++ e0 :: back' /\
     length front' = (length front + length adds)%nat).
Proof.
  revert c front back.
  induction adds as [| [[now k] v] adds IH]; intros c front back Hpos Hle Hl Hk0 Hnd Hnot Hfresh.
  - cbn. split; [done |]. split; [done |]. right. exists front, back.
    split; [done | lia].
  - cbn [map fst snd] in Hnd, Hnot, Hfresh.
    apply NoDup_cons in Hnd as [Hk Hnd].
    change (LRU_addAll ((now, k, v) :: adds) c) with (LRU_addAll adds (Add now k v c)).
    assert (Hne : k <> Key e0) by (intros ->; apply Hnot; by left).
    assert (Hnone : forall c', find (Key e0) (evictList c') = None ->
                               find (Key e0) (evictList (LRU_addAll adds c')) = None).
    { clear -Hnot. intros c' Hc'. revert c' Hc'.
      induction adds as [| [[t k'] v'] adds IH]; intros c' Hc'; [done |].
      change (LRU_addAll ((t, k', v') :: adds) c') with (LRU_addAll adds (Add t k' v' c')).
      apply IH.
      - intros Hin. apply Hnot. cbn [map In fst snd] in *. tauto.
      - apply find_Add_other_None; [| done].
        intros ->. apply Hnot. cbn [map In fst snd]. tauto. }
    assert (Hsize : forall c', size (LRU_addAll adds c') = size c'
                               /\ (0 < size c' ->
                                   Z.of_nat (length (evictList c')) <= size c' ->
                                   Z.of_nat (length (evictList (LRU_addAll adds c')))
                                   <= size c')).
    { clear. induction adds as [| [[t k'] v'] adds IH]; intros c'; [done |].
      change (LRU_addAll ((t, k', v') :: adds) c') with (LRU_addAll adds (Add t k' v' c')).
      destruct (IH (Add t k' v' c')) as [Hs Hb]. rewrite Add_size in *.
      split; [done |]. intros Hp Hl. apply Hb; [done |].
      by apply Add_length_bounded. }
    destruct (Add_in_front now k v c front e0 back Hl Hne) as [Hgone | (back' & Hl')].
    + apply Hfresh. by left.
    + exact Hk0.
    + destruct (Hsize (Add now k v c)) as [Hs Hb]. rewrite Add_size in *.
      split; [done |].
      split; [apply Hb; [done | by apply Add_length_bounded] |].
      left. by apply Hnone.
    + destruct (IH (Add now k v c) (mkEntry k v (now + ttl c) :: front) back')
        as (Hs & Hb & Hres); rewrite ?Add_size; try done.
      * by apply Add_length_bounded.
      * cbn [map In Key]. intros [Heq | Hin]; [by apply Hne | by apply Hk0].
      * intros Hin. apply Hnot. by right.
      * intros k' Hin. cbn [map In Key]. intros [<- | Hin'].
        -- apply Hk. by apply list_elem_of_In.
        -- apply (Hfresh k'); [by right | done].
      * rewrite Add_size in Hs, Hb. split; [done |]. split; [done |].
        destruct Hres as [Hgone | (front' & back'' & Hl'' & Hlen)]; [by left |].
        right. exists front', back''. split; [done |]. cbn [length] in *. lia.
Qed.

End WithValue.

End LRUEviction.

Lemma Add_head {V : Type} now (k : string) (v : V) (c : LRU.t V) :
  exists back,
    LRU.evictList (LRU.Add now k v c) = LRU.mkEntry k v (now + LRU.ttl c) :: back.
Proof.
  unfold LRU.Add. destruct (LRU.find k (LRU.evictList c)); [by eexists |].
  destruct ((0 <? LRU.size c)
            && (LRU.size c
                <? Z.of_nat (length (LRU.mkEntry k v (now + LRU.ttl c)
                                     :: LRU.evictList c)))) eqn:Ev;
    cbn [LRU.evictList]; [| by eexists].
  destruct (LRU.evictList c) as [| y l'].
  - apply andb_true_iff in Ev as [H0 H1].
    apply Z.ltb_lt in H0, H1. cbn [length] in H1. lia.
  - unfold LRU.removeOldest.
    change (removelast (?x :: y :: l')) with (x :: removelast (y :: l')).
    by eexists.
Qed.

Lemma runUsageOps_payments (paid : list (Z * Bytes32 * PromptPaidEvent))
    (db : UsageDb) :
  promptCache (runUsageOps db (payments paid))
  = LRU_addAll
      (map (fun e => (fst (fst e),
                      promptCacheKey (snd (fst e)) (PromptPaid_PromptID (snd e)),
                      mkCacheData (PromptPaid_TweetID (snd e))
                        (PromptPaid_Prompt (snd e)))) paid)
      (promptCache db).
Proof.
  revert db. induction paid as [| [[t a] ev] paid IH]; intros db; [done |].
  change (runUsageOps db (payments ((t, a, ev) :: paid)))
    with (runUsageOps (StorePromptPaidData t db a ev) (payments paid)).
  by rewrite IH.
Qed.

(** X9. Once as many payments for other prompts (pairwise different) as
    the cache has room for have followed a payment, that payment is evicted:
    its prompt is no longer found, at any instant, and its consumption logs
    the miss and stores, as the last entry of the agent's history, an entry
    with tweet id 0 and the empty prompt. *)
Theorem oldest_payment_is_evicted :
  forall (t0 t : Z) (db : UsageDb) (addr : Bytes32) (paid0 : PromptPaidEvent)
         (later : list (Z * Bytes32 * PromptPaidEvent))
         (consumed : PromptConsumedEvent),
    let key0 := promptCacheKey addr (PromptPaid_PromptID paid0) in
    let keys :=
      map (fun e => promptCacheKey (snd (fst e)) (PromptPaid_PromptID (snd e)))
          later in
    let db' := runUsageOps (StorePromptPaidData t0 db addr paid0) (payments later) in
    0 < LRU.size (promptCache db) ->
    Z.of_nat (length (LRU.evictList (promptCache db))) <= LRU.size (promptCache db) ->
    NoDup keys -> ~ In key0 keys ->
    LRU.size (promptCache db) <= Z.of_nat (length later) ->
    PromptConsumed_PromptID consumed = PromptPaid_PromptID paid0 ->
    0 < maxPrompts db ->
    LRU.Peek t key0 (promptCache db') = None /\
    snd (StorePromptConsumedData t db' addr consumed)
    = [slog_Error "prompt not found in cache"] /\
    exists usage entry,
      GetAgentUsage (fst (StorePromptConsumedData t db' addr consumed)) addr
      = Some usage /\
      last (LatestPrompts usage) = Some entry /\
      PromptID entry = PromptPaid_PromptID paid0 /\
      TweetID entry = 0 /\
      Prompt entry = EmptyString.
Proof.
  intros t0 t db addr paid0 later consumed key0 keys db' Hpos Hle Hnd Hnot Hfull Hid HK.
  set (c1 := promptCache (StorePromptPaidData t0 db addr paid0)).
  set (data0 := mkCacheData (PromptPaid_TweetID paid0) (PromptPaid_Prompt paid0)).
  destruct (Add_head t0 key0 data0 (promptCache db)) as [back Hl].
  set (e0 := LRU.mkEntry key0 data0 (t0 + LRU.ttl (promptCache db))) in Hl.
  set (adds := map (fun e : Z * Bytes32 * PromptPaidEvent =>
                      (fst (fst e),
                       promptCacheKey (snd (fst e)) (PromptPaid_PromptID (snd e)),
                       mkCacheData (PromptPaid_TweetID (snd e))
                         (PromptPaid_Prompt (snd e)))) later).
  assert (Hkeys : map (fun a : Z * string * PromptCacheData => snd (fst a)) adds = keys).
  { subst adds keys. rewrite map_map. reflexivity. }
  assert (Hsize1 : LRU.size c1 = LRU.size (promptCache db)).
  { apply LRUEviction.Add_size. }
  assert (Hpeek : LRU.Peek t key0 (promptCache db') = None).
  { apply LRUFacts.Peek_find_None. subst db'. rewrite runUsageOps_payments.
    fold adds. fold c1.
    assert (Hle1 : Z.of_nat (length (LRU.evictList c1)) <= LRU.size c1).
    { rewrite Hsize1. by apply LRUEviction.Add_length_bounded. }
    assert (Hpos1 : 0 < LRU.size c1) by (by rewrite Hsize1).
    assert (Hnd' : NoDup (map (fun a : Z * string * PromptCacheData => snd (fst a)) adds))
      by (by rewrite Hkeys).
    assert (Hnot' : ~ In (LRU.Key e0)
                      (map (fun a : Z * string * PromptCacheData => snd (fst a)) adds))
      by (by rewrite Hkeys).
    destruct (LRUEviction.LRU_addAll_pushes_back adds c1 [] e0 back Hpos1 Hle1 Hl
                (fun H => H) Hnd' Hnot' (fun _ _ H => H))
      as (Hs & Hb & [Hgone | (front' & back' & Hl' & Hlen)]); [exact Hgone |].
    rewrite Hl', length_app in Hb. cbn [length] in Hb, Hlen.
    assert (length adds = length later) by (subst adds; apply length_map).
    lia. }
  split; [exact Hpeek |].
  destruct (StorePromptConsumedData_miss t db' addr consumed) as (Hmiss & Hlog & _).
  { by rewrite Hid. }
  split; [exact Hlog |].
  assert (HK' : 0 < maxPrompts db').
  { subst db'. by rewrite runUsageOps_maxPrompts. }
  destruct (StorePromptConsumedData_stored t db' addr consumed HK')
    as (usage & Hget & Hlast).
  exists usage, (consumedEntry t db' addr consumed).
  split; [exact Hget |]. split; [exact Hlast |].
  unfold consumedEntry. cbn [PromptID TweetID Prompt]. by rewrite Hmiss, Hid.
Qed.

(** ** The agent indexer: batches, pages, fetches *)

Section AgentBatchFacts.
Context {DB : Type} {Hdb : AgentIndexerDatabase DB} {decode : EventDecoder}.
Implicit Types (i : AgentIndexer DB) (ev : Event).

Lemma onAgentRegistered_as_write i ev :
  onAgentRegistered i ev
  = (mkAgentIndexer
       (match registrationOf (registryAddress i) ev with
        | Some w => SetAgentInfo (db i) (fst w) (snd w)
        | None => db i
        end)
       (registryAddress i) (client i),
     registrationLog (registryAddress i) ev).
Proof.
  unfold onAgentRegistered, registrationOf, registrationLog.
  destruct (Felt_Cmp _ _); try by destruct i.
  destruct (ToAgentRegisteredEvent ev); [reflexivity | by destruct i].
Qed.

Lemma AgentIndexer_fold_batch (events : list Event) i (logs : list LogRecord) :
  fold_left (fun '(i, logs) ev =>
               let '(i', l) := onAgentRegistered i ev in (i', logs ++ l))
            events (i, logs)
  = (mkAgentIndexer
       (fold_left (fun d w => SetAgentInfo d (fst w) (snd w))
          (omap (registrationOf (registryAddress i)) events) (db i))
       (registryAddress i) (client i),
     logs ++ flat_map (registrationLog (registryAddress i)) events).
Proof.
  revert i logs. induction events as [| ev events IH]; intros i logs.
  - cbn. rewrite app_nil_r. by destruct i.
  - cbn [fold_left]. rewrite onAgentRegistered_as_write, IH.
    cbn [registryAddress client db flat_map omap list_omap].
    rewrite <- app_assoc.
    by destruct (registrationOf (registryAddress i) ev).
Qed.

End AgentBatchFacts.

(** X10. A batch of the agent indexer writes, in the order of the batch,
    the registration of every event that comes from the registry and
    parses, and nothing else; an event from another address or with a
    payload that does not parse is logged and skipped without holding up
    the events after it; the watermark is set last. *)
Theorem AgentIndexer_applyBatch_writes_accepted :
  forall {DB : Type} {Hdb : AgentIndexerDatabase DB} {decode : EventDecoder}
         (i : AgentIndexer DB) (events : list Event) (toBlock : Z),
    AgentIndexer_applyBatch i events toBlock
    = (mkAgentIndexer
         (SetLastIndexedBlock
            (fold_left (fun d w => SetAgentInfo d (fst w) (snd w))
               (omap (registrationOf (registryAddress i)) events) (db i))
            toBlock)
         (registryAddress i) (client i),
       flat_map (registrationLog (registryAddress i)) events).
Proof.
  intros DB Hdb decode i events toBlock. unfold AgentIndexer_applyBatch.
  by rewrite AgentIndexer_fold_batch.
Qed.

Section AgentPageFacts.
Context {DB : Type} {Hdb : AgentIndexerDatabase DB} {decode : EventDecoder}
        {starknet : StarknetUtils}.
Implicit Types (i : AgentIndexer DB) (addr creator : Felt).

Lemma GetAgentsByCreator_found i creator (start limit : Z) :
  is_u64 start -> is_u64 limit ->
  start < Z.of_nat (length (GetAddressesByCreator (db i) (Felt_Bytes creator))) ->
  start + limit < 2 ^ 64 ->
  let agents := GetAddressesByCreator (db i) (Felt_Bytes creator) in
  let page :=
    slice agents start (Z.min (start + limit) (Z.of_nat (length agents))) in
  GetAgentsByCreator i creator start limit
  = (Returns (Some (mkAgentsByCreatorResult
                      (map fst (map (GetAgentInfo (db i)) page))
                      (Z.of_nat (length agents))
                      (GetLastIndexedBlock (db i)))),
     flat_map (fun r : AgentInfo * bool =>
                 if snd r then [] else [slog_Error "agent not found"])
              (map (GetAgentInfo (db i)) page)).
Proof.
  intros Hs Hl Hlt Hsum agents page. unfold GetAgentsByCreator.
  fold agents in Hlt |- *. unfold u64, is_u64 in *.
  change (2 ^ 64) with 18446744073709551616 in *.
  rewrite (proj2 (Z.leb_gt _ _)) by lia.
  rewrite Z.mod_small by lia.
  assert (Hend : (if Z.of_nat (length agents) <? start + limit
                  then Z.of_nat (length agents) else start + limit)
                 = Z.min (start + limit) (Z.of_nat (length agents))).
  { destruct (Z.ltb_spec (Z.of_nat (length agents)) (start + limit)); lia. }
  rewrite Hend.
  rewrite (proj2 (Z.ltb_ge (Z.min (start + limit) (Z.of_nat (length agents))) start))
    by lia.
  reflexivity.
Qed.

Lemma slice_app {A : Type} (l : list A) (a b c : Z) :
  0 <= a <= b -> b <= c ->
  slice l a b ++ slice l b c = slice l a c.
Proof.
  intros Hab Hbc. unfold slice.
  replace (drop (Z.to_nat b) l)
    with (drop (Z.to_nat (b - a)) (drop (Z.to_nat a) l))
    by (rewrite drop_drop; f_equal; lia).
  rewrite take_take_drop. f_equal. lia.
Qed.

End AgentPageFacts.

(** X11. Consecutive pages of [GetAgentsByCreator] fit together: when the
    page of [limit1] agents from [start] does not reach the end of the
    creator's list, it followed by the page of [limit2] agents from [start +
    limit1] is the page of [limit1 + limit2] agents from [start]; no agent
    is skipped or repeated.  (The sums stay within 64 bits.) *)
Theorem GetAgentsByCreator_pages_compose :
  forall {DB : Type} {Hdb : AgentIndexerDatabase DB}
         (i : AgentIndexer DB) (creator : Felt) (start limit1 limit2 : Z),
    is_u64 start -> is_u64 limit1 -> is_u64 limit2 ->
    start + limit1 + limit2 < 2 ^ 64 ->
    start + limit1
    < Z.of_nat (length (GetAddressesByCreator (db i) (Felt_Bytes creator))) ->
    exists first second both,
      fst (GetAgentsByCreator i creator start limit1) = Returns (Some first) /\
      fst (GetAgentsByCreator i creator (start + limit1) limit2)
      = Returns (Some second) /\
      fst (GetAgentsByCreator i creator start (limit1 + limit2))
      = Returns (Some both) /\
      Agents both = Agents first ++ Agents second /\
      Z.of_nat (length (Agents first)) = limit1 /\
      AgentCount first = AgentCount both /\ AgentCount second = AgentCount both.
Proof.
  intros DB Hdb i creator start limit1 limit2 Hs Hl1 Hl2 Hsum Hlt.
  unfold is_u64 in *. change (2 ^ 64) with 18446744073709551616 in *.
  set (agents := GetAddressesByCreator (db i) (Felt_Bytes creator)) in *.
  rewrite (GetAgentsByCreator_found i creator start limit1),
    (GetAgentsByCreator_found i creator (start + limit1) limit2),
    (GetAgentsByCreator_found i creator start (limit1 + limit2));
    unfold is_u64; change (2 ^ 64) with 18446744073709551616; try (fold agents; lia).
  fold agents. cbn [fst].
  do 3 eexists. split; [reflexivity |]. split; [reflexivity |].
  split; [reflexivity |]. cbn [Agents AgentCount].
  replace (Z.min (start + limit1) (Z.of_nat (length agents)))
    with (start + limit1) by lia.
  replace (start + (limit1 + limit2)) with (start + limit1 + limit2) by lia.
  split.
  { rewrite <- !map_app. by rewrite slice_app by lia. }
  split; [| by split].
  rewrite !length_map, slice_length by lia. lia.
Qed.

(** X12. When the uint64 sum [start + limit] wraps around for a [start]
    inside the creator's list, [GetAgentsByCreator] does not return: [end]
    is below [start], so the length [end-start] asked of [make] and the
    slice [agents[start:end]] are out of range. *)
Theorem GetAgentsByCreator_aborts_on_wrap :
  forall {DB : Type} {Hdb : AgentIndexerDatabase DB}
         (i : AgentIndexer DB) (creator : Felt) (start limit : Z),
    is_u64 start -> is_u64 limit ->
    start < Z.of_nat (length (GetAddressesByCreator (db i) (Felt_Bytes creator))) ->
    2 ^ 64 <= start + limit ->
    GetAgentsByCreator i creator start limit = (Panics, []).
Proof.
  intros DB Hdb i creator start limit Hs Hl Hlt Hwrap.
  pose proof (GetAgentsByCreator_wraps i creator start limit Hs Hl Hlt Hwrap) as Hp.
  unfold GetAgentsByCreator in *.
  destruct (Z.of_nat _ <=? start); [discriminate |].
  match goal with
  | |- (if ?c then _ else _) = _ => destruct c; [reflexivity | discriminate]
  end.
Qed.

(** X13. An address of the creator index for which the database has no
    info does not shorten the page: the page has one slot for every address
    of the slice, and one error is logged per address that was not found. *)
Theorem GetAgentsByCreator_keeps_missing_slots :
  forall {DB : Type} {Hdb : AgentIndexerDatabase DB}
         (i : AgentIndexer DB) (creator : Felt) (start limit : Z),
    is_u64 start -> is_u64 limit ->
    start < Z.of_nat (length (GetAddressesByCreator (db i) (Felt_Bytes creator))) ->
    start + limit < 2 ^ 64 ->
    let agents := GetAddressesByCreator (db i) (Felt_Bytes creator) in
    let page :=
      slice agents start (Z.min (start + limit) (Z.of_nat (length agents))) in
    exists result,
      fst (GetAgentsByCreator i creator start limit) = Returns (Some result) /\
      length (Agents result) = length page /\
      snd (GetAgentsByCreator i creator start limit)
      = map (fun _ => slog_Error "agent not found")
          (List.filter (fun a => negb (snd (GetAgentInfo (db i) a))) page).
Proof.
  intros DB Hdb i creator start limit Hs Hl Hlt Hsum agents page.
  rewrite (GetAgentsByCreator_found i creator start limit Hs Hl Hlt Hsum).
  fold agents page. cbn [fst snd].
  eexists. split; [reflexivity |]. cbn [Agents].
  split; [by rewrite !length_map |].
  induction page as [| a page IH]; [done |].
  cbn [map flat_map List.filter]. rewrite IH.
  by destruct (snd (GetAgentInfo (db i) a)).
Qed.

Section FetchFacts.
Context {DB : Type} {Hdb : AgentIndexerDatabase DB} {starknet : StarknetUtils}.
Implicit Types (i : AgentIndexer DB) (addr : Felt).

Lemma fetchAgentInfo_unregistered i addr calls (answer : Felt) (rest : list Felt) :
  ProviderWrapper_Do (client i) (isAgentRegisteredCall i addr) "latest"
  = (calls, answer :: rest, None) ->
  answer <> 1 ->
  fetchAgentInfo i addr
  = (calls, Returns (AgentInfo_zero, Some "agent not registered")).
Proof.
  intros Hdo Hne. unfold fetchAgentInfo.
  fold (isAgentRegisteredCall i addr). rewrite Hdo.
  destruct (Felt_Cmp answer 1) eqn:E; [| reflexivity | reflexivity].
  by apply Felt_Cmp_Eq in E.
Qed.

Lemma fetchAgentInfo_registry_down i addr calls (resp : list Felt) (err : error) :
  ProviderWrapper_Do (client i) (isAgentRegisteredCall i addr) "latest"
  = (calls, resp, Some err) ->
  fetchAgentInfo i addr
  = (calls, Returns (AgentInfo_zero,
                     Some ("is_agent_registered call failed: " +:+ err))).
Proof.
  intros Hdo. unfold fetchAgentInfo.
  fold (isAgentRegisteredCall i addr). by rewrite Hdo.
Qed.

End FetchFacts.

(** X14. [fetchAgentInfo] asks the registry first and stops there unless
    the answer is 1: for any other answer, and when the call fails, it
    returns an error and every call that went out is the
    [is_agent_registered] read, so a contract that is not a registered
    agent is never called. *)
Theorem fetchAgentInfo_stops_at_registry :
  forall {DB : Type} {Hdb : AgentIndexerDatabase DB} {starknet : StarknetUtils}
         (i : AgentIndexer DB) (addr : Felt) (calls : list RpcCall)
         (resp : list Felt) (err : option error),
    ProviderWrapper_Do (client i) (isAgentRegisteredCall i addr) "latest"
    = (calls, resp, err) ->
    (err <> None \/ exists answer rest, resp = answer :: rest /\ answer <> 1) ->
    exists message,
      fetchAgentInfo i addr = (calls, Returns (AgentInfo_zero, Some message)) /\
      Forall (fun c => c = mkRpcCall (isAgentRegisteredCall i addr) "latest") calls.
Proof.
  intros DB Hdb starknet i addr calls resp err Hdo Hcase.
  pose proof (ProviderWrapper_Do_calls (client i) (isAgentRegisteredCall i addr)
                "latest") as Hcalls.
  rewrite Hdo in Hcalls. cbn [fst] in Hcalls.
  destruct Hcase as [Herr | (answer & rest & -> & Hne)].
  - destruct err as [e |]; [| done].
    eexists. split; [by eapply fetchAgentInfo_registry_down | exact Hcalls].
  - destruct err as [e |].
    + eexists. split; [by eapply fetchAgentInfo_registry_down | exact Hcalls].
    + eexists. split; [by eapply fetchAgentInfo_unregistered | exact Hcalls].
Qed.

(** ** The token indexer: additions, batches, price refresh *)

Section TokenBatchFacts.
Context {DB : Type} {Hdb : TokenIndexerDatabase DB} {decode : EventDecoder}.
Implicit Types (i : TokenIndexer DB) (ev : Event).

Lemma TokenIndexer_applyEvent_as_write i ev :
  TokenIndexer_applyEvent i ev
  = (mkTokenIndexer
       (match tokenWriteOf (token_registryAddress i) ev with
        | Some w => SetTokenInfo (token_db i) (fst w) (snd w)
        | None => token_db i
        end)
       (token_registryAddress i),
     tokenEventLog (token_registryAddress i) ev).
Proof.
  unfold TokenIndexer_applyEvent, tokenWriteOf, tokenEventLog,
    onTokenAdded, onTokenRemoved.
  destruct (Type_ ev); destruct (Felt_Cmp _ _); try by destruct i.
  - destruct (ToTokenAddedEvent ev); [reflexivity | by destruct i].
  - destruct (ToTokenRemovedEvent ev); [reflexivity | by destruct i].
Qed.

Lemma TokenIndexer_fold_batch (events : list Event) i (logs : list LogRecord) :
  fold_left (fun '(i, logs) ev =>
               let '(i', l) := TokenIndexer_applyEvent i ev in (i', logs ++ l))
            events (i, logs)
  = (mkTokenIndexer
       (fold_left (fun d w => SetTokenInfo d (fst w) (snd w))
          (omap (tokenWriteOf (token_registryAddress i)) events) (token_db i))
       (token_registryAddress i),
     logs ++ flat_map (tokenEventLog (token_registryAddress i)) events).
Proof.
  revert i logs. induction events as [| ev events IH]; intros i logs.
  - cbn. rewrite app_nil_r. by destruct i.
  - cbn [fold_left]. rewrite TokenIndexer_applyEvent_as_write, IH.
    cbn [token_registryAddress token_db flat_map omap list_omap].
    rewrite <- app_assoc.
    by destruct (tokenWriteOf (token_registryAddress i) ev).
Qed.

End TokenBatchFacts.

(** X15. A batch of the token indexer writes, in the order of the batch,
    one [SetTokenInfo] for every [TokenAdded] or [TokenRemoved] that comes
    from the registry and parses (a fresh info without rate for an
    addition, nil for a removal) and nothing else; events of other kinds are
    ignored silently, spoofed or unparsable ones are logged and skipped;
    the watermark is set last. *)
Theorem TokenIndexer_applyBatch_writes_accepted :
  forall {DB : Type} {Hdb : TokenIndexerDatabase DB} {decode : EventDecoder}
         (i : TokenIndexer DB) (events : list Event) (toBlock : Z),
    TokenIndexer_applyBatch i events toBlock
    = (mkTokenIndexer
         (Token_SetLastIndexedBlock
            (fold_left (fun d w => SetTokenInfo d (fst w) (snd w))
               (omap (tokenWriteOf (token_registryAddress i)) events) (token_db i))
            toBlock)
         (token_registryAddress i),
       flat_map (tokenEventLog (token_registryAddress i)) events).
Proof.
  intros DB Hdb decode i events toBlock. unfold TokenIndexer_applyBatch.
  by rewrite TokenIndexer_fold_batch.
Qed.

(** X16. Over a database that returns what was stored, a [TokenAdded] from
    the registry makes the token's minimum prompt price and minimum initial
    balance those of the event, and leaves the token without a rate: also
    for a token that had a rate before, [GetTokenRate] reports not-found
    until the next price refresh. *)
Theorem onTokenAdded_resets_rate :
  forall {DB : Type} {Hdb : TokenIndexerDatabase DB} {decode : EventDecoder}
         (i : TokenIndexer DB) (ev : Event) (added : TokenAddedEvent),
    TokenDbStores DB ->
    Raw_FromAddress ev = token_registryAddress i ->
    ToTokenAddedEvent ev = Some added ->
    let i' := fst (onTokenAdded i ev) in
    let token := TokenAdded_Token added in
    GetTokenMinPromptPrice i' token
    = Returns (Some (TokenAdded_MinPromptPrice added), true) /\
    GetTokenMinInitialBalance i' token
    = Returns (Some (TokenAdded_MinInitialBalance added), true) /\
    GetTokenRate i' token = Returns (None, false) /\
    snd (onTokenAdded i ev) = [].
Proof.
  intros DB Hdb decode i ev added Hstores Hfrom Hparse i' token.
  subst i'. unfold onTokenAdded.
  rewrite (proj2 (Felt_Cmp_Eq _ _) Hfrom), Hparse. cbn [fst snd].
  unfold GetTokenMinPromptPrice, GetTokenMinInitialBalance, GetTokenRate.
  cbn [token_db]. rewrite Hstores.
  rewrite bool_decide_eq_true_2 by done. by cbn.
Qed.

Section PriceRefreshFacts.
Context {DB : Type} {Hdb : TokenIndexerDatabase DB}.
Implicit Types (i : TokenIndexer DB) (snapshot : gmap Z TokenInfo).

Lemma updatePrices_fetch_Panics (priceFeed : PriceFeed) (clock : Bytes32 -> Z)
    (order : list Bytes32) :
  fold_left (updatePrices_fetchOne priceFeed clock) order Panics = Panics.
Proof. induction order as [| t0 order IH]; [done | exact IH]. Qed.

(** the first loop reaches a nil pointer whose rate the feed returns *)
Lemma updatePrices_fetch_nil (priceFeed : PriceFeed) (clock : Bytes32 -> Z)
    (order : list Bytes32) (t : Bytes32) (price : option Z) :
  priceFeed (Felt_SetBytes t) = (price, None) ->
  t ∈ order ->
  forall tokens logs,
    tokens !! t = Some None ->
    fold_left (updatePrices_fetchOne priceFeed clock) order (Returns (tokens, logs))
    = Panics.
Proof.
  intros Hfeed. induction order as [| t0 order IH]; intros Hin tokens logs Hnil.
  - by apply not_elem_of_nil in Hin.
  - cbn [fold_left]. destruct (decide (t = t0)) as [<- | Hne].
    + cbn [updatePrices_fetchOne]. rewrite Hnil, Hfeed.
      apply updatePrices_fetch_Panics.
    + apply elem_of_cons in Hin as [? | Hin]; [done |].
      cbn [updatePrices_fetchOne].
      destruct (tokens !! t0) as [pointer |]; [| by apply IH].
      destruct (priceFeed (Felt_SetBytes t0)) as [price0 [err |]]; [by apply IH |].
      destruct pointer as [info |]; [| apply updatePrices_fetch_Panics].
      apply IH; [done |]. by rewrite lookup_insert_ne.
Qed.

(** the first loop aborts only at such a pointer *)
Lemma updatePrices_fetch_Panics_inv (priceFeed : PriceFeed) (clock : Bytes32 -> Z)
    (order : list Bytes32) :
  forall tokens logs,
    fold_left (updatePrices_fetchOne priceFeed clock) order (Returns (tokens, logs))
    = Panics ->
    exists t price,
      tokens !! t = Some None /\ priceFeed (Felt_SetBytes t) = (price, None).
Proof.
  induction order as [| t0 order IH]; intros tokens logs Hfold; [done |].
  cbn [fold_left updatePrices_fetchOne] in Hfold.
  destruct (tokens !! t0) as [pointer |] eqn:E0; [| by eapply IH].
  destruct (priceFeed (Felt_SetBytes t0)) as [price0 [err |]] eqn:Ef;
    [by eapply IH |].
  destruct pointer as [info |]; [| by exists t0, price0].
  destruct (IH _ _ Hfold) as (t & price & Hnil & Hfeed).
  exists t, price. split; [| exact Hfeed].
  destruct (decide (t0 = t)) as [<- | Hne].
  - by rewrite lookup_insert_eq in Hnil.
  - by rewrite lookup_insert_ne in Hnil.
Qed.

(** the first loop over a snapshot without nil pointers *)
Lemma updatePrices_fetch_lookup (priceFeed : PriceFeed) (clock : Bytes32 -> Z)
    (order : list Bytes32) :
  NoDup order ->
  forall snapshot (logs : list LogRecord),
  exists fetched logs',
    fold_left (updatePrices_fetchOne priceFeed clock) order
      (Returns (Some <$> snapshot, logs))
    = Returns (Some <$> fetched, logs') /\
    forall t,
      fetched !! t = if bool_decide (t ∈ order)
                     then refreshedInfo priceFeed clock t <$> snapshot !! t
                     else snapshot !! t.
Proof.
  induction order as [| t0 order IH]; intros Hnd snapshot logs.
  - exists snapshot, logs. split; [done |]. intros t.
    by rewrite bool_decide_eq_false_2 by apply not_elem_of_nil.
  - apply NoDup_cons in Hnd as [Ht0 Hnd]. cbn [fold_left updatePrices_fetchOne].
    rewrite lookup_fmap.
    assert (Hstep : forall snapshot1 logs1,
               (forall t, snapshot1 !! t
                          = if bool_decide (t = t0)
                            then refreshedInfo priceFeed clock t <$> snapshot !! t
                            else snapshot !! t) ->
               exists fetched logs',
                 fold_left (updatePrices_fetchOne priceFeed clock) order
                   (Returns (Some <$> snapshot1, logs1))
                 = Returns (Some <$> fetched, logs') /\
                 forall t,
                   fetched !! t = if bool_decide (t ∈ t0 :: order)
                                  then refreshedInfo priceFeed clock t <$> snapshot !! t
                                  else snapshot !! t).
    { intros snapshot1 logs1 H1.
      destruct (IH Hnd snapshot1 logs1) as (fetched & logs' & Hfold & Hlook).
      exists fetched, logs'. split; [exact Hfold |]. intros t.
      rewrite Hlook, H1.
      destruct (decide (t = t0)) as [-> | Hne].
      - rewrite bool_decide_eq_false_2 by done.
        rewrite !bool_decide_eq_true_2; [done | by left | done].
      - rewrite (bool_decide_eq_false_2 (t = t0)) by done.
        destruct (bool_decide_reflect (t ∈ order)) as [Hin | Hnin].
        + by rewrite bool_decide_eq_true_2 by (by right).
        + rewrite bool_decide_eq_false_2; [done |].
          intros Hin. apply elem_of_cons in Hin as [? | ?]; done. }
    destruct (snapshot !! t0) as [info |] eqn:E0; cbn [fmap option_fmap option_map].
    + destruct (priceFeed (Felt_SetBytes t0)) as [price [err |]] eqn:Ef.
      * apply Hstep. intros t.
        destruct (bool_decide_reflect (t = t0)) as [-> | Hne]; [| done].
        rewrite E0. unfold refreshedInfo. cbn. by rewrite Ef.
      * rewrite <- fmap_insert. apply Hstep. intros t.
        destruct (bool_decide_reflect (t = t0)) as [-> | Hne].
        -- rewrite lookup_insert_eq, E0. unfold refreshedInfo. cbn. by rewrite Ef.
        -- by rewrite lookup_insert_ne.
    + apply Hstep. intros t.
      destruct (bool_decide_reflect (t = t0)) as [-> | Hne]; [| done].
      by rewrite E0.
Qed.

Lemma updatePrices_commit_cons i (tokens : gmap Z (option TokenInfo))
    (t0 : Bytes32) (order : list Bytes32) :
  updatePrices_commit i tokens (t0 :: order)
  = updatePrices_commit
      (match tokens !! t0 with
       | None => i
       | Some info =>
           mkTokenIndexer (SetTokenInfo (token_db i) t0 info)
             (token_registryAddress i)
       end) tokens order.
Proof. reflexivity. Qed.

Lemma updatePrices_commit_registryAddress i (tokens : gmap Z (option TokenInfo))
    (order : list Bytes32) :
  token_registryAddress (updatePrices_commit i tokens order)
  = token_registryAddress i.
Proof.
  revert i. induction order as [| t0 order IH]; intros i; [done |].
  rewrite updatePrices_commit_cons, IH. by destruct (tokens !! t0).
Qed.

Lemma updatePrices_commit_lookup i snapshot (order : list Bytes32) (t : Bytes32) :
  TokenDbStores DB ->
  GetTokenInfo (token_db (updatePrices_commit i (Some <$> snapshot) order)) t
  = match snapshot !! t with
    | Some info =>
        if bool_decide (t ∈ order) then (Some info, true)
        else GetTokenInfo (token_db i) t
    | None => GetTokenInfo (token_db i) t
    end.
Proof.
  intros Hstores. revert i. induction order as [| t0 order IH]; intros i.
  - cbn. rewrite bool_decide_eq_false_2 by apply not_elem_of_nil.
    by destruct (snapshot !! t).
  - rewrite updatePrices_commit_cons, IH, lookup_fmap.
    destruct (snapshot !! t) as [info |] eqn:Et.
    + destruct (bool_decide_reflect (t ∈ order)) as [Hin | Hnin].
      * by rewrite bool_decide_eq_true_2 by (by right).
      * destruct (decide (t = t0)) as [-> | Hne].
        -- rewrite Et. cbn [fmap option_fmap option_map token_db]. rewrite Hstores.
           rewrite !bool_decide_eq_true_2; [done | by left | done].
        -- rewrite (bool_decide_eq_false_2 (t ∈ t0 :: order)).
           ++ destruct (snapshot !! t0); [| done].
              cbn [fmap option_fmap option_map token_db].
              rewrite Hstores. by rewrite bool_decide_eq_false_2.
           ++ intros Hin. apply elem_of_cons in Hin as [? | ?]; done.
    + destruct (snapshot !! t0) as [info0 |] eqn:Et0; [| done].
      cbn [fmap option_fmap option_map token_db].
      rewrite Hstores. rewrite bool_decide_eq_false_2; [done |].
      intros ->. congruence.
Qed.

(** a map of pointers none of which is nil *)
Lemma no_nil_fmap (tokens : gmap Z (option TokenInfo)) :
  (forall t, tokens !! t <> Some None) -> tokens = Some <$> omap id tokens.
Proof.
  intros Hno. apply map_eq. intros t. rewrite lookup_fmap, lookup_omap.
  specialize (Hno t). by destruct (tokens !! t) as [[info |] |].
Qed.

End PriceRefreshFacts.

(** X17. One tick of the price refresh, over a database that returns what
    was stored, with the two loops ranging over the tokens of the snapshot
    in any order.  The tick aborts exactly when the snapshot holds a nil
    pointer for a token whose rate the feed returns: the rate is written
    through the nil pointer.  When the snapshot holds no nil pointer, the
    tick ends and a token of the snapshot whose rate the feed returned gets
    that rate and the instant it was stored, keeping its minimum price and
    balance, and [GetTokenRate] finds it when that instant is not the zero
    instant; a token whose feed call failed is written back as it was in
    the snapshot; a token outside the snapshot is not touched. *)
Theorem updatePricesTick_refreshes_rates :
  forall {DB : Type} {Hdb : TokenIndexerDatabase DB}
         (priceFeed : PriceFeed) (clock : Bytes32 -> Z) (i : TokenIndexer DB)
         (fetchOrder commitOrder : list Bytes32),
    TokenDbStores DB ->
    NoDup fetchOrder ->
    (forall t, t ∈ fetchOrder <-> is_Some (GetTokens (token_db i) !! t)) ->
    (forall t, t ∈ commitOrder <-> is_Some (GetTokens (token_db i) !! t)) ->
    (updatePricesTick priceFeed clock i fetchOrder commitOrder = Panics <->
     exists t price,
       GetTokens (token_db i) !! t = Some None /\
       priceFeed (Felt_SetBytes t) = (price, None)) /\
    ((forall t, GetTokens (token_db i) !! t <> Some None) ->
     exists i' logs,
       updatePricesTick priceFeed clock i fetchOrder commitOrder
       = Returns (i', logs) /\
       token_registryAddress i' = token_registryAddress i /\
       (forall t info,
           GetTokens (token_db i) !! t = Some (Some info) ->
           GetTokenInfo (token_db i') t
           = (Some (refreshedInfo priceFeed clock t info), true)) /\
       (forall t info price,
           GetTokens (token_db i) !! t = Some (Some info) ->
           priceFeed (Felt_SetBytes t) = (price, None) ->
           clock t <> 0 ->
           GetTokenRate i' t = Returns (price, true) /\
           GetTokenMinPromptPrice i' t = Returns (MinPromptPrice info, true)) /\
       (forall t info price err,
           GetTokens (token_db i) !! t = Some (Some info) ->
           priceFeed (Felt_SetBytes t) = (price, Some err) ->
           GetTokenInfo (token_db i') t = (Some info, true)) /\
       (forall t,
           GetTokens (token_db i) !! t = None ->
           GetTokenInfo (token_db i') t = GetTokenInfo (token_db i) t)).
Proof.
  intros DB Hdb priceFeed clock i fetchOrder commitOrder Hstores Hnd Hfetch Hcommit.
  split.
  { unfold updatePricesTick, updatePrices_fetch. split.
    - intros Htick.
      destruct (fold_left (updatePrices_fetchOne priceFeed clock) fetchOrder
                  (Returns (GetTokens (token_db i), [])))
        as [[tokens logs] |] eqn:Hfold; [done |].
      by apply updatePrices_fetch_Panics_inv in Hfold.
    - intros (t & price & Hnil & Hfeed).
      rewrite (updatePrices_fetch_nil priceFeed clock fetchOrder t price Hfeed);
        [done | | exact Hnil].
      apply Hfetch. by rewrite Hnil. }
  intros Hno. apply no_nil_fmap in Hno.
  set (snapshot := omap id (GetTokens (token_db i))) in Hno.
  assert (Hsnap : forall t info,
             GetTokens (token_db i) !! t = Some (Some info) ->
             snapshot !! t = Some info).
  { intros t info H. subst snapshot. by rewrite lookup_omap, H. }
  assert (Hsnap_None : forall t,
             GetTokens (token_db i) !! t = None -> snapshot !! t = None).
  { intros t H. subst snapshot. by rewrite lookup_omap, H. }
  assert (Hin : forall t info,
             GetTokens (token_db i) !! t = Some (Some info) ->
             t ∈ fetchOrder /\ t ∈ commitOrder).
  { intros t info H. split; [apply Hfetch | apply Hcommit]; by rewrite H. }
  destruct (updatePrices_fetch_lookup priceFeed clock fetchOrder Hnd snapshot [])
    as (fetched & logs & Hfold & Hlook).
  exists (updatePrices_commit i (Some <$> fetched) commitOrder), logs.
  assert (Hinfo : forall t info,
             GetTokens (token_db i) !! t = Some (Some info) ->
             GetTokenInfo
               (token_db (updatePrices_commit i (Some <$> fetched) commitOrder)) t
             = (Some (refreshedInfo priceFeed clock t info), true)).
  { intros t info H. destruct (Hin t info H) as [Hf Hc].
    rewrite updatePrices_commit_lookup by done.
    rewrite Hlook, (Hsnap t info H).
    rewrite (bool_decide_eq_true_2 _ Hf). cbn.
    by rewrite (bool_decide_eq_true_2 _ Hc). }
  split.
  { unfold updatePricesTick, updatePrices_fetch. rewrite Hno. by rewrite Hfold. }
  split; [apply updatePrices_commit_registryAddress |].
  split; [exact Hinfo |].
  split.
  { intros t info price H Hfeed Hclock.
    unfold GetTokenRate, GetTokenMinPromptPrice, Felt_Bytes.
    rewrite (Hinfo t info H). unfold refreshedInfo. rewrite Hfeed.
    cbn. unfold Time_IsZero. by rewrite (proj2 (Z.eqb_neq _ _) Hclock). }
  split.
  { intros t info price err H Hfeed.
    rewrite (Hinfo t info H). unfold refreshedInfo. by rewrite Hfeed. }
  intros t Hnone.
  rewrite updatePrices_commit_lookup by done.
  rewrite Hlook, (Hsnap_None t Hnone).
  by destruct (bool_decide (t ∈ fetchOrder)).
Qed.

(** * Properties of the contracts *)

Module ContractFacts.
Import Contracts.

Lemma bind_Ok {A B : Type} (m : tx A) (f : A -> tx B) (b : B) :
  m ≫= f = Ok b <-> exists a, m = Ok a /\ f a = Ok b.
Proof.
  destruct m as [a | reason]; cbn.
  - split; [by exists a | by intros (? & [= <-] & ?)].
  - split; [discriminate | by intros (? & [=] & _)].
Qed.

Lemma assert_Ok (cond : bool) (reason : string) (u : unit) :
  assert cond reason = Ok u <-> cond = true.
Proof. destruct cond, u; cbn; split; done. Qed.

Lemma assert_false (reason : string) : assert false reason = Revert reason.
Proof. reflexivity. Qed.

Lemma u256_mul_Ok (a b c : Z) : u256_mul a b = Ok c <-> a * b < 2 ^ 256 /\ c = a * b.
Proof.
  unfold u256_mul. destruct (Z.ltb_spec (a * b) (2 ^ 256)); split.
  - by intros [= <-].
  - by intros [_ ->].
  - discriminate.
  - intros [? _]. lia.
Qed.

Lemma u256_sub_Ok (a b c : Z) : u256_sub a b = Ok c <-> b <= a /\ c = a - b.
Proof.
  unfold u256_sub. destruct (Z.leb_spec b a); split.
  - by intros [= <-].
  - by intros [_ ->].
  - discriminate.
  - intros [? _]. lia.
Qed.

Lemma u64_add_Ok (a b c : Z) : u64_add a b = Ok c <-> a + b < 2 ^ 64 /\ c = a + b.
Proof.
  unfold u64_add. destruct (Z.ltb_spec (a + b) (2 ^ 64)); split.
  - by intros [= <-].
  - by intros [_ ->].
  - discriminate.
  - intros [? _]. lia.
Qed.

Section AgentFacts.
Context {L : Type} {erc20 : ERC20 L}.
Implicit Types (env : Env) (ledger : L) (s : Agent.Storage).

(** what a successful [consume_prompt] has checked, computed and done *)
Lemma consume_prompt_Ok env ledger s (prompt_id : Z) s' ledger' (events : list Event) :
  Agent.consume_prompt env ledger s prompt_id = Ok (s', ledger', events) <->
  let pending := Agent.get_pending_prompt s prompt_id in
  let creator_fee := amount pending * 2000 / 10000 in
  let protocol_fee := amount pending * 1000 / 10000 in
  caller_address env = Agent.registry s /\
  reclaimer pending <> 0 /\
  amount pending * 2000 < 2 ^ 256 /\
  amount pending * 1000 < 2 ^ 256 /\
  creator_fee <= amount pending /\
  protocol_fee <= amount pending - creator_fee /\
  (exists ledger1 ok1 ok2,
      erc20_transfer ledger (Agent.token s) (contract_address env)
        (Agent.creator s) creator_fee = Ok (ledger1, ok1) /\
      erc20_transfer ledger1 (Agent.token s) (contract_address env)
        (Agent.registry s) protocol_fee = Ok (ledger', ok2)) /\
  s' = Agent.write_pending_prompt s prompt_id noPendingPrompt /\
  events = [PromptConsumed prompt_id
              (amount pending - creator_fee - protocol_fee) creator_fee protocol_fee].
Proof.
  unfold Agent.consume_prompt.
  unfold Agent.CREATOR_REWARD_BPS, Agent.PROTOCOL_FEE_BPS, Agent.BPS_DENOMINATOR.
  cbv zeta. split.
  - intros H.
    apply bind_Ok in H as ([] & Hreg%assert_Ok & H).
    apply bind_Ok in H as ([] & Hpend%assert_Ok & H).
    apply bind_Ok in H as (c & [Hc ->]%u256_mul_Ok & H).
    apply bind_Ok in H as (p & [Hp ->]%u256_mul_Ok & H).
    apply bind_Ok in H as (r & [Hr ->]%u256_sub_Ok & H).
    apply bind_Ok in H as (a & [Ha ->]%u256_sub_Ok & H).
    apply bind_Ok in H as ([ledger1 ok1] & Ht1 & H).
    apply bind_Ok in H as ([ledger2 ok2] & Ht2 & H).
    cbn in H. injection H as <- <- <-.
    apply bool_decide_eq_true in Hreg.
    apply negb_true_iff, bool_decide_eq_false in Hpend.
    repeat split; try done. by exists ledger1, ok1, ok2.
  - intros (Hreg & Hpend & Hc & Hp & Hr & Ha & (ledger1 & ok1 & ok2 & Ht1 & Ht2) & -> & ->).
    rewrite (bool_decide_eq_true_2 _ Hreg). cbn [assert mbind tx_bind].
    rewrite (bool_decide_eq_false_2 _ Hpend). cbn [negb assert mbind tx_bind].
    rewrite (proj2 (u256_mul_Ok _ _ _) (conj Hc eq_refl)). cbn [mbind tx_bind].
    rewrite (proj2 (u256_mul_Ok _ _ _) (conj Hp eq_refl)). cbn [mbind tx_bind].
    rewrite (proj2 (u256_sub_Ok _ _ _) (conj Hr eq_refl)). cbn [mbind tx_bind].
    rewrite (proj2 (u256_sub_Ok _ _ _) (conj Ha eq_refl)). cbn [mbind tx_bind].
    rewrite Ht1. cbn [mbind tx_bind]. rewrite Ht2. reflexivity.
Qed.

Lemma pay_for_prompt_Ok env (registry_is_paused : bool) ledger s
    (twitter_message_id : Z) s' ledger' (events : list Event) (prompt_id : Z) :
  Agent.pay_for_prompt env registry_is_paused ledger s twitter_message_id
    = Ok (s', ledger', events, prompt_id) <->
  registry_is_paused = false /\
  (exists ok,
      erc20_transfer_from ledger (Agent.token s) (contract_address env)
        (caller_address env) (contract_address env) (Agent.prompt_price s)
        = Ok (ledger', ok)) /\
  Agent.next_prompt_id s + 1 < 2 ^ 64 /\
  prompt_id = Agent.next_prompt_id s /\
  s' = Agent.write_pending_prompt
         (Agent.write_next_prompt_id s (Agent.next_prompt_id s + 1))
         (Agent.next_prompt_id s)
         (mkPendingPrompt (caller_address env) (Agent.prompt_price s)
            (block_timestamp env)) /\
  events = [PromptPaid (caller_address env) (Agent.next_prompt_id s)
              twitter_message_id (Agent.prompt_price s)].
Proof.
  unfold Agent.pay_for_prompt. cbv zeta. split.
  - intros H.
    apply bind_Ok in H as ([] & Hp%assert_Ok & H).
    apply bind_Ok in H as ([ledger1 ok] & Ht & H).
    apply bind_Ok in H as (next & [Hn ->]%u64_add_Ok & H).
    cbn in H. injection H as <- <- <- <-.
    apply negb_true_iff in Hp.
    repeat split; try done. by exists ok.
  - intros (-> & (ok & Ht) & Hn & -> & -> & ->).
    cbn [negb assert mbind tx_bind]. rewrite Ht. cbn [mbind tx_bind].
    rewrite (proj2 (u64_add_Ok _ _ _) (conj Hn eq_refl)). reflexivity.
Qed.

Lemma reclaim_prompt_Ok env ledger s (prompt_id : Z) s' ledger' (events : list Event) :
  Agent.reclaim_prompt env ledger s prompt_id = Ok (s', ledger', events) <->
  let pending := Agent.get_pending_prompt s prompt_id in
  timestamp pending + 1800 < 2 ^ 64 /\
  timestamp pending + 1800 <= block_timestamp env /\
  (exists ok,
      erc20_transfer ledger (Agent.token s) (contract_address env)
        (reclaimer pending) (amount pending) = Ok (ledger', ok)) /\
  s' = Agent.write_pending_prompt s prompt_id noPendingPrompt /\
  events = [PromptReclaimed prompt_id (amount pending) (caller_address env)].
Proof.
  unfold Agent.reclaim_prompt, Agent.RECLAIM_DELAY. cbv zeta. split.
  - intros H.
    apply bind_Ok in H as (deadline & [Hd ->]%u64_add_Ok & H).
    apply bind_Ok in H as ([] & Hlate%assert_Ok & H).
    apply bind_Ok in H as ([ledger1 ok] & Ht & H).
    cbn in H. injection H as <- <- <-.
    apply Z.leb_le in Hlate.
    repeat split; try done. by exists ok.
  - intros (Hd & Hlate & (ok & Ht) & -> & ->).
    rewrite (proj2 (u64_add_Ok _ _ _) (conj Hd eq_refl)). cbn [mbind tx_bind].
    rewrite (proj2 (Z.leb_le _ _) Hlate). cbn [assert mbind tx_bind].
    rewrite Ht. reflexivity.
Qed.

Lemma transfer_Ok env ledger s (recipient : Felt) s' ledger' (events : list Event) :
  Agent.transfer env ledger s recipient = Ok (s', ledger', events) <->
  caller_address env = Agent.registry s /\
  (exists ok,
      erc20_transfer ledger (Agent.token s) (contract_address env) recipient
        (erc20_balance_of ledger (Agent.token s) (contract_address env))
        = Ok (ledger', ok)) /\
  s' = s /\ events = [].
Proof.
  unfold Agent.transfer. cbv zeta. split.
  - intros H.
    apply bind_Ok in H as ([] & Hreg%assert_Ok & H).
    apply bind_Ok in H as ([ledger1 ok] & Ht & H).
    cbn in H. injection H as <- <- <-.
    apply bool_decide_eq_true in Hreg.
    repeat split; try done. by exists ok.
  - intros (Hreg & (ok & Ht) & -> & ->).
    rewrite (bool_decide_eq_true_2 _ Hreg). cbn [assert mbind tx_bind].
    rewrite Ht. reflexivity.
Qed.

Lemma get_pending_prompt_write s (id id' : Z) (p : PendingPrompt) :
  Agent.get_pending_prompt (Agent.write_pending_prompt s id p) id' =
  if bool_decide (id = id') then p else Agent.get_pending_prompt s id'.
Proof.
  unfold Agent.get_pending_prompt, Agent.write_pending_prompt. cbn.
  case_bool_decide as E.
  - subst. by rewrite lookup_insert_eq.
  - by rewrite lookup_insert_ne.
Qed.

(** a call changes an agent in one of three ways *)
Lemma step_cases (st : Agent.Storage * L) (c : Agent.Call) :
  fst (Agent.step st c) = fst st \/
  (exists id, fst (Agent.step st c)
              = Agent.write_pending_prompt (fst st) id noPendingPrompt) \/
  (exists p, Agent.next_prompt_id (fst st) + 1 < 2 ^ 64 /\
             fst (Agent.step st c)
             = Agent.write_pending_prompt
                 (Agent.write_next_prompt_id (fst st)
                    (Agent.next_prompt_id (fst st) + 1))
                 (Agent.next_prompt_id (fst st)) p).
Proof.
  unfold Agent.step.
  destruct (Agent.call st c) as [[[s' ledger'] events] | reason] eqn:Hcall;
    [| by left].
  destruct c as [env recipient | env registry_is_paused m | env id | env id | l];
    cbn [Agent.call] in Hcall.
  - apply transfer_Ok in Hcall as (_ & _ & -> & _). by left.
  - apply bind_Ok in Hcall as ([[[s1 l1] ev1] id1] & Hpay & Hret).
    cbn in Hret. injection Hret as <- <- <-.
    apply pay_for_prompt_Ok in Hpay as (_ & _ & Hn & _ & -> & _).
    right; right. by eexists.
  - apply reclaim_prompt_Ok in Hcall as (_ & _ & _ & -> & _).
    right; left. by eexists.
  - apply consume_prompt_Ok in Hcall as (_ & _ & _ & _ & _ & _ & _ & -> & _).
    right; left. by eexists.
  - cbn in Hcall. injection Hcall as <- _ _. by left.
Qed.

(** what no call changes, and what a call can only increase *)
Lemma step_keeps (st : Agent.Storage * L) (c : Agent.Call) :
  let s := fst st in
  let s' := fst (Agent.step st c) in
  (Agent.registry s' = Agent.registry s /\
   Agent.token s' = Agent.token s /\
   Agent.prompt_price s' = Agent.prompt_price s /\
   Agent.creator s' = Agent.creator s /\
   Agent.name s' = Agent.name s /\
   Agent.system_prompt s' = Agent.system_prompt s) /\
  Agent.next_prompt_id s <= Agent.next_prompt_id s' /\
  (Agent.idsFresh s -> Agent.idsFresh s') /\
  (forall id, id < Agent.next_prompt_id s ->
     Agent.get_pending_prompt s id = noPendingPrompt ->
     Agent.get_pending_prompt s' id = noPendingPrompt).
Proof.
  cbv zeta.
  destruct (step_cases st c) as [-> | [[id ->] | (p & Hn & ->)]].
  - repeat split; first [done | lia].
  - split; [done |]. split; [cbn; lia |]. split.
    + intros Hfresh id' Hid'. rewrite get_pending_prompt_write.
      case_bool_decide; [done | by apply Hfresh].
    + intros id' _ Hid'. rewrite get_pending_prompt_write.
      by case_bool_decide.
  - split; [done |]. split; [cbn; lia |]. split.
    + intros Hfresh id' Hid'. rewrite get_pending_prompt_write.
      cbn in Hid'. case_bool_decide; [lia |]. apply Hfresh. cbn. lia.
    + intros id' Hlt Hid'. rewrite get_pending_prompt_write.
      case_bool_decide; [lia | done].
Qed.

Lemma run_keeps (calls : list Agent.Call) (st : Agent.Storage * L) :
  let s := fst st in
  let s' := fst (Agent.run st calls) in
  (Agent.registry s' = Agent.registry s /\
   Agent.token s' = Agent.token s /\
   Agent.prompt_price s' = Agent.prompt_price s /\
   Agent.creator s' = Agent.creator s /\
   Agent.name s' = Agent.name s /\
   Agent.system_prompt s' = Agent.system_prompt s) /\
  Agent.next_prompt_id s <= Agent.next_prompt_id s' /\
  (Agent.idsFresh s -> Agent.idsFresh s') /\
  (forall id, id < Agent.next_prompt_id s ->
     Agent.get_pending_prompt s id = noPendingPrompt ->
     Agent.get_pending_prompt s' id = noPendingPrompt).
Proof.
  cbv zeta. revert st. induction calls as [| c calls IH]; intros st.
  - cbn. repeat split; first [done | lia].
  - change (Agent.run st (c :: calls)) with (Agent.run (Agent.step st c) calls).
    destruct (step_keeps st c) as ((R1 & T1 & P1 & C1 & N1 & S1) & Hn1 & Hf1 & Hp1).
    destruct (IH (Agent.step st c))
      as ((R2 & T2 & P2 & C2 & N2 & S2) & Hn2 & Hf2 & Hp2).
    split; [repeat split; congruence |].
    split; [lia |]. split; [tauto |].
    intros id Hlt Hid. apply Hp2; [lia |]. by apply Hp1.
Qed.

Lemma constructor_idsFresh (name : string) (registry : Felt) (system_prompt : string)
    (token : Felt) (prompt_price : Z) (creator : Felt) :
  Agent.idsFresh
    (Agent.constructor name registry system_prompt token prompt_price creator).
Proof. intros id _. reflexivity. Qed.

(** a prompt that is pending has an id that was issued *)
Lemma pending_is_issued s (id : Z) :
  Agent.idsFresh s -> reclaimer (Agent.get_pending_prompt s id) <> 0 ->
  id < Agent.next_prompt_id s.
Proof.
  intros Hfresh Hpend. destruct (Z.lt_ge_cases id (Agent.next_prompt_id s)) as [| Hge];
    [done |].
  rewrite (Hfresh id Hge) in Hpend. by destruct Hpend.
Qed.

(** [consume_prompt] on an id under which nothing is pending *)
Lemma consume_prompt_settled env ledger s (id : Z) :
  Agent.get_pending_prompt s id = noPendingPrompt ->
  Agent.consume_prompt env ledger s id =
  Revert (if bool_decide (caller_address env = Agent.registry s)
          then "No pending prompt" else "Only registry can consume").
Proof.
  intros Hid. unfold Agent.consume_prompt. cbv zeta. rewrite Hid.
  by destruct (bool_decide (caller_address env = Agent.registry s)).
Qed.

End AgentFacts.

End ContractFacts.

Section AgentContractProperties.
Import Contracts ContractFacts.
Context {L : Type} {erc20 : ERC20 L}.
Implicit Types (env : Env) (ledger : L) (s : Agent.Storage).

(** X18. [Agent.consume_prompt] splits the amount paid for the prompt
    without losing any of it: the creator is sent 20% and the registry 10%,
    both rounded down, through two transfers of the agent's token, in that
    order; the event reports the rest, which stays with the agent and is at
    least the 70% of [PROMPT_REWARD_BPS]; and the prompt is no longer
    pending. *)
Theorem consume_prompt_splits_amount env ledger s (prompt_id : Z) s' ledger'
    (events : list Event) :
  Agent.consume_prompt env ledger s prompt_id = Ok (s', ledger', events) ->
  let paid := amount (Agent.get_pending_prompt s prompt_id) in
  exists agent_amount creator_fee protocol_fee ledger1 ok1 ok2,
    events = [PromptConsumed prompt_id agent_amount creator_fee protocol_fee] /\
    creator_fee = paid * Agent.CREATOR_REWARD_BPS / Agent.BPS_DENOMINATOR /\
    protocol_fee = paid * Agent.PROTOCOL_FEE_BPS / Agent.BPS_DENOMINATOR /\
    agent_amount + creator_fee + protocol_fee = paid /\
    paid * Agent.PROMPT_REWARD_BPS <= agent_amount * Agent.BPS_DENOMINATOR /\
    erc20_transfer ledger (Agent.token s) (contract_address env) (Agent.creator s)
      creator_fee = Ok (ledger1, ok1) /\
    erc20_transfer ledger1 (Agent.token s) (contract_address env)
      (Agent.registry s) protocol_fee = Ok (ledger', ok2) /\
    Agent.get_pending_prompt s' prompt_id = noPendingPrompt.
Proof.
  intros H paid.
  apply consume_prompt_Ok in H
    as (_ & _ & _ & _ & _ & _ & (ledger1 & ok1 & ok2 & Ht1 & Ht2) & -> & ->).
  fold paid in Ht1, Ht2 |- *.
  unfold Agent.CREATOR_REWARD_BPS, Agent.PROTOCOL_FEE_BPS, Agent.BPS_DENOMINATOR,
    Agent.PROMPT_REWARD_BPS.
  eexists _, _, _, ledger1, ok1, ok2.
  split; [reflexivity |]. split; [reflexivity |]. split; [reflexivity |].
  split; [lia |]. split.
  - pose proof (Z.mul_div_le (paid * 2000) 10000 ltac:(lia)).
    pose proof (Z.mul_div_le (paid * 1000) 10000 ltac:(lia)). lia.
  - split; [exact Ht1 |]. split; [exact Ht2 |].
    rewrite get_pending_prompt_write. by rewrite bool_decide_eq_true_2.
Qed.

(** X19. A prompt is paid out once.  Whatever calls an agent has served
    since it was deployed, once [consume_prompt] has succeeded for a prompt
    no later [consume_prompt] for it succeeds, whatever calls come in
    between: the registry is told 'No pending prompt', anyone else 'Only
    registry can consume'. *)
Theorem consumed_prompt_is_never_consumed_again
    (name : string) (registry : Felt) (system_prompt : string) (token : Felt)
    (prompt_price : Z) (creator : Felt) (ledger0 : L)
    (history later : list Agent.Call) env env' (prompt_id : Z) s1 ledger1
    (events : list Event) :
  let st :=
    Agent.run
      (Agent.constructor name registry system_prompt token prompt_price creator,
       ledger0) history in
  Agent.consume_prompt env (snd st) (fst st) prompt_id = Ok (s1, ledger1, events) ->
  let st' := Agent.run (s1, ledger1) later in
  Agent.consume_prompt env' (snd st') (fst st') prompt_id =
  Revert (if bool_decide (caller_address env' = registry)
          then "No pending prompt" else "Only registry can consume").
Proof.
  intros st H st'.
  destruct (run_keeps history
              (Agent.constructor name registry system_prompt token prompt_price
                 creator, ledger0))
    as ((Hreg & _) & _ & Hfresh & _).
  specialize (Hfresh (constructor_idsFresh _ _ _ _ _ _)). fold st in Hfresh, Hreg.
  apply consume_prompt_Ok in H as (_ & Hpend & _ & _ & _ & _ & _ & -> & _).
  pose proof (pending_is_issued _ _ Hfresh Hpend) as Hissued.
  destruct (run_keeps later
              (Agent.write_pending_prompt (fst st) prompt_id noPendingPrompt,
               ledger1))
    as ((Hreg' & _) & _ & _ & Hstays).
  fold st' in Hreg', Hstays. cbn [fst] in Hreg', Hstays.
  rewrite consume_prompt_settled.
  - rewrite Hreg'. cbn. rewrite Hreg. reflexivity.
  - apply Hstays; [exact Hissued |].
    rewrite get_pending_prompt_write. by rewrite bool_decide_eq_true_2.
Qed.

(** X20. A prompt that was reclaimed cannot be consumed.  Once
    [reclaim_prompt] has succeeded for an id that had been issued, no later
    [consume_prompt] for it succeeds, whatever calls come in between. *)
Theorem reclaimed_prompt_is_never_consumed s ledger (later : list Agent.Call)
    env env' (prompt_id : Z) s1 ledger1 (events : list Event) :
  prompt_id < Agent.get_next_prompt_id s ->
  Agent.reclaim_prompt env ledger s prompt_id = Ok (s1, ledger1, events) ->
  let st' := Agent.run (s1, ledger1) later in
  Agent.consume_prompt env' (snd st') (fst st') prompt_id =
  Revert (if bool_decide (caller_address env' = Agent.registry s)
          then "No pending prompt" else "Only registry can consume").
Proof.
  intros Hissued H st'.
  apply reclaim_prompt_Ok in H as (_ & _ & _ & -> & _).
  destruct (run_keeps later
              (Agent.write_pending_prompt s prompt_id noPendingPrompt, ledger1))
    as ((Hreg' & _) & _ & _ & Hstays).
  fold st' in Hreg', Hstays. cbn [fst] in Hreg', Hstays.
  rewrite consume_prompt_settled.
  - rewrite Hreg'. reflexivity.
  - apply Hstays; [exact Hissued |].
    rewrite get_pending_prompt_write. by rewrite bool_decide_eq_true_2.
Qed.

(** X21. [Agent.pay_for_prompt] never overwrites a prompt.  Whatever calls
    an agent has served since it was deployed, a payment that succeeds
    returns an id under which nothing was pending, records under it the
    payer, the price fixed at deployment and the time of the block, moves
    that price from the payer to the agent, leaves every other prompt as
    it was and makes the next id the one after. *)
Theorem pay_for_prompt_issues_unused_id
    (name : string) (registry : Felt) (system_prompt : string) (token : Felt)
    (prompt_price : Z) (creator : Felt) (ledger0 : L)
    (history : list Agent.Call) env (registry_is_paused : bool)
    (twitter_message_id : Z) s1 ledger1 (events : list Event) (prompt_id : Z) :
  let st :=
    Agent.run
      (Agent.constructor name registry system_prompt token prompt_price creator,
       ledger0) history in
  Agent.pay_for_prompt env registry_is_paused (snd st) (fst st) twitter_message_id
    = Ok (s1, ledger1, events, prompt_id) ->
  Agent.get_pending_prompt (fst st) prompt_id = noPendingPrompt /\
  Agent.get_pending_prompt s1 prompt_id
    = mkPendingPrompt (caller_address env) prompt_price (block_timestamp env) /\
  (forall id, id <> prompt_id ->
     Agent.get_pending_prompt s1 id = Agent.get_pending_prompt (fst st) id) /\
  Agent.get_next_prompt_id s1 = prompt_id + 1 /\
  (exists ok,
      erc20_transfer_from (snd st) token (contract_address env) (caller_address env)
        (contract_address env) prompt_price = Ok (ledger1, ok)) /\
  events = [PromptPaid (caller_address env) prompt_id twitter_message_id
              prompt_price].
Proof.
  intros st H.
  destruct (run_keeps history
              (Agent.constructor name registry system_prompt token prompt_price
                 creator, ledger0))
    as ((_ & Htok & Hprice & _) & _ & Hfresh & _).
  specialize (Hfresh (constructor_idsFresh _ _ _ _ _ _)).
  fold st in Hfresh, Htok, Hprice. cbn in Htok, Hprice.
  apply pay_for_prompt_Ok in H as (_ & Hpaid & _ & -> & -> & ->).
  rewrite Htok, Hprice in *.
  split; [apply Hfresh; lia |].
  split; [rewrite get_pending_prompt_write; by rewrite bool_decide_eq_true_2 |].
  split.
  - intros id Hne. rewrite get_pending_prompt_write.
    by rewrite bool_decide_eq_false_2.
  - repeat split; done.
Qed.

(** X22. Prompt ids are never reused: of two payments to an agent that
    succeed, the later one returns the larger id, whatever calls come in
    between. *)
Theorem later_payment_gets_larger_id s ledger (between : list Agent.Call)
    env env' (paused paused' : bool) (message message' : Z)
    s1 ledger1 (events : list Event) (id : Z)
    s2 ledger2 (events' : list Event) (id' : Z) :
  Agent.pay_for_prompt env paused ledger s message = Ok (s1, ledger1, events, id) ->
  let st := Agent.run (s1, ledger1) between in
  Agent.pay_for_prompt env' paused' (snd st) (fst st) message'
    = Ok (s2, ledger2, events', id') ->
  id < id'.
Proof.
  intros H st H'.
  apply pay_for_prompt_Ok in H as (_ & _ & _ & -> & -> & _).
  apply pay_for_prompt_Ok in H' as (_ & _ & _ & -> & _ & _).
  destruct (run_keeps between
              (Agent.write_pending_prompt
                 (Agent.write_next_prompt_id s (Agent.next_prompt_id s + 1))
                 (Agent.next_prompt_id s)
                 (mkPendingPrompt (caller_address env) (Agent.prompt_price s)
                    (block_timestamp env)), ledger1))
    as (_ & Hmono & _).
  fold st in Hmono. cbn in Hmono. lia.
Qed.

(** X23. After a payment the payer's money is locked for [RECLAIM_DELAY]
    seconds and then returns to the payer, whoever asks: with a deadline
    that fits 64 bits, a [reclaim_prompt] for the prompt in a block earlier
    than 1800 seconds after the payment's reverts with 'Too early to
    reclaim', and one that succeeds has transferred the price to the payer,
    while its event names the caller as reclaimer. *)
Theorem reclaim_prompt_refunds_payer s ledger env (paused : bool) (message : Z)
    s1 ledger1 (events : list Event) (id : Z) env' (ledger' : L) :
  Agent.pay_for_prompt env paused ledger s message = Ok (s1, ledger1, events, id) ->
  block_timestamp env + Agent.RECLAIM_DELAY < 2 ^ 64 ->
  (block_timestamp env' < block_timestamp env + Agent.RECLAIM_DELAY ->
   Agent.reclaim_prompt env' ledger' s1 id = Revert "Too early to reclaim") /\
  (forall s2 ledger2 events',
     Agent.reclaim_prompt env' ledger' s1 id = Ok (s2, ledger2, events') ->
     block_timestamp env + Agent.RECLAIM_DELAY <= block_timestamp env' /\
     (exists ok,
         erc20_transfer ledger' (Agent.token s) (contract_address env')
           (caller_address env) (Agent.prompt_price s) = Ok (ledger2, ok)) /\
     events' = [PromptReclaimed id (Agent.prompt_price s) (caller_address env')] /\
     Agent.get_pending_prompt s2 id = noPendingPrompt).
Proof.
  intros H Hbound.
  apply pay_for_prompt_Ok in H as (_ & _ & _ & -> & -> & _).
  unfold Agent.RECLAIM_DELAY in *.
  assert (Agent.get_pending_prompt
            (Agent.write_pending_prompt
               (Agent.write_next_prompt_id s (Agent.next_prompt_id s + 1))
               (Agent.next_prompt_id s)
               (mkPendingPrompt (caller_address env) (Agent.prompt_price s)
                  (block_timestamp env))) (Agent.next_prompt_id s)
          = mkPendingPrompt (caller_address env) (Agent.prompt_price s)
              (block_timestamp env)) as Hpending.
  { rewrite get_pending_prompt_write. by rewrite bool_decide_eq_true_2. }
  split.
  - intros Hearly. unfold Agent.reclaim_prompt, Agent.RECLAIM_DELAY. cbv zeta.
    rewrite Hpending. cbn [timestamp].
    rewrite (proj2 (u64_add_Ok _ _ _) (conj Hbound eq_refl)). cbn [mbind tx_bind].
    by rewrite (proj2 (Z.leb_gt _ _) Hearly).
  - intros s2 ledger2 events' H.
    apply reclaim_prompt_Ok in H as (_ & Hlate & Ht & -> & ->).
    rewrite Hpending in *. cbn [timestamp amount reclaimer] in *.
    repeat split; try done.
    rewrite get_pending_prompt_write. by rewrite bool_decide_eq_true_2.
Qed.

(** X24. [Agent.reclaim_prompt] does not ask that the prompt exists.  For an
    id the agent has not issued it succeeds exactly when the block's time
    is at least [RECLAIM_DELAY] and the token accepts a transfer of nothing
    to the zero address, and then it reports a reclaim of amount 0 by the
    caller. *)
Theorem reclaim_prompt_of_unissued_id
    (name : string) (registry : Felt) (system_prompt : string) (token : Felt)
    (prompt_price : Z) (creator : Felt) (ledger0 : L)
    (history : list Agent.Call) env (prompt_id : Z) :
  let st :=
    Agent.run
      (Agent.constructor name registry system_prompt token prompt_price creator,
       ledger0) history in
  Agent.get_next_prompt_id (fst st) <= prompt_id ->
  forall s1 ledger1 events,
    Agent.reclaim_prompt env (snd st) (fst st) prompt_id = Ok (s1, ledger1, events) <->
    Agent.RECLAIM_DELAY <= block_timestamp env /\
    (exists ok,
        erc20_transfer (snd st) token (contract_address env) 0 0 = Ok (ledger1, ok)) /\
    s1 = Agent.write_pending_prompt (fst st) prompt_id noPendingPrompt /\
    events = [PromptReclaimed prompt_id 0 (caller_address env)].
Proof.
  intros st Hid s1 ledger1 events.
  destruct (run_keeps history
              (Agent.constructor name registry system_prompt token prompt_price
                 creator, ledger0))
    as ((_ & Htok & _) & _ & Hfresh & _).
  specialize (Hfresh (constructor_idsFresh _ _ _ _ _ _)).
  fold st in Hfresh, Htok. cbn in Htok.
  rewrite reclaim_prompt_Ok. cbv zeta. rewrite (Hfresh prompt_id Hid), Htok.
  unfold Agent.RECLAIM_DELAY. cbn [timestamp amount reclaimer noPendingPrompt].
  change (2 ^ 64) with 18446744073709551616. split.
  - intros (_ & Hlate & Ht & -> & ->). repeat split; first [done | lia].
  - intros (Hlate & Ht & -> & ->). repeat split; first [done | lia].
Qed.

(** X25. No call changes what an agent was deployed with: after any calls
    its registry, token, prompt price, creator, name and system prompt are
    the constructor's, and the ids it issues only grow. *)
Theorem agent_configuration_is_fixed (st : Agent.Storage * L)
    (calls : list Agent.Call) :
  let s := fst st in
  let s' := fst (Agent.run st calls) in
  Agent.registry s' = Agent.registry s /\
  Agent.token s' = Agent.token s /\
  Agent.prompt_price s' = Agent.prompt_price s /\
  Agent.creator s' = Agent.creator s /\
  Agent.name s' = Agent.name s /\
  Agent.system_prompt s' = Agent.system_prompt s /\
  Agent.get_next_prompt_id s <= Agent.get_next_prompt_id s'.
Proof.
  cbv zeta.
  destruct (run_keeps calls st) as ((R & T & P & C & N & S) & Hn & _).
  repeat split; done.
Qed.

End AgentContractProperties.

Section RegistryContractProperties.
Import Contracts ContractFacts.
Context {L : Type} {erc20 : ERC20 L}.
Context (deploy_syscall :
           forall (class_hash : Felt) (name : string) (registry : Felt)
                  (system_prompt : string) (token : Felt) (prompt_price : Z)
                  (creator : Felt), tx Felt).
Implicit Types (env : Env) (w : AgentRegistry.World L) (s : AgentRegistry.Storage).

Lemma register_agent_Ok env w (name system_prompt : string) (token : Felt)
    (prompt_price initial_balance : Z) w' (events : list Event) (address : Felt) :
  AgentRegistry.register_agent deploy_syscall env w name system_prompt token
    prompt_price initial_balance = Ok (w', events, address) ->
  let s := AgentRegistry.registry w in
  let params := AgentRegistry.get_token_params s token in
  AgentRegistry.paused s = false /\
  min_prompt_price params <> 0 /\
  min_prompt_price params <= prompt_price /\
  min_initial_balance params <= initial_balance /\
  deploy_syscall (AgentRegistry.agent_class_hash s) name (contract_address env)
    system_prompt token prompt_price (caller_address env) = Ok address /\
  (exists ok,
      erc20_transfer_from (AgentRegistry.ledger w) token (contract_address env)
        (caller_address env) address initial_balance
        = Ok (AgentRegistry.ledger w', ok)) /\
  AgentRegistry.registry w' =
    AgentRegistry.mkStorage (AgentRegistry.owner s) (AgentRegistry.paused s)
      (AgentRegistry.agent_class_hash s)
      (<[address := true]> (AgentRegistry.agent_registered s))
      (AgentRegistry.agents s ++ [address]) (AgentRegistry.tee s)
      (AgentRegistry.token_params s) /\
  AgentRegistry.deployed w' =
    <[address := Agent.constructor name (contract_address env) system_prompt
                   token prompt_price (caller_address env)]>
      (AgentRegistry.deployed w) /\
  events = [AgentRegistered address (caller_address env) name system_prompt].
Proof.
  unfold AgentRegistry.register_agent, AgentRegistry.assert_not_paused. cbv zeta.
  intros H.
  apply bind_Ok in H as ([] & Hp%assert_Ok & H).
  apply bind_Ok in H as ([] & Hs%assert_Ok & H).
  apply bind_Ok in H as ([] & Hprice%assert_Ok & H).
  apply bind_Ok in H as ([] & Hbal%assert_Ok & H).
  apply bind_Ok in H as (deployed_address & Hdeploy & H).
  apply bind_Ok in H as ([ledger1 ok] & Ht & H).
  cbn in H. injection H as <- <- <-. cbn.
  apply negb_true_iff in Hp. apply negb_true_iff, Z.eqb_neq in Hs.
  apply Z.leb_le in Hprice, Hbal.
  repeat split; try done. by exists ok.
Qed.

(** X26. What a registration that succeeds has checked and done: the
    registry was not paused, the token was supported, price and initial
    balance reached the token's minimums; the agent was deployed with the
    registry's own address as its registry and the caller as its creator,
    it starts with no prompt and with 1 as its next id; the initial balance
    went from the creator to the agent; the agent is registered, comes last
    in [get_agents], no earlier agent was dropped, and the event names the
    agent and the creator. *)
Theorem register_agent_deploys_and_lists env w (name system_prompt : string)
    (token : Felt) (prompt_price initial_balance : Z) w' (events : list Event)
    (address : Felt) :
  AgentRegistry.register_agent deploy_syscall env w name system_prompt token
    prompt_price initial_balance = Ok (w', events, address) ->
  let s := AgentRegistry.registry w in
  let s' := AgentRegistry.registry w' in
  (AgentRegistry.is_paused s = false /\
   AgentRegistry.is_token_supported s token = true /\
   min_prompt_price (AgentRegistry.get_token_params s token) <= prompt_price /\
   min_initial_balance (AgentRegistry.get_token_params s token)
     <= initial_balance) /\
  (exists agent,
      AgentRegistry.deployed w' !! address = Some agent /\
      Agent.registry agent = contract_address env /\
      Agent.creator agent = caller_address env /\
      Agent.token agent = token /\
      Agent.prompt_price agent = prompt_price /\
      Agent.get_next_prompt_id agent = 1 /\
      forall id, Agent.get_pending_prompt agent id = noPendingPrompt) /\
  (exists ok,
      erc20_transfer_from (AgentRegistry.ledger w) token (contract_address env)
        (caller_address env) address initial_balance
        = Ok (AgentRegistry.ledger w', ok)) /\
  AgentRegistry.is_agent_registered s' address = true /\
  AgentRegistry.get_agents s' = AgentRegistry.get_agents s ++ [address] /\
  (forall other, AgentRegistry.is_agent_registered s other = true ->
                 AgentRegistry.is_agent_registered s' other = true) /\
  events = [AgentRegistered address (caller_address env) name system_prompt].
Proof.
  intros H s s'.
  apply register_agent_Ok in H
    as (Hp & Hs & Hprice & Hbal & _ & Ht & Hreg & Hdep & ->).
  subst s'. rewrite Hreg, Hdep. fold s.
  split.
  { repeat split; try done. unfold AgentRegistry.is_token_supported.
    by apply negb_true_iff, Z.eqb_neq. }
  split.
  { eexists. split; [apply lookup_insert_eq |]. by repeat split. }
  split; [exact Ht |].
  unfold AgentRegistry.is_agent_registered, AgentRegistry.get_agents. cbn.
  split; [by rewrite lookup_insert_eq |]. split; [done |]. split; [| done].
  intros other Hother. destruct (decide (address = other)) as [<- | Hne].
  - by rewrite lookup_insert_eq.
  - by rewrite lookup_insert_ne.
Qed.

(** X27. Removing a token closes registration with it.  After a
    [remove_supported_token] that succeeds the token is not supported, its
    parameters read as zero, the other tokens keep theirs, and every
    [register_agent] with that token reverts: with 'Token not supported',
    or with 'Pausable: paused' while the registry is paused. *)
Theorem removed_token_blocks_registration env s (token : Felt) s'
    (events : list Event) :
  AgentRegistry.remove_supported_token env s token = Ok (s', events) ->
  events = [TokenRemoved token] /\
  AgentRegistry.is_token_supported s' token = false /\
  AgentRegistry.get_token_params s' token = mkTokenParams 0 0 /\
  (forall other, other <> token ->
     AgentRegistry.get_token_params s' other
     = AgentRegistry.get_token_params s other) /\
  forall env' w (name system_prompt : string) (prompt_price initial_balance : Z),
    AgentRegistry.registry w = s' ->
    AgentRegistry.register_agent deploy_syscall env' w name system_prompt token
      prompt_price initial_balance
    = Revert (if AgentRegistry.is_paused s' then "Pausable: paused"
              else "Token not supported").
Proof.
  unfold AgentRegistry.remove_supported_token. intros H.
  apply bind_Ok in H as ([] & _ & H). cbn in H. injection H as <- <-.
  assert (AgentRegistry.get_token_params
            (AgentRegistry.write_token_params s token (mkTokenParams 0 0)) token
          = mkTokenParams 0 0) as Hparams.
  { unfold AgentRegistry.get_token_params. cbn. by rewrite lookup_insert_eq. }
  split; [done |]. split.
  { unfold AgentRegistry.is_token_supported. by rewrite Hparams. }
  split; [exact Hparams |]. split.
  { intros other Hne. unfold AgentRegistry.get_token_params. cbn.
    by rewrite lookup_insert_ne. }
  intros env' w name system_prompt prompt_price initial_balance Hw.
  unfold AgentRegistry.register_agent, AgentRegistry.assert_not_paused. cbv zeta.
  rewrite Hw, Hparams. unfold AgentRegistry.is_paused. cbn.
  by destruct (AgentRegistry.paused s).
Qed.

(** X28. [add_supported_token] takes any minimum price, also zero, yet a
    token is supported only with a minimum price other than zero: after a
    call that succeeds the caller was the owner, the event and the stored
    parameters carry the two minimums as given, the other tokens keep
    theirs, and the token is supported exactly when the minimum price given
    is not zero. *)
Theorem add_supported_token_supports_nonzero_price env s (token : Felt)
    (min_price min_balance : Z) s' (events : list Event) :
  AgentRegistry.add_supported_token env s token min_price min_balance
    = Ok (s', events) ->
  caller_address env = AgentRegistry.owner s /\
  events = [TokenAdded token min_price min_balance] /\
  AgentRegistry.get_token_params s' token = mkTokenParams min_price min_balance /\
  (AgentRegistry.is_token_supported s' token = true <-> min_price <> 0) /\
  (forall other, other <> token ->
     AgentRegistry.get_token_params s' other
     = AgentRegistry.get_token_params s other).
Proof.
  unfold AgentRegistry.add_supported_token, AgentRegistry.assert_only_owner.
  intros H.
  apply bind_Ok in H as ([] & Howner%assert_Ok & H). cbn in H.
  injection H as <- <-. apply bool_decide_eq_true in Howner.
  assert (AgentRegistry.get_token_params
            (AgentRegistry.write_token_params s token
               (mkTokenParams min_price min_balance)) token
          = mkTokenParams min_price min_balance) as Hparams.
  { unfold AgentRegistry.get_token_params. cbn. by rewrite lookup_insert_eq. }
  split; [done |]. split; [done |]. split; [exact Hparams |]. split.
  - unfold AgentRegistry.is_token_supported. rewrite Hparams. cbn.
    by rewrite negb_true_iff, Z.eqb_neq.
  - intros other Hne. unfold AgentRegistry.get_token_params. cbn.
    by rewrite lookup_insert_ne.
Qed.

(** X29. While the registry is paused nothing is registered, paid for,
    consumed or moved: [register_agent], the registry's [transfer] and
    [consume_prompt], and an agent's [pay_for_prompt] asking this registry,
    all revert with 'Pausable: paused', whoever calls. *)
Theorem paused_registry_refuses env w (name system_prompt : string)
    (token agent recipient : Felt) (prompt_price initial_balance prompt_id : Z)
    (twitter_message_id : Z) (a : Agent.Storage) :
  AgentRegistry.is_paused (AgentRegistry.registry w) = true ->
  AgentRegistry.register_agent deploy_syscall env w name system_prompt token
    prompt_price initial_balance = Revert "Pausable: paused" /\
  AgentRegistry.transfer env w agent recipient = Revert "Pausable: paused" /\
  AgentRegistry.consume_prompt env w agent prompt_id = Revert "Pausable: paused" /\
  Agent.pay_for_prompt env (AgentRegistry.is_paused (AgentRegistry.registry w))
    (AgentRegistry.ledger w) a twitter_message_id = Revert "Pausable: paused".
Proof.
  unfold AgentRegistry.is_paused. intros Hp.
  unfold AgentRegistry.register_agent, AgentRegistry.transfer,
    AgentRegistry.consume_prompt, Agent.pay_for_prompt,
    AgentRegistry.assert_not_paused.
  cbv zeta. rewrite Hp. by repeat split.
Qed.

End RegistryContractProperties.

(** * Runs of the further properties *)

(** the in-memory token database returns what was stored *)
Lemma TokenDb_stores : TokenDbStores TokenDb.
Proof.
  intros d t t' info. cbn. unfold TokenDb_GetTokenInfo. cbn.
  case_bool_decide as E.
  - subst. by rewrite lookup_insert_eq.
  - by rewrite lookup_insert_ne.
Qed.

Section IndexerRuns.
Import Example MoreExamples.

(** so does the database that keeps the pointer it is handed *)
Lemma PointerTokenDb_stores : TokenDbStores PointerTokenDb.
Proof.
  intros d t t' info. cbn.
  case_bool_decide as E.
  - subst. by rewrite lookup_insert_eq.
  - by rewrite lookup_insert_ne.
Qed.

Lemma LatestPrompts_never_exceed_maxPrompts_run :
  exists usage,
    GetAgentUsage
      (runUsageOps usageDb0
         [OpStorePromptConsumedData 10 agentA1 (mkPromptConsumed 1 agentA1);
          OpStorePromptConsumedData 20 agentA1 (mkPromptConsumed 2 agentA1);
          OpStorePromptConsumedData 30 agentA1 (mkPromptConsumed 3 agentA1);
          OpStorePromptConsumedData 40 agentA1 (mkPromptConsumed 4 agentA1)])
      agentA1 = Some usage /\
    Z.of_nat (length (LatestPrompts usage)) <= 3.
Proof.
  eexists. split; [vm_compute; reflexivity |].
  apply (LatestPrompts_never_exceed_maxPrompts 9 3
           [OpStorePromptConsumedData 10 agentA1 (mkPromptConsumed 1 agentA1);
            OpStorePromptConsumedData 20 agentA1 (mkPromptConsumed 2 agentA1);
            OpStorePromptConsumedData 30 agentA1 (mkPromptConsumed 3 agentA1);
            OpStorePromptConsumedData 40 agentA1 (mkPromptConsumed 4 agentA1)]
           agentA1).
  - lia.
  - vm_compute. reflexivity.
Defined.

Lemma IsDrained_is_terminal_run :
  exists usage',
    GetAgentUsage
      (runUsageOps
         (fst (StorePromptConsumedData 10 usageDb0 agentA1 (mkPromptConsumed 1 creatorC1)))
         [OpStoreAgent agentA1;
          OpStorePromptConsumedData 20 agentA1 (mkPromptConsumed 2 agentA1)])
      agentA1 = Some usage' /\
    IsDrained usage' = true.
Proof.
  apply (IsDrained_is_terminal
           [OpStoreAgent agentA1;
            OpStorePromptConsumedData 20 agentA1 (mkPromptConsumed 2 agentA1)]
           (fst (StorePromptConsumedData 10 usageDb0 agentA1
                   (mkPromptConsumed 1 creatorC1)))
           agentA1
           (getOrCreateAgentUsage
              (fst (StorePromptConsumedData 10 usageDb0 agentA1
                      (mkPromptConsumed 1 creatorC1))) agentA1)).
  - vm_compute. reflexivity.
  - vm_compute. reflexivity.
Defined.

Lemma promptCacheKey_injective_run :
  promptCacheKey agentA1 1 <> promptCacheKey agentA2 1 /\
  promptCacheKey agentA1 1 <> promptCacheKey agentA1 11.
Proof.
  assert (Ha1 : is_bytes32 agentA1) by (vm_compute; split; [discriminate | reflexivity]).
  assert (Ha2 : is_bytes32 agentA2) by (vm_compute; split; [discriminate | reflexivity]).
  split; intros Hkey.
  - destruct (proj1 (promptCacheKey_injective agentA1 agentA2 1 1 Ha1 Ha2
                       ltac:(lia) ltac:(lia)) Hkey) as [Haddr _].
    discriminate Haddr.
  - destruct (proj1 (promptCacheKey_injective agentA1 agentA1 1 11 Ha1 Ha1
                       ltac:(lia) ltac:(lia)) Hkey) as [_ Hid].
    discriminate Hid.
Defined.

Lemma later_payment_overwrites_run :
  let db2 :=
    StorePromptPaidData 150
      (StorePromptPaidData 100 usageDb0 agentA1 (mkPromptPaid 1 555 "hi"))
      agentA1 (mkPromptPaid 1 777 "ho") in
  exists usage entry,
    GetAgentUsage (fst (StorePromptConsumedData 200 db2 agentA1
                          (mkPromptConsumed 1 agentA1))) agentA1 = Some usage /\
    last (LatestPrompts usage) = Some entry /\
    TweetID entry = 777 /\
    Prompt entry = "ho".
Proof.
  intros db2.
  destruct (later_payment_overwrites 100 150 200 usageDb0 agentA1
              (mkPromptPaid 1 555 "hi") (mkPromptPaid 1 777 "ho")
              (mkPromptConsumed 1 agentA1))
    as ((usage & entry & Hget & Hlast & _ & Htweet & Hprompt) & _).
  - reflexivity.
  - reflexivity.
  - vm_compute. discriminate.
  - vm_compute. reflexivity.
  - exists usage, entry. repeat split; assumption.
Defined.

Lemma oldest_payment_is_evicted_run :
  let db' :=
    runUsageOps (StorePromptPaidData 100 smallCacheDb agentA1 (mkPromptPaid 1 555 "hi"))
      (payments [(110, agentA1, mkPromptPaid 2 556 "ho");
                 (120, agentA2, mkPromptPaid 1 557 "hum")]) in
  snd (StorePromptConsumedData 130 db' agentA1 (mkPromptConsumed 1 agentA1))
  = [slog_Error "prompt not found in cache"] /\
  exists usage entry,
    GetAgentUsage (fst (StorePromptConsumedData 130 db' agentA1
                          (mkPromptConsumed 1 agentA1))) agentA1 = Some usage /\
    last (LatestPrompts usage) = Some entry /\
    TweetID entry = 0 /\
    Prompt entry = EmptyString.
Proof.
  intros db'.
  destruct (oldest_payment_is_evicted 100 130 smallCacheDb agentA1
              (mkPromptPaid 1 555 "hi")
              [(110, agentA1, mkPromptPaid 2 556 "ho");
               (120, agentA2, mkPromptPaid 1 557 "hum")]
              (mkPromptConsumed 1 agentA1))
    as (_ & Hlog & usage & entry & Hget & Hlast & _ & Htweet & Hprompt).
  - vm_compute. reflexivity.
  - vm_compute. discriminate.
  - apply (bool_decide_unpack _). vm_compute. exact I.
  - apply (bool_decide_unpack _). vm_compute. exact I.
  - vm_compute. discriminate.
  - reflexivity.
  - vm_compute. reflexivity.
  - split; [exact Hlog |]. exists usage, entry. repeat split; assumption.
Defined.

Lemma GetAgentsByCreator_pages_compose_run :
  exists first second both,
    fst (GetAgentsByCreator agentIndexer2 creatorC1 0 1) = Returns (Some first) /\
    fst (GetAgentsByCreator agentIndexer2 creatorC1 1 1) = Returns (Some second) /\
    fst (GetAgentsByCreator agentIndexer2 creatorC1 0 2) = Returns (Some both) /\
    Agents both = Agents first ++ Agents second.
Proof.
  destruct (GetAgentsByCreator_pages_compose agentIndexer2 creatorC1 0 1 1)
    as (first & second & both & H1 & H2 & H3 & Happ & _).
  - vm_compute. split; [discriminate | reflexivity].
  - vm_compute. split; [discriminate | reflexivity].
  - vm_compute. split; [discriminate | reflexivity].
  - vm_compute. reflexivity.
  - vm_compute. reflexivity.
  - exists first, second, both. repeat split; assumption.
Defined.

Lemma GetAgentsByCreator_aborts_on_wrap_run :
  GetAgentsByCreator agentIndexer2 creatorC1 1 (2 ^ 64 - 1) = (Panics, []).
Proof.
  apply (GetAgentsByCreator_aborts_on_wrap agentIndexer2 creatorC1 1 (2 ^ 64 - 1)).
  - vm_compute. split; [discriminate | reflexivity].
  - vm_compute. split; [discriminate | reflexivity].
  - vm_compute. reflexivity.
  - vm_compute. discriminate.
Defined.

Lemma GetAgentsByCreator_keeps_missing_slots_run :
  exists result,
    fst (GetAgentsByCreator agentIndexerMissing creatorC1 0 10)
    = Returns (Some result) /\
    length (Agents result) = 2%nat /\
    snd (GetAgentsByCreator agentIndexerMissing creatorC1 0 10)
    = [slog_Error "agent not found"].
Proof.
  destruct (GetAgentsByCreator_keeps_missing_slots agentIndexerMissing creatorC1 0 10)
    as (result & Hres & Hlen & Hlog).
  - vm_compute. split; [discriminate | reflexivity].
  - vm_compute. split; [discriminate | reflexivity].
  - vm_compute. reflexivity.
  - vm_compute. reflexivity.
  - exists result. split; [exact Hres |]. split; [exact Hlen | exact Hlog].
Defined.

Lemma fetchAgentInfo_stops_at_registry_run :
  exists message calls,
    fetchAgentInfo agentIndexer0 spoofer
    = (calls, Returns (AgentInfo_zero, Some message)) /\
    Forall (fun c => c = mkRpcCall (isAgentRegisteredCall agentIndexer0 spoofer)
                           "latest") calls.
Proof.
  destruct (ProviderWrapper_Do (client agentIndexer0)
              (isAgentRegisteredCall agentIndexer0 spoofer) "latest")
    as [[calls resp] err] eqn:E.
  destruct (fetchAgentInfo_stops_at_registry agentIndexer0 spoofer calls resp err E)
    as (message & Hfetch & Hcalls).
  - right. vm_compute in E. injection E as <- <- <-.
    eexists _, _. split; [reflexivity | discriminate].
  - exists message, calls. split; [exact Hfetch | exact Hcalls].
Defined.

Lemma onTokenAdded_resets_rate_run :
  GetTokenRate tokenIndexer1 tokenT1 = Returns (Some 2000000000000000000, true) /\
  GetTokenRate (fst (onTokenAdded tokenIndexer1 (tokenAdded registry))) tokenT1
  = Returns (None, false).
Proof.
  split; [reflexivity |].
  destruct (onTokenAdded_resets_rate (decode := decoder) tokenIndexer1
              (tokenAdded registry) (mkTokenAdded tokenT1 10 1000))
    as (_ & _ & Hrate & _).
  - exact TokenDb_stores.
  - reflexivity.
  - reflexivity.
  - exact Hrate.
Defined.

Lemma updatePricesTick_refreshes_rates_run :
  (exists i' logs,
      updatePricesTick feed (fun _ => 1700000000) tokenIndexerAdded
        [Felt_Bytes tokenT1] [Felt_Bytes tokenT1] = Returns (i', logs) /\
      GetTokenRate i' tokenT1 = Returns (Some 5, true)) /\
  updatePricesTick feed (fun _ => 1700000000) tokenIndexerRemoved
    [Felt_Bytes tokenT1] [Felt_Bytes tokenT1] = Panics.
Proof.
  split.
  - destruct (updatePricesTick_refreshes_rates feed (fun _ => 1700000000)
                tokenIndexerAdded [Felt_Bytes tokenT1] [Felt_Bytes tokenT1])
      as (_ & Hrefresh).
    + exact TokenDb_stores.
    + apply (bool_decide_unpack _). vm_compute. exact I.
    + intros t. change (GetTokens (token_db tokenIndexerAdded))
        with (Some <$> (<[Felt_Bytes tokenT1 := mkTokenInfo (Some 10) (Some 1000) None 0]>
                          (∅ : gmap Z TokenInfo))).
      rewrite list_elem_of_singleton, lookup_fmap, fmap_is_Some,
        lookup_insert_is_Some, lookup_empty.
      split; [intros ->; by left | intros [-> | [_ []%is_Some_None]]; done].
    + intros t. change (GetTokens (token_db tokenIndexerAdded))
        with (Some <$> (<[Felt_Bytes tokenT1 := mkTokenInfo (Some 10) (Some 1000) None 0]>
                          (∅ : gmap Z TokenInfo))).
      rewrite list_elem_of_singleton, lookup_fmap, fmap_is_Some,
        lookup_insert_is_Some, lookup_empty.
      split; [intros ->; by left | intros [-> | [_ []%is_Some_None]]; done].
    + destruct Hrefresh as (i' & logs & Htick & _ & _ & Hrate & _).
      * intros t. change (GetTokens (token_db tokenIndexerAdded))
          with (Some <$> (<[Felt_Bytes tokenT1 := mkTokenInfo (Some 10) (Some 1000) None 0]>
                            (∅ : gmap Z TokenInfo))).
        rewrite lookup_fmap. by destruct (_ !! t).
      * exists i', logs. split; [exact Htick |].
        destruct (Hrate (Felt_Bytes tokenT1)
                    (mkTokenInfo (Some 10) (Some 1000) None 0) (Some 5)) as [H _].
        -- reflexivity.
        -- reflexivity.
        -- discriminate.
        -- exact H.
  - destruct (updatePricesTick_refreshes_rates feed (fun _ => 1700000000)
                tokenIndexerRemoved [Felt_Bytes tokenT1] [Felt_Bytes tokenT1])
      as ([_ Hnil] & _).
    + exact PointerTokenDb_stores.
    + apply (bool_decide_unpack _). vm_compute. exact I.
    + intros t. change (GetTokens (token_db tokenIndexerRemoved))
        with (<[Felt_Bytes tokenT1 := None]> (∅ : gmap Z (option TokenInfo))).
      rewrite list_elem_of_singleton, lookup_insert_is_Some, lookup_empty.
      split; [intros ->; by left | intros [-> | [_ []%is_Some_None]]; done].
    + intros t. change (GetTokens (token_db tokenIndexerRemoved))
        with (<[Felt_Bytes tokenT1 := None]> (∅ : gmap Z (option TokenInfo))).
      rewrite list_elem_of_singleton, lookup_insert_is_Some, lookup_empty.
      split; [intros ->; by left | intros [-> | [_ []%is_Some_None]]; done].
    + apply Hnil. exists (Felt_Bytes tokenT1), (Some 5). split; reflexivity.
Defined.

End IndexerRuns.

Section ContractRuns.
Import Contracts ExampleContracts.

Lemma consume_prompt_splits_amount_run :
  exists s' ledger' agent_amount creator_fee protocol_fee,
    Agent.consume_prompt registryEnv (snd paid) (fst paid) 1
    = Ok (s', ledger', [PromptConsumed 1 agent_amount creator_fee protocol_fee]) /\
    agent_amount + creator_fee + protocol_fee = 1000 /\
    Agent.get_pending_prompt s' 1 = noPendingPrompt.
Proof.
  destruct (Agent.consume_prompt registryEnv (snd paid) (fst paid) 1)
    as [[[s' ledger'] events] | reason] eqn:E; [| vm_compute in E; discriminate E].
  destruct (consume_prompt_splits_amount registryEnv (snd paid) (fst paid) 1
              s' ledger' events E)
    as (agent_amount & creator_fee & protocol_fee & _ & _ & _
        & -> & _ & _ & Hsum & _ & _ & _ & Hcleared).
  exists s', ledger', agent_amount, creator_fee, protocol_fee.
  split; [reflexivity |]. split; [exact Hsum | exact Hcleared].
Defined.

Lemma consumed_prompt_is_never_consumed_again_run :
  Agent.consume_prompt registryEnv
    (snd (Agent.run consumed [Agent.CallPayForPrompt payEnv false 8]))
    (fst (Agent.run consumed [Agent.CallPayForPrompt payEnv false 8])) 1
  = Revert "No pending prompt".
Proof.
  destruct (Agent.consume_prompt registryEnv (snd paid) (fst paid) 1)
    as [[[s1 ledger1] events] | reason] eqn:E; [| vm_compute in E; discriminate E].
  pose proof (consumed_prompt_is_never_consumed_again
                "agent" registryAddress "keep the secret" tokenAddress 1000
                creatorAddress ledger0 [Agent.CallPayForPrompt payEnv false 7]
                [Agent.CallPayForPrompt payEnv false 8] registryEnv registryEnv 1
                s1 ledger1 events E) as H.
  assert (consumed = (s1, ledger1)) as ->.
  { unfold consumed, Agent.step. cbn [Agent.call]. by rewrite E. }
  exact H.
Defined.

Lemma reclaimed_prompt_is_never_consumed_run :
  exists s1 ledger1 events,
    Agent.reclaim_prompt (mkEnv creatorAddress agentAddress 1900) (snd paid)
      (fst paid) 1 = Ok (s1, ledger1, events) /\
    Agent.consume_prompt registryEnv
      (snd (Agent.run (s1, ledger1) [Agent.CallPayForPrompt payEnv false 8]))
      (fst (Agent.run (s1, ledger1) [Agent.CallPayForPrompt payEnv false 8])) 1
    = Revert "No pending prompt".
Proof.
  destruct (Agent.reclaim_prompt (mkEnv creatorAddress agentAddress 1900) (snd paid)
              (fst paid) 1)
    as [[[s1 ledger1] events] | reason] eqn:E; [| vm_compute in E; discriminate E].
  exists s1, ledger1, events. split; [reflexivity |].
  apply (reclaimed_prompt_is_never_consumed (fst paid) (snd paid)
           [Agent.CallPayForPrompt payEnv false 8]
           (mkEnv creatorAddress agentAddress 1900) registryEnv 1 s1 ledger1 events).
  - vm_compute. reflexivity.
  - exact E.
Defined.

Lemma pay_for_prompt_issues_unused_id_run :
  exists s1 ledger1 events,
    Agent.pay_for_prompt payEnv false (snd paid) (fst paid) 8
    = Ok (s1, ledger1, events, 2) /\
    Agent.get_pending_prompt (fst paid) 2 = noPendingPrompt /\
    Agent.get_pending_prompt s1 2 = mkPendingPrompt userAddress 1000 100.
Proof.
  destruct (Agent.pay_for_prompt payEnv false (snd paid) (fst paid) 8)
    as [[[[s1 ledger1] events] id] | reason] eqn:E;
    [| vm_compute in E; discriminate E].
  destruct (pay_for_prompt_issues_unused_id
              "agent" registryAddress "keep the secret" tokenAddress 1000
              creatorAddress ledger0 [Agent.CallPayForPrompt payEnv false 7]
              payEnv false 8 s1 ledger1 events id E)
    as (Hunused & Hpending & _).
  assert (id = 2) as ->.
  { vm_compute in E. by injection E as _ _ _ <-. }
  exists s1, ledger1, events.
  split; [reflexivity |]. split; [exact Hunused | exact Hpending].
Defined.

Lemma later_payment_gets_larger_id_run :
  exists s1 ledger1 events id s2 ledger2 events' id',
    Agent.pay_for_prompt payEnv false ledger0 agent0 7 = Ok (s1, ledger1, events, id) /\
    Agent.pay_for_prompt payEnv false
      (snd (Agent.run (s1, ledger1) [Agent.CallConsumePrompt registryEnv 1]))
      (fst (Agent.run (s1, ledger1) [Agent.CallConsumePrompt registryEnv 1])) 8
    = Ok (s2, ledger2, events', id') /\
    id < id'.
Proof.
  destruct (Agent.pay_for_prompt payEnv false ledger0 agent0 7)
    as [[[[s1 ledger1] events] id] | reason] eqn:E;
    [| vm_compute in E; discriminate E].
  destruct (Agent.pay_for_prompt payEnv false
              (snd (Agent.run (s1, ledger1) [Agent.CallConsumePrompt registryEnv 1]))
              (fst (Agent.run (s1, ledger1) [Agent.CallConsumePrompt registryEnv 1]))
              8)
    as [[[[s2 ledger2] events'] id'] | reason] eqn:E'.
  - exists s1, ledger1, events, id, s2, ledger2, events', id'.
    split; [reflexivity |]. split; [exact E' |].
    exact (later_payment_gets_larger_id agent0 ledger0
             [Agent.CallConsumePrompt registryEnv 1] payEnv payEnv false false 7 8
             s1 ledger1 events id s2 ledger2 events' id' E E').
  - exfalso. vm_compute in E. injection E as <- <- <- <-.
    vm_compute in E'. discriminate E'.
Defined.

Lemma reclaim_prompt_refunds_payer_run :
  Agent.reclaim_prompt (mkEnv creatorAddress agentAddress 1899) (snd paid)
    (fst paid) 1 = Revert "Too early to reclaim".
Proof.
  destruct (Agent.pay_for_prompt payEnv false ledger0 agent0 7)
    as [[[[s1 ledger1] events] id] | reason] eqn:E;
    [| vm_compute in E; discriminate E].
  destruct (reclaim_prompt_refunds_payer agent0 ledger0 payEnv false 7
              s1 ledger1 events id (mkEnv creatorAddress agentAddress 1899)
              (snd paid) E)
    as [Hearly _].
  - vm_compute. reflexivity.
  - assert (fst paid = s1 /\ id = 1) as [-> ->].
    { vm_compute in E. injection E as <- _ _ <-. split; reflexivity. }
    apply Hearly. vm_compute. reflexivity.
Defined.

Lemma reclaim_prompt_of_unissued_id_run :
  exists s1 ledger1,
    Agent.reclaim_prompt (mkEnv creatorAddress agentAddress 2000) (snd paid)
      (fst paid) 5 = Ok (s1, ledger1, [PromptReclaimed 5 0 creatorAddress]).
Proof.
  destruct (Agent.reclaim_prompt (mkEnv creatorAddress agentAddress 2000) (snd paid)
              (fst paid) 5)
    as [[[s1 ledger1] events] | reason] eqn:E; [| vm_compute in E; discriminate E].
  assert (Agent.get_next_prompt_id (fst paid) <= 5) as Hid
    by (vm_compute; discriminate).
  destruct (proj1 (reclaim_prompt_of_unissued_id
                     "agent" registryAddress "keep the secret" tokenAddress 1000
                     creatorAddress ledger0 [Agent.CallPayForPrompt payEnv false 7]
                     (mkEnv creatorAddress agentAddress 2000) 5 Hid
                     s1 ledger1 events) E)
    as (_ & _ & _ & ->).
  exists s1, ledger1. reflexivity.
Defined.

Lemma register_agent_deploys_and_lists_run :
  exists w' events,
    AgentRegistry.register_agent deploy (mkEnv creatorAddress registryAddress 50)
      world0 "agent" "keep the secret" tokenAddress 1000 2000
    = Ok (w', events, agentAddress) /\
    AgentRegistry.is_agent_registered (AgentRegistry.registry w') agentAddress = true /\
    AgentRegistry.get_agents (AgentRegistry.registry w') = [agentAddress] /\
    events = [AgentRegistered agentAddress creatorAddress "agent" "keep the secret"].
Proof.
  destruct (AgentRegistry.register_agent deploy
              (mkEnv creatorAddress registryAddress 50) world0 "agent"
              "keep the secret" tokenAddress 1000 2000)
    as [[[w' events] address] | reason] eqn:E; [| vm_compute in E; discriminate E].
  destruct (register_agent_deploys_and_lists deploy
              (mkEnv creatorAddress registryAddress 50) world0 "agent"
              "keep the secret" tokenAddress 1000 2000 w' events address E)
    as (_ & _ & _ & Hreg & Hagents & _ & Hevents).
  assert (address = agentAddress) as ->.
  { vm_compute in E. by injection E as _ _ <-. }
  exists w', events. split; [reflexivity |].
  split; [exact Hreg |]. split; [exact Hagents | exact Hevents].
Defined.

Lemma removed_token_blocks_registration_run :
  exists s' events,
    AgentRegistry.remove_supported_token (mkEnv ownerAddress registryAddress 60)
      registry0 tokenAddress = Ok (s', events) /\
    AgentRegistry.is_token_supported registry0 tokenAddress = true /\
    AgentRegistry.is_token_supported s' tokenAddress = false /\
    AgentRegistry.register_agent deploy (mkEnv creatorAddress registryAddress 70)
      (AgentRegistry.mkWorld s' ∅ (AgentRegistry.ledger world0)) "agent"
      "keep the secret" tokenAddress 1000 2000
    = Revert "Token not supported".
Proof.
  destruct (AgentRegistry.remove_supported_token
              (mkEnv ownerAddress registryAddress 60) registry0 tokenAddress)
    as [[s' events] | reason] eqn:E; [| vm_compute in E; discriminate E].
  destruct (removed_token_blocks_registration deploy
              (mkEnv ownerAddress registryAddress 60) registry0 tokenAddress s'
              events E)
    as (_ & Hunsupported & _ & _ & Hblocked).
  exists s', events. split; [reflexivity |]. split; [reflexivity |].
  split; [exact Hunsupported |].
  rewrite (Hblocked (mkEnv creatorAddress registryAddress 70)
             (AgentRegistry.mkWorld s' ∅ (AgentRegistry.ledger world0)) "agent"
             "keep the secret" 1000 2000 eq_refl).
  vm_compute in E. by injection E as <- _.
Defined.

Lemma add_supported_token_supports_nonzero_price_run :
  exists s' events,
    AgentRegistry.add_supported_token (mkEnv ownerAddress registryAddress 60)
      registry0 tokenAddress 0 2000 = Ok (s', events) /\
    events = [TokenAdded tokenAddress 0 2000] /\
    AgentRegistry.is_token_supported s' tokenAddress = false.
Proof.
  destruct (AgentRegistry.add_supported_token
              (mkEnv ownerAddress registryAddress 60) registry0 tokenAddress 0 2000)
    as [[s' events] | reason] eqn:E; [| vm_compute in E; discriminate E].
  destruct (add_supported_token_supports_nonzero_price
              (mkEnv ownerAddress registryAddress 60) registry0 tokenAddress 0 2000
              s' events E)
    as (_ & Hevents & _ & Hsupported & _).
  exists s', events. split; [reflexivity |]. split; [exact Hevents |].
  destruct (AgentRegistry.is_token_supported s' tokenAddress); [| reflexivity].
  by destruct (proj1 Hsupported eq_refl).
Defined.

Lemma paused_registry_refuses_run :
  AgentRegistry.consume_prompt (mkEnv teeAddress registryAddress 80)
    (AgentRegistry.mkWorld (AgentRegistry.write_paused registry0 true) ∅ ledger0)
    agentAddress 1 = Revert "Pausable: paused".
Proof.
  destruct (paused_registry_refuses deploy (mkEnv teeAddress registryAddress 80)
              (AgentRegistry.mkWorld (AgentRegistry.write_paused registry0 true) ∅
                 ledger0)
              "agent" "keep the secret" tokenAddress agentAddress userAddress
              1000 2000 1 7 agent0)
    as (_ & _ & Hconsume & _).
  - reflexivity.
  - exact Hconsume.
Defined.

End ContractRuns.
